(** * Gate proxy: connection and client Play session core

    A shallow embedding of [pkg/proxy/connection.go] (minecraftConn), of the
    connected player (connectedPlayer) and of the client Play session handler
    (clientPlaySessionHandler), with the properties of the session core
    stated and proved over it.

    Conventions of the embedding:
    - Go pointers to server connections are indices into a store
      ([option nat], [None] is nil); the player's own [*minecraftConn] is
      embedded in the player.
    - Every method is a state transformer over [World] (monad [M]).
    - What the transport does (encoder writes, flushes, deadlines, socket
      close) is decided by a per-connection script of outcomes, so that
      every failure the network can produce is covered.
    - Calls into code outside the modelled files (event bus, command
      registry, Forge phases, serverConnection methods) are recorded in the
      world's trace. *)

From Stdlib Require Import ZArith Ascii String List Bool Lia.
From stdpp Require Import base gmap strings list.

Open Scope Z_scope.

(** ** Protocol versions *)

Definition Protocol := Z.

(** Modelled from the spec: package [proto] is not among the sources; these
    are the protocol numbers of the Minecraft releases the code names. *)
Module proto.
Definition Minecraft_1_7_2 : Protocol := 4.
Definition Minecraft_1_8 : Protocol := 47.
Definition Minecraft_1_11 : Protocol := 315.
Definition Minecraft_1_12_2 : Protocol := 340.
Definition Minecraft_1_13 : Protocol := 393.
Definition Minecraft_1_15_2 : Protocol := 578.
Definition Minecraft_1_16 : Protocol := 735.

(** [p.Lower(v)] and [p.GreaterEqual(v)] compare protocol numbers. *)
Definition Lower (p v : Protocol) : bool := p <? v.
Definition GreaterEqual (p v : Protocol) : bool := v <=? p.
End proto.

(** ** Errors *)

Inductive error :=
| ErrClosedConn            (* "connection is closed" *)
| ErrNoBackendConnection   (* "player has no backend server connection yet" *)
| ErrTooLongChatMessage    (* "server bound chat message can not exceed 256 characters" *)
| ErrTransport             (* any error of the encoder or of the socket *)
| ErrNilConn.              (* a method called on a nil connection *)

Definition failed (err : option error) : bool :=
  match err with Some _ => true | None => false end.

(** ** Packets *)

(** Values of types declared outside the sources, which the code only
    copies (dimension info, dimension data), are handles. *)
Definition handle := N.

Definition UUID := N.
Module uuid.
Definition Nil : UUID := 0%N.
End uuid.

(** The fields of [packet.JoinGame] that the session core reads. *)
Record JoinGame := mkJoinGame {
  jg_Gamemode : Z;
  jg_Dimension : Z;
  jg_PartialHashedSeed : Z;
  jg_Difficulty : Z;
  jg_LevelType : option string;     (* *string, nil when absent *)
  jg_DimensionInfo : handle;
  jg_CurrentDimensionData : handle;
  jg_PreviousGamemode : Z
}.

Record Respawn := mkRespawn {
  rs_Dimension : Z;
  rs_PartialHashedSeed : Z;
  rs_Difficulty : Z;
  rs_Gamemode : Z;
  rs_LevelType : string;
  rs_ShouldKeepPlayerData : bool;
  rs_DimensionInfo : handle;
  rs_PreviousGamemode : Z;
  rs_CurrentDimensionData : handle
}.

Definition set_rs_Dimension (d : Z) (r : Respawn) : Respawn :=
  mkRespawn d (rs_PartialHashedSeed r) (rs_Difficulty r) (rs_Gamemode r)
    (rs_LevelType r) (rs_ShouldKeepPlayerData r) (rs_DimensionInfo r)
    (rs_PreviousGamemode r) (rs_CurrentDimensionData r).

Inductive MessagePosition := ChatMessage | SystemMessage | ActionBarMessage.

Record Chat := mkChat {
  chat_Message : string;
  chat_Type : MessagePosition;
  chat_Sender : UUID
}.

Record KeepAlive := mkKeepAlive { RandomId : Z }.

(** [plugin.Message]: a channel and an opaque byte string. *)
Record Message := mkMessage {
  Channel : string;
  Data : string
}.

Inductive Packet :=
| PKeepAlive (k : KeepAlive)
| PChat (c : Chat)
| PPluginMessage (m : Message)
| PJoinGame (j : JoinGame)
| PRespawn (r : Respawn)
| PResetTitle (v : Protocol)        (* packet.NewResetTitle(v) *)
| PClientSettings (s : handle)
| PDisconnect (reason : string)
| POther (id : N)                   (* any other known packet *)
| PRaw (payload : string).          (* an unknown packet's payload *)

(** Modelled from the spec: the constant is declared in package [packet],
    which is not among the sources; server-bound chat may not exceed 256
    characters, as the text of ErrTooLongChatMessage says too. *)
Module packet.
Definition MaxServerBoundMessageLength : nat := 256.
End packet.

(** ** Connections *)

Inductive State := Handshake | Status | Login | Play.

(** The session handlers a connection can hold.  Only the client Play
    handler is among the sources; the others are told apart by name. *)
Inductive sessionHandler := ClientPlayHandler | OtherHandler (name : string).

(** A connection is followed from the moment its read loop has installed
    [cancelFunc], which is when a close can find it. *)
Record minecraftConn := mkConn {
  protocol : Protocol;
  state : State;
  handler_ : option sessionHandler;   (* sessionHandler, nil when unset *)
  closeOnce : bool;                   (* sync.Once: has it run *)
  closed : bool;
  knownDisconnect : bool;
  cancelCalls : nat;                  (* calls of cancelFunc *)
  sockClosed : bool;                  (* c.c.Close() was called *)
  writeBuf : list Packet;             (* encoded, not yet flushed *)
  wire : list Packet;                 (* flushed to the socket *)
  script : list bool                  (* outcomes of the coming transport
                                         calls, true = success; when
                                         exhausted every call succeeds *)
}.

Definition set_closeOnce (b : bool) (c : minecraftConn) : minecraftConn :=
  mkConn (protocol c) (state c) (handler_ c) b (closed c) (knownDisconnect c)
    (cancelCalls c) (sockClosed c) (writeBuf c) (wire c) (script c).
Definition set_closed (b : bool) (c : minecraftConn) : minecraftConn :=
  mkConn (protocol c) (state c) (handler_ c) (closeOnce c) b (knownDisconnect c)
    (cancelCalls c) (sockClosed c) (writeBuf c) (wire c) (script c).
Definition set_knownDisconnect (b : bool) (c : minecraftConn) : minecraftConn :=
  mkConn (protocol c) (state c) (handler_ c) (closeOnce c) (closed c) b
    (cancelCalls c) (sockClosed c) (writeBuf c) (wire c) (script c).
Definition set_cancelCalls (n : nat) (c : minecraftConn) : minecraftConn :=
  mkConn (protocol c) (state c) (handler_ c) (closeOnce c) (closed c)
    (knownDisconnect c) n (sockClosed c) (writeBuf c) (wire c) (script c).
Definition set_sockClosed (b : bool) (c : minecraftConn) : minecraftConn :=
  mkConn (protocol c) (state c) (handler_ c) (closeOnce c) (closed c)
    (knownDisconnect c) (cancelCalls c) b (writeBuf c) (wire c) (script c).
Definition set_writeBuf (l : list Packet) (c : minecraftConn) : minecraftConn :=
  mkConn (protocol c) (state c) (handler_ c) (closeOnce c) (closed c)
    (knownDisconnect c) (cancelCalls c) (sockClosed c) l (wire c) (script c).
Definition set_wire (l : list Packet) (c : minecraftConn) : minecraftConn :=
  mkConn (protocol c) (state c) (handler_ c) (closeOnce c) (closed c)
    (knownDisconnect c) (cancelCalls c) (sockClosed c) (writeBuf c) l (script c).
Definition set_script (l : list bool) (c : minecraftConn) : minecraftConn :=
  mkConn (protocol c) (state c) (handler_ c) (closeOnce c) (closed c)
    (knownDisconnect c) (cancelCalls c) (sockClosed c) (writeBuf c) (wire c) l.

(** [newMinecraftConn]: state Handshake, protocol 1.7.2, no handler. *)
Definition newMinecraftConn (faults : list bool) : minecraftConn :=
  mkConn proto.Minecraft_1_7_2 Handshake None false false false 0 false [] [] faults.

(** ** Forge connection phases *)

(** Modelled from the spec: [backendConnectionPhase] is an interface whose
    implementations are not among the sources; a phase is the record of
    what the handlers ask of it: whether it is the in-transition phase and
    whether it is considered complete. *)
Record backendConnectionPhase := mkBackendPhase {
  bp_inTransition : bool;         (* is it inTransitionBackendPhase *)
  bp_consideredComplete : bool
}.

(** Modelled from the spec: [clientConnectionPhase], likewise; its [handle]
    answers whether the phase took the plugin message. *)
Record clientConnectionPhase := mkClientPhase {
  cp_handle : Message -> bool;    (* handle(server, msg): was it handled *)
  cp_consideredComplete : bool
}.

(** ** Server connections and the player *)

Record serverConnection := mkServerConn {
  connection : option minecraftConn;   (* nil until connected *)
  sc_phase : backendConnectionPhase;
  lastPingId : Z;
  lastPingSent : Z                     (* int64 milliseconds *)
}.

Definition set_connection (c : option minecraftConn) (s : serverConnection) :=
  mkServerConn c (sc_phase s) (lastPingId s) (lastPingSent s).
Definition set_lastPingSent (t : Z) (s : serverConnection) :=
  mkServerConn (connection s) (sc_phase s) (lastPingId s) t.

Record connectedPlayer := mkPlayer {
  conn : minecraftConn;                            (* embedded *minecraftConn *)
  profileId : UUID;
  ping : Z;                                        (* atomic.Duration, ns *)
  disconnectDueToDuplicateConnection : bool;
  pluginChannelsMu : nat;                          (* RWMutex: readers holding it *)
  pluginChannels : gset string;
  connectedServer_ : option nat;
  connInFlight : option nat;
  settings : option handle;
  connPhase : clientConnectionPhase
}.

Definition set_conn (c : minecraftConn) (p : connectedPlayer) :=
  mkPlayer c (profileId p) (ping p) (disconnectDueToDuplicateConnection p)
    (pluginChannelsMu p) (pluginChannels p) (connectedServer_ p)
    (connInFlight p) (settings p) (connPhase p).
Definition set_ping (d : Z) (p : connectedPlayer) :=
  mkPlayer (conn p) (profileId p) d (disconnectDueToDuplicateConnection p)
    (pluginChannelsMu p) (pluginChannels p) (connectedServer_ p)
    (connInFlight p) (settings p) (connPhase p).
Definition set_pluginChannelsMu (n : nat) (p : connectedPlayer) :=
  mkPlayer (conn p) (profileId p) (ping p) (disconnectDueToDuplicateConnection p)
    n (pluginChannels p) (connectedServer_ p)
    (connInFlight p) (settings p) (connPhase p).
Definition set_pluginChannels (s : gset string) (p : connectedPlayer) :=
  mkPlayer (conn p) (profileId p) (ping p) (disconnectDueToDuplicateConnection p)
    (pluginChannelsMu p) s (connectedServer_ p)
    (connInFlight p) (settings p) (connPhase p).
Definition set_connectedServer_ (s : option nat) (p : connectedPlayer) :=
  mkPlayer (conn p) (profileId p) (ping p) (disconnectDueToDuplicateConnection p)
    (pluginChannelsMu p) (pluginChannels p) s
    (connInFlight p) (settings p) (connPhase p).
Definition set_settings (s : option handle) (p : connectedPlayer) :=
  mkPlayer (conn p) (profileId p) (ping p) (disconnectDueToDuplicateConnection p)
    (pluginChannelsMu p) (pluginChannels p) (connectedServer_ p)
    (connInFlight p) s (connPhase p).

(** [clientPlaySessionHandler]: the spawned flag and the queue of plugin
    messages received during login. *)
Record clientPlaySessionHandler := mkHandler {
  spawned : bool;
  loginPluginMessages : list Message
}.

(** ** Events and the proxy *)

Inductive LoginStatus :=
| SuccessfulLoginStatus
| ConflictingLoginStatus
| CanceledByUserLoginStatus
| CanceledByProxyLoginStatus.

(** Events handed to the event bus. *)
Inductive BusEvent :=
| CommandExecuteEvent (commandline : string)
| PlayerChatEvent (message : string)
| PluginMessageEvent (target : nat) (identifier : string) (data : string)
| PlayerSettingsChangedEvent (s : handle)
| DisconnectEvent (loginStatus : LoginStatus).

(** A connection of the world: the player's own, or the backend
    connection of a server connection. *)
Inductive ConnRef := ClientConn | BackendConn (s : nat).

(** What the modelled code does to its surroundings, in order. *)
Inductive Event :=
| EvBufferPacket (c : ConnRef) (p : Packet) (ok : bool)   (* BufferPacket returned *)
| EvFlush (c : ConnRef) (ok : bool)                       (* flush returned *)
| EvWritePacket (c : ConnRef) (p : Packet) (ok : bool)    (* WritePacket returned *)
| EvWrite (c : ConnRef) (payload : string) (ok : bool)    (* Write returned *)
| EvDisconnected (c : ConnRef)                            (* sh.disconnected() *)
| EvLogDisconnected                                       (* "%s has disconnected" *)
| EvServerDisconnect (s : nat)                            (* serverConnection.disconnect() *)
| EvFire (e : BusEvent)                                   (* event.Fire / FireParallel *)
| EvInvoke (cmd : string) (args : list string)            (* command.Invoke *)
| EvOnFirstJoin                                           (* phase().onFirstJoin(player) *)
| EvPhaseHandle (target : nat) (m : Message)              (* phase().handle(target, m) *)
| EvCompleteJoin (s : nat).                               (* destination.completeJoin() *)

(** Modelled from the spec: [Proxy], its event bus, command registry and
    channel registrar are not among the sources; this is the part of them
    the handlers consult. *)
Record Proxy := mkProxy {
  registered : list UUID;                       (* players in the registry *)
  eventAllowed : BusEvent -> bool;              (* what subscribers decide *)
  commandHas : string -> bool;                  (* command.Has *)
  channelFromId : string -> option string;      (* ChannelRegistrar().FromId *)
  channelsForProtocol : Protocol -> gset string (* ChannelsForProtocol *)
}.

Definition set_registered (l : list UUID) (p : Proxy) :=
  mkProxy l (eventAllowed p) (commandHas p) (channelFromId p) (channelsForProtocol p).

Record World := mkWorld {
  player : connectedPlayer;
  handler : clientPlaySessionHandler;
  servers : list serverConnection;     (* store of *serverConnection *)
  proxy : Proxy;
  trace : list Event
}.

Definition set_player (p : connectedPlayer) (w : World) :=
  mkWorld p (handler w) (servers w) (proxy w) (trace w).
Definition set_handler (h : clientPlaySessionHandler) (w : World) :=
  mkWorld (player w) h (servers w) (proxy w) (trace w).
Definition set_servers (l : list serverConnection) (w : World) :=
  mkWorld (player w) (handler w) l (proxy w) (trace w).
Definition set_proxy (p : Proxy) (w : World) :=
  mkWorld (player w) (handler w) (servers w) p (trace w).
Definition set_trace (t : list Event) (w : World) :=
  mkWorld (player w) (handler w) (servers w) (proxy w) t.

(** ** The state monad of the embedding *)

Definition M (A : Type) : Type := World -> A * World.

Definition ret {A} (a : A) : M A := fun w => (a, w).
Definition bind {A B} (m : M A) (k : A -> M B) : M B :=
  fun w => let (a, w') := m w in k a w'.

Notation "x <- m ;; k" := (bind m (fun x => k))
  (at level 100, m at next level, right associativity).
Notation "m ;; k" := (bind m (fun _ => k))
  (at level 100, right associativity).

Definition gets {A} (f : World -> A) : M A := fun w => (f w, w).
Definition modify (f : World -> World) : M unit := fun w => (tt, f w).
Definition log (e : Event) : M unit :=
  modify (fun w => set_trace (trace w ++ [e]) w).

(** ** The store of connections *)

Definition getConn (r : ConnRef) (w : World) : option minecraftConn :=
  match r with
  | ClientConn => Some (conn (player w))
  | BackendConn s =>
      match servers w !! s with
      | Some sc => connection sc
      | None => None
      end
  end.

Definition setConn (r : ConnRef) (c : minecraftConn) (w : World) : World :=
  match r with
  | ClientConn => set_player (set_conn c (player w)) w
  | BackendConn s =>
      match servers w !! s with
      | Some sc => set_servers (<[s := set_connection (Some c) sc]> (servers w)) w
      | None => w
      end
  end.

(** Reading a field of a connection and updating it in place.  The
    handlers call methods on connections they have tested against nil;
    for a nil connection [nil] is answered and nothing is updated. *)
Definition load {A} (r : ConnRef) (f : minecraftConn -> A) (nil : A) : M A :=
  gets (fun w => match getConn r w with Some c => f c | None => nil end).

Definition update (r : ConnRef) (f : minecraftConn -> minecraftConn) : M unit :=
  modify (fun w => match getConn r w with Some c => setConn r (f c) w | None => w end).

(** The next outcome of the transport under connection [r]. *)
Definition transport (r : ConnRef) : M bool := fun w =>
  match getConn r w with
  | Some c =>
      match script c with
      | [] => (true, w)
      | ok :: rest => (ok, setConn r (set_script rest c) w)
      end
  | None => (false, w)
  end.

(** ** Collaborators outside the modelled files *)

(** Modelled from the spec: the event bus is not among the sources.
    [Fire] runs the subscribers, after which the event says whether it is
    still allowed; [FireParallel] is taken with its continuation run at
    once. *)
Definition fire (e : BusEvent) : M bool :=
  log (EvFire e) ;;
  gets (fun w => eventAllowed (proxy w) e).

(** Modelled from the spec: [serverConnection.disconnect] is not among the
    sources; it disconnects that backend, which is recorded as such. *)
Definition serverDisconnect (s : nat) : M unit := log (EvServerDisconnect s).

(** Modelled from the spec: [connect.unregisterConnection] is not among the
    sources; it removes the player from the registry and tells whether the
    player was found there. *)
Definition unregisterConnection : M bool := fun w =>
  let id := profileId (player w) in
  (bool_decide (id ∈ registered (proxy w)),
   set_proxy (set_registered (filter (fun x => x ≠ id) (registered (proxy w))) (proxy w)) w).

(** ** connectedPlayer.teardown *)

Definition teardown : M unit :=
  inFlight <- gets (fun w => connInFlight (player w)) ;;
  connectedServer <- gets (fun w => connectedServer_ (player w)) ;;
  (match inFlight with
   | Some s => serverDisconnect s
   | None => ret tt
   end) ;;
  (match connectedServer with
   | Some s => serverDisconnect s
   | None => ret tt
   end) ;;
  found <- unregisterConnection ;;
  duplicate <- gets (fun w => disconnectDueToDuplicateConnection (player w)) ;;
  known <- gets (fun w => knownDisconnect (conn (player w))) ;;
  let status :=
    if found then
      if duplicate then ConflictingLoginStatus else SuccessfulLoginStatus
    else
      if known then CanceledByProxyLoginStatus else CanceledByUserLoginStatus in
  _ <- fire (DisconnectEvent status) ;;
  ret tt.

(** [sessionHandler.disconnected]: teardown of the player for the client
    Play handler; the other handlers are outside the sources. *)
Definition disconnected (sh : sessionHandler) : M unit :=
  match sh with
  | ClientPlayHandler => teardown
  | OtherHandler _ => ret tt
  end.

Definition hasPlayer (sh : sessionHandler) : bool :=
  match sh with ClientPlayHandler => true | OtherHandler _ => false end.

(** ** minecraftConn: close *)

Definition closeKnown (r : ConnRef) (markKnown : bool) : M (option error) := fun w =>
  match getConn r w with
  | None => (Some ErrNilConn, w)
  | Some c =>
      if closeOnce c then (Some ErrClosedConn, w)        (* alreadyClosed *)
      else
        (update r (set_closeOnce true) ;;
         (if markKnown then update r (set_knownDisconnect true) else ret tt) ;;
         update r (fun c => set_cancelCalls (S (cancelCalls c)) c) ;;
         update r (set_closed true) ;;
         ok <- transport r ;;                            (* c.c.Close() *)
         update r (set_sockClosed true) ;;
         sh <- load r handler_ None ;;
         (match sh with
          | Some sh =>
              log (EvDisconnected r) ;;
              disconnected sh ;;
              known <- load r knownDisconnect true ;;
              if hasPlayer sh && negb known then log EvLogDisconnected else ret tt
          | None => ret tt
          end) ;;
         ret (if ok then None else Some ErrTransport)) w
  end.

Definition close (r : ConnRef) : M (option error) := closeKnown r true.

Definition closeOnErr (r : ConnRef) (err : option error) : M unit :=
  match err with
  | None => ret tt
  | Some _ => _ <- close r ;; ret tt
  end.

(** ** minecraftConn: writing *)

(** A packet handed to the encoder is encoded on the spot: what the
    buffer holds is its value at that moment. *)
Definition BufferPacket (r : ConnRef) (p : Packet) : M (option error) :=
  isClosed <- load r closed true ;;
  if isClosed then
    log (EvBufferPacket r p false) ;;
    ret (Some ErrClosedConn)
  else
    ok <- transport r ;;                                 (* encoder.WritePacket *)
    (if ok then update r (fun c => set_writeBuf (writeBuf c ++ [p]) c) else ret tt) ;;
    let err := if ok then None else Some ErrTransport in
    log (EvBufferPacket r p ok) ;;
    closeOnErr r err ;;
    ret err.

Definition flush (r : ConnRef) : M (option error) :=
  sockGone <- load r sockClosed true ;;
  (* SetWriteDeadline: an error on a socket that is closed already *)
  deadlineOk <- (if sockGone then ret false else transport r) ;;
  err <- (if deadlineOk then
            ok <- transport r ;;                         (* encoder.Sync(writeBuf.Flush) *)
            if ok then
              update r (fun c => set_writeBuf [] (set_wire (wire c ++ writeBuf c) c)) ;;
              ret None
            else ret (Some ErrTransport)
          else ret (Some ErrTransport)) ;;
  log (EvFlush r (negb (failed err))) ;;
  closeOnErr r err ;;
  ret err.

Definition WritePacket (r : ConnRef) (p : Packet) : M (option error) :=
  isClosed <- load r closed true ;;
  if isClosed then
    log (EvWritePacket r p false) ;;
    ret (Some ErrClosedConn)
  else
    err <- BufferPacket r p ;;
    err <- (if failed err then ret err else flush r) ;;
    log (EvWritePacket r p (negb (failed err))) ;;
    closeOnErr r err ;;
    ret err.

Definition Write (r : ConnRef) (payload : string) : M (option error) :=
  isClosed <- load r closed true ;;
  if isClosed then
    log (EvWrite r payload false) ;;
    ret (Some ErrClosedConn)
  else
    ok <- transport r ;;                                 (* encoder.Write *)
    (if ok then update r (fun c => set_writeBuf (writeBuf c ++ [PRaw payload]) c) else ret tt) ;;
    err <- (if ok then flush r else ret (Some ErrTransport)) ;;
    log (EvWrite r payload (negb (failed err))) ;;
    closeOnErr r err ;;
    ret err.

(** Closes the connection after writing the packet. *)
Definition closeWith (r : ConnRef) (p : Packet) : M (option error) :=
  isClosed <- load r closed true ;;
  if isClosed then ret (Some ErrClosedConn)
  else
    update r (set_knownDisconnect true) ;;
    _ <- WritePacket r p ;;
    close r.

(** ** Time

    An instant is its wall-clock reading in nanoseconds since the Unix
    epoch; a [time.Duration] is an int64 count of nanoseconds. *)

Definition wrap64 (z : Z) : Z := (z + 2 ^ 63) mod 2 ^ 64 - 2 ^ 63.

Module time.
Definition Time := Z.
Definition Millisecond : Z := 1000000.
Definition minDuration : Z := - 2 ^ 63.
Definition maxDuration : Z := 2 ^ 63 - 1.
Definition Unix (sec nsec : Z) : Time := sec * 1000000000 + nsec.
(** [t.Nanosecond()]: the nanosecond offset within the second. *)
Definition Nanosecond (t : Time) : Z := t mod 1000000000.
(** [t.Sub(u)]: the difference, saturated to the range of a Duration. *)
Definition Sub (t u : Time) : Z :=
  Z.max minDuration (Z.min maxDuration (t - u)).
Definition Since (now u : Time) : Z := Sub now u.
End time.

(** ** Packages outside the sources *)

(** Functions of packages [plugin] and [forge] that the session core
    calls; their code is not among the sources, so the development is
    parametric in them. *)
Class PluginPackage := {
  plugin_Register : Message -> bool;
  plugin_Unregister : Message -> bool;
  plugin_LegacyRegister : Message -> bool;
  plugin_LegacyUnregister : Message -> bool;
  plugin_McBrand : Message -> bool;
  plugin_Channels : Message -> list string;
  plugin_RewriteMinecraftBrand : Message -> Protocol -> Message;
  plugin_ConstructChannelsPacket : Protocol -> list string -> Message;
  forge_LegacyHandshakeChannel : string
}.

(** The helpers that split a command line, equally outside the sources. *)
Class CommandParsing := {
  trimSpaces : string -> string;
  extract : string -> string * list string * bool
}.

Module strings.
Definition HasPrefix (s pre : string) : bool := String.prefix pre s.
Definition TrimPrefix (s pre : string) : string :=
  if String.prefix pre s
  then String.substring (String.length pre) (String.length s - String.length pre) s
  else s.
End strings.

(** [sets.String] *)
Module sets.
Definition Insert (s : gset string) (items : list string) : gset string :=
  s ∪ list_to_set items.
Definition Delete (s : gset string) (items : list string) : gset string :=
  s ∖ list_to_set items.
Definition Has (s : gset string) (item : string) : bool :=
  bool_decide (item ∈ s).
Definition UnsortedList (s : gset string) : list string := elements s.
End sets.

(** What a Go function that may hit a fatal runtime error hands back. *)
Inductive outcome := Returned | Fatal (msg : string).

Section Session.

Context {pluginPkg : PluginPackage} {commandPkg : CommandParsing}.

(** ** serverConnection accessors *)

Definition serverField {A} (s : nat) (f : serverConnection -> A) (dflt : A) : M A :=
  gets (fun w => match servers w !! s with Some sc => f sc | None => dflt end).

(** [serverConn.conn()]: the backend connection, nil until connected. *)
Definition sc_conn (s : nat) : M (option ConnRef) :=
  gets (fun w => match getConn (BackendConn s) w with
                 | Some _ => Some (BackendConn s)
                 | None => None
                 end).

Definition sc_phase_of (s : nat) : M backendConnectionPhase :=
  serverField s sc_phase (mkBackendPhase false false).

(** Modelled from the spec: [serverConnection.ensureConnected] is not among
    the sources; the backend connection is nullable until connected, and
    the method answers it together with whether there is one. *)
Definition ensureConnected (s : nat) : M (option ConnRef) := sc_conn s.

(** Modelled from the spec: [serverConnection.completeJoin] is not among the
    sources; it promotes the server connection to the player's current
    server. *)
Definition completeJoin (s : nat) : M unit :=
  log (EvCompleteJoin s) ;;
  modify (fun w => set_player (set_connectedServer_ (Some s) (player w)) w).

(** ** connectedPlayer *)

Definition connectedServer : M (option nat) :=
  gets (fun w => connectedServer_ (player w)).

Definition connectionInFlight : M (option nat) :=
  gets (fun w => connInFlight (player w)).

Definition phase : M clientConnectionPhase :=
  gets (fun w => connPhase (player w)).

Definition Active : M bool :=
  isClosed <- load ClientConn closed true ;;
  ret (negb isClosed).

Definition ensureBackendConnection : M (option ConnRef) :=
  server <- connectedServer ;;
  match server with
  | None => ret None                        (* no backend connection *)
  | Some s => sc_conn s                     (* nil: not yet connected *)
  end.

Definition SpoofChatInput (input : string) : M (option error) :=
  if (packet.MaxServerBoundMessageLength <? String.length input)%nat then
    ret (Some ErrTooLongChatMessage)
  else
    serverMc <- ensureBackendConnection ;;
    match serverMc with
    | None => ret (Some ErrNoBackendConnection)
    | Some serverMc =>
        WritePacket serverMc (PChat (mkChat input ChatMessage uuid.Nil))
    end.

(** [knownChannels]: the set, read under the read lock (taken and
    released around the read). *)
Definition knownChannels : M (gset string) :=
  gets (fun w => pluginChannels (player w)).

(** [lockedKnownChannels]: as written it releases a read lock first and
    takes one back afterwards.  [RUnlock] on a mutex no reader holds is a
    fatal runtime error. *)
Definition lockedKnownChannels (fn : gset string -> gset string) : M outcome := fun w =>
  match pluginChannelsMu (player w) with
  | O => (Fatal "sync: RUnlock of unlocked RWMutex", w)
  | S readers =>
      let p1 := set_pluginChannelsMu readers (player w) in       (* RUnlock *)
      let p2 := set_pluginChannels (fn (pluginChannels p1)) p1 in
      let p3 := set_pluginChannelsMu (S readers) p2 in           (* deferred RLock *)
      (Returned, set_player p3 w)
  end.

Definition canForwardPluginMessage (protocol : Protocol) (message : Message) : M bool :=
  let minecraftOrFmlMessage :=
    if protocol <=? proto.Minecraft_1_12_2 then
      let channel := Channel message in
      strings.HasPrefix channel "MC|" ||
      strings.HasPrefix channel forge_LegacyHandshakeChannel ||
      plugin_LegacyRegister message || plugin_LegacyUnregister message
    else
      strings.HasPrefix (Channel message) "minecraft:" in
  if minecraftOrFmlMessage then ret true
  else
    known <- knownChannels ;;
    ret (sets.Has known (Channel message)).

Definition setSettings (s : handle) : M unit :=
  modify (fun w => set_player (set_settings (Some s) (player w)) w) ;;
  _ <- fire (PlayerSettingsChangedEvent s) ;;
  ret tt.

(** ** clientPlaySessionHandler *)

Definition canForward : M (option ConnRef) :=
  serverConn <- connectedServer ;;
  match serverConn with
  | None => ret None
  | Some s =>
      serverMc <- sc_conn s ;;
      ph <- sc_phase_of s ;;
      match serverMc with
      | Some mc => if bp_consideredComplete ph then ret (Some mc) else ret None
      | None => ret None
      end
  end.

Definition forwardToServer (p : Packet) : M unit :=
  serverMc <- canForward ;;
  match serverMc with
  | Some mc => _ <- WritePacket mc p ;; ret tt
  | None => ret tt
  end.

Definition handleUnknownPacket (payload : string) : M unit :=
  serverMc <- canForward ;;
  match serverMc with
  | Some mc => _ <- Write mc payload ;; ret tt
  | None => ret tt
  end.

Definition deactivated : M unit :=
  modify (fun w => set_handler (mkHandler (spawned (handler w)) []) w).


(** [handleKeepAlive]; [now] is what [time.Since] reads from the clock and
    [now'] what the later [time.Now()] reads. *)
Definition handleKeepAlive (p : KeepAlive) (now now' : time.Time) : M unit :=
  serverConn <- connectedServer ;;
  match serverConn with
  | None => ret tt
  | Some s =>
      lastId <- serverField s lastPingId 0 ;;
      if RandomId p =? lastId then
        serverMc <- sc_conn s ;;
        match serverMc with
        | None => ret tt
        | Some mc =>
            sent <- serverField s lastPingSent 0 ;;
            let lastPingSent := time.Unix 0 (wrap64 (sent * time.Millisecond)) in
            modify (fun w => set_player (set_ping (time.Since now lastPingSent) (player w)) w) ;;
            err <- WritePacket mc (PKeepAlive p) ;;
            if negb (failed err) then
              modify (fun w =>
                match servers w !! s with
                | Some sc =>
                    set_servers
                      (<[s := set_lastPingSent (time.Nanosecond now' / time.Millisecond) sc]>
                         (servers w)) w
                | None => w
                end)
            else ret tt
        end
      else ret tt
  end.

(** Modelled from the spec: [phase().handle(target, msg)] belongs to the
    Forge phases, which are not among the sources; the call is recorded and
    the phase answers whether it took the message. *)
Definition phaseHandle (ph : clientConnectionPhase) (target : nat) (m : Message) : M bool :=
  log (EvPhaseHandle target m) ;;
  ret (cp_handle ph m).

Definition handlePluginMessage (pk : Message) : M outcome :=
  serverConn <- connectedServer ;;
  backendConn <- (match serverConn with
                  | Some s => sc_conn s
                  | None => ret None
                  end) ;;
  match serverConn, backendConn with
  | Some s, Some mc =>
      st <- load mc state Handshake ;;
      match st with
      | Play =>
          if plugin_Register pk then
            err <- WritePacket mc (PPluginMessage pk) ;;
            if failed err then                              (* != nil *)
              lockedKnownChannels (fun known => sets.Insert known (plugin_Channels pk))
            else ret Returned
          else if plugin_Unregister pk then
            err <- WritePacket mc (PPluginMessage pk) ;;
            if failed err then                              (* != nil *)
              lockedKnownChannels (fun known => sets.Delete known (plugin_Channels pk))
            else ret Returned
          else if plugin_McBrand pk then
            version <- load ClientConn protocol 0 ;;
            _ <- WritePacket mc (PPluginMessage (plugin_RewriteMinecraftBrand pk version)) ;;
            ret Returned
          else
            serverConnPhase <- sc_phase_of s ;;
            if bp_inTransition serverConnPhase then
              inFlight <- connectionInFlight ;;
              match inFlight with
              | Some f =>
                  ph <- phase ;;
                  _ <- phaseHandle ph f pk ;;
                  ret Returned
              | None => ret Returned
              end
            else
              playerPhase <- phase ;;
              handled <- phaseHandle playerPhase s pk ;;
              if handled then ret Returned
              else if cp_consideredComplete playerPhase && bp_consideredComplete serverConnPhase then
                id <- gets (fun w => channelFromId (proxy w) (Channel pk)) ;;
                match id with
                | None =>
                    _ <- WritePacket mc (PPluginMessage pk) ;;
                    ret Returned
                | Some id =>
                    let clone := Data pk in
                    allowed <- fire (PluginMessageEvent s id clone) ;;
                    (if allowed then
                       _ <- WritePacket mc (PPluginMessage (mkMessage (Channel pk) clone)) ;;
                       ret tt
                     else ret tt) ;;
                    ret Returned
                end
              else
                modify (fun w =>
                  set_handler (mkHandler (spawned (handler w))
                                 (loginPluginMessages (handler w) ++ [pk])) w) ;;
                ret Returned
      | _ => ret Returned     (* warning logged, packet discarded *)
      end
  | _, _ => ret Returned
  end.

Definition handleChat (p : Chat) : M unit :=
  serverConn <- connectedServer ;;
  match serverConn with
  | None => ret tt
  | Some s =>
      serverMc <- sc_conn s ;;
      match serverMc with
      | None => ret tt
      | Some mc =>
          forward <-
            (if strings.HasPrefix (chat_Message p) "/" then
               let commandline := trimSpaces (strings.TrimPrefix (chat_Message p) "/") in
               allowed <- fire (CommandExecuteEvent commandline) ;;
               active <- Active ;;
               if negb allowed || negb active then ret false
               else
                 let '(cmd, args, _) := extract commandline in
                 has <- gets (fun w => commandHas (proxy w) cmd) ;;
                 if has then
                   log (EvInvoke cmd args) ;;
                   ret false
                 else ret true       (* not a proxy command: forward *)
             else
               allowed <- fire (PlayerChatEvent (chat_Message p)) ;;
               active <- Active ;;
               if negb allowed || negb active then ret false
               else ret true) ;;
          if forward then
            _ <- WritePacket mc (PChat (mkChat (chat_Message p) ChatMessage uuid.Nil)) ;;
            ret tt
          else ret tt
      end
  end.

(** *** The server-switch ceremony *)

(** [spawned.CAS(false, true)] *)
Definition spawned_CAS : M bool := fun w =>
  if spawned (handler w) then (false, w)
  else (true, set_handler (mkHandler true (loginPluginMessages (handler w))) w).

(** Modelled from the spec: [phase().onFirstJoin(player)] belongs to the
    Forge phases, which are not among the sources; that it was invoked is
    recorded. *)
Definition onFirstJoin : M unit := log EvOnFirstJoin.

(** The Respawn built from a JoinGame; its Dimension is left at the zero
    value by the literal. *)
Definition respawnOf (joinGame : JoinGame) : Respawn :=
  {| rs_Dimension := 0;
     rs_PartialHashedSeed := jg_PartialHashedSeed joinGame;
     rs_Difficulty := jg_Difficulty joinGame;
     rs_Gamemode := jg_Gamemode joinGame;
     rs_LevelType := match jg_LevelType joinGame with
                     | Some levelType => levelType
                     | None => ""
                     end;
     rs_ShouldKeepPlayerData := false;
     rs_DimensionInfo := jg_DimensionInfo joinGame;
     rs_PreviousGamemode := jg_PreviousGamemode joinGame;
     rs_CurrentDimensionData := jg_CurrentDimensionData joinGame |}.

(** The stages below answer [true] to go on and [false] where the source
    returns false. *)

(** First JoinGame of the player: the JoinGame alone, then the Forge hook. *)
Definition firstJoin (joinGame : JoinGame) : M bool :=
  err <- BufferPacket ClientConn (PJoinGame joinGame) ;;
  if failed err then ret false
  else
    onFirstJoin ;;
    ret true.

(** A later JoinGame: the JoinGame, then one or two Respawns. *)
Definition switchJoin (joinGame : JoinGame) (playerVersion : Protocol) : M bool :=
  err <- BufferPacket ClientConn (PJoinGame joinGame) ;;
  if failed err then ret false
  else
    let respawn := respawnOf joinGame in
    step <-
      (if proto.Lower playerVersion proto.Minecraft_1_16 then
         let respawn :=
           if jg_Dimension joinGame =? 0 then set_rs_Dimension (-1) respawn else respawn in
         err <- BufferPacket ClientConn (PRespawn respawn) ;;
         ret (negb (failed err), respawn)
       else ret (true, respawn)) ;;
    let '(ok, respawn) := step in
    if negb ok then ret false
    else
      let respawn := set_rs_Dimension (jg_Dimension joinGame) respawn in
      err <- BufferPacket ClientConn (PRespawn respawn) ;;
      ret (negb (failed err)).

(** Tell the server about this client's plugin message channels. *)
Definition sendKnownChannels (serverMc : ConnRef) : M bool :=
  serverVersion <- load serverMc protocol 0 ;;
  known <- knownChannels ;;
  let playerKnownChannels := sets.UnsortedList known in
  if negb (Nat.eqb (length playerKnownChannels) 0) then
    let channelsPacket := plugin_ConstructChannelsPacket serverVersion playerKnownChannels in
    err <- BufferPacket serverMc (PPluginMessage channelsPacket) ;;
    ret (negb (failed err))
  else ret true.

(** The loop over the queue of login plugin messages: each one is popped
    from the front and buffered to the server. *)
Fixpoint drainLoginPluginMessages (serverMc : ConnRef) (queue : list Message) : M bool :=
  match queue with
  | [] => ret true
  | pm :: rest =>
      modify (fun w => set_handler (mkHandler (spawned (handler w)) rest) w) ;;  (* PopFront *)
      err <- BufferPacket serverMc (PPluginMessage pm) ;;
      if failed err then ret false
      else drainLoginPluginMessages serverMc rest
  end.

(** Clear any title from the previous server. *)
Definition resetTitle (playerVersion : Protocol) : M bool :=
  if proto.GreaterEqual playerVersion proto.Minecraft_1_8 then
    err <- BufferPacket ClientConn (PResetTitle playerVersion) ;;
    ret (negb (failed err))
  else ret true.

(** Flush everything: the player's connection first, the server's only
    when that went well. *)
Definition flushBoth (serverMc : ConnRef) : M bool :=
  err <- flush ClientConn ;;
  if failed err then ret false
  else
    err <- flush serverMc ;;
    ret (negb (failed err)).

Definition handleBackendJoinGame (joinGame : JoinGame) (destination : nat) : M bool :=
  serverMc <- ensureConnected destination ;;
  match serverMc with
  | None => ret false
  | Some serverMc =>
      playerVersion <- load ClientConn protocol 0 ;;
      first <- spawned_CAS ;;
      joined <- (if first then firstJoin joinGame
                 else switchJoin joinGame playerVersion) ;;
      if negb joined then ret false else
      sent <- sendKnownChannels serverMc ;;
      if negb sent then ret false else
      queue <- gets (fun w => loginPluginMessages (handler w)) ;;
      drained <- drainLoginPluginMessages serverMc queue ;;
      if negb drained then ret false else
      cleared <- resetTitle playerVersion ;;
      if negb cleared then ret false else
      flushed <- flushBoth serverMc ;;
      if negb flushed then ret false else
      completeJoin destination ;;
      ret true
  end.

(** *** Dispatch *)

Definition handlePacket (pack : Packet) (now now' : time.Time) : M outcome :=
  match pack with
  | PKeepAlive p => handleKeepAlive p now now' ;; ret Returned
  | PChat p => handleChat p ;; ret Returned
  | PPluginMessage p => handlePluginMessage p
  | PClientSettings s =>
      setSettings s ;;
      forwardToServer pack ;;
      ret Returned
  | _ => forwardToServer pack ;; ret Returned
  end.

End Session.

(** * Concrete packages and worlds

    One implementation of the outside packages and a family of concrete
    worlds, on which the properties below are exercised. *)

Fixpoint splitOn (sep : ascii) (s cur : string) : list string :=
  match s with
  | EmptyString => [cur]
  | String c rest =>
      if Ascii.eqb c sep then cur :: splitOn sep rest ""
      else splitOn sep rest (cur ++ String c "")
  end.

Definition nonEmpty (s : string) : bool :=
  match s with EmptyString => false | _ => true end.

Definition fields (s : string) : list string :=
  List.filter nonEmpty (splitOn " "%char s "").

Definition NUL : ascii := Ascii.zero.

(** Modelled from the spec: package [plugin] is not among the sources.
    Register and Unregister are the channels REGISTER and UNREGISTER, or
    MC|Register and MC|UnRegister in legacy form; the payload is a
    NUL-separated channel list; the brand channels are MC|Brand and
    minecraft:brand, and the brand is rewritten by appending the proxy's
    name. *)
#[export] Instance specPlugin : PluginPackage := {|
  plugin_Register m := String.eqb (Channel m) "REGISTER" || String.eqb (Channel m) "MC|Register";
  plugin_Unregister m := String.eqb (Channel m) "UNREGISTER" || String.eqb (Channel m) "MC|UnRegister";
  plugin_LegacyRegister m := String.eqb (Channel m) "MC|Register";
  plugin_LegacyUnregister m := String.eqb (Channel m) "MC|UnRegister";
  plugin_McBrand m := String.eqb (Channel m) "MC|Brand" || String.eqb (Channel m) "minecraft:brand";
  plugin_Channels m := List.filter nonEmpty (splitOn NUL (Data m) "");
  plugin_RewriteMinecraftBrand m _ := mkMessage (Channel m) (Data m ++ " (via Gate)");
  plugin_ConstructChannelsPacket v channels :=
    mkMessage (if proto.Minecraft_1_13 <=? v then "REGISTER" else "MC|Register")
      (String.concat (String NUL "") channels);
  forge_LegacyHandshakeChannel := "FML|HS"
|}.

(** Modelled from the spec: the command helpers are not among the sources;
    a command line is split into its name and its arguments at spaces. *)
#[export] Instance specCommands : CommandParsing := {|
  trimSpaces s := String.concat " " (fields s);
  extract s := match fields s with
               | [] => ("", [], false)
               | cmd :: args => (cmd, args, true)
               end
|}.

(** A connection in Play state with a session handler installed. *)
Definition playConn (v : Protocol) (sh : sessionHandler) (faults : list bool) : minecraftConn :=
  mkConn v Play (Some sh) false false false 0 false [] [] faults.

Definition vanillaClientPhase : clientConnectionPhase := mkClientPhase (fun _ => false) true.
Definition vanillaBackendPhase : backendConnectionPhase := mkBackendPhase false true.

(** A proxy with one registered player, no commands, no registered
    channels and subscribers that allow every event. *)
Definition plainProxy (ids : list UUID) : Proxy :=
  mkProxy ids (fun _ => true) (fun _ => false) (fun _ => None) (fun _ => ∅).

(** A backend the player is connected to. *)
Definition backend (v : Protocol) (pingId pingSent : Z) (faults : list bool) : serverConnection :=
  mkServerConn (Some (playConn v (OtherHandler "backendPlay") faults))
    vanillaBackendPhase pingId pingSent.

(** A server connection that has no backend connection yet. *)
Definition unconnected (pingId : Z) : serverConnection :=
  mkServerConn None vanillaBackendPhase pingId 0.

(** The world of a player on protocol [v] whose servers are [srvs], with
    [current] the server it is on. *)
Definition worldOf (v : Protocol) (clientFaults : list bool) (known : gset string)
    (current inFlight : option nat) (srvs : list serverConnection)
    (hasSpawned : bool) (queue : list Message) : World :=
  mkWorld
    (mkPlayer (playConn v ClientPlayHandler clientFaults) 1%N (-1) false 0 known
       current inFlight None vanillaClientPhase)
    (mkHandler hasSpawned queue)
    srvs
    (plainProxy [1%N])
    [].

(** The same world with [readers] goroutines holding the read lock of the
    known channels. *)
Definition withReaders (readers : nat) (w : World) : World :=
  set_player (set_pluginChannelsMu readers (player w)) w.

(** A player on 1.16 connected to one healthy backend whose last ping id
    is 7; [faults] scripts the backend's transport. *)
Definition onBackend (faults : list bool) (pingSent : Z) : World :=
  worldOf proto.Minecraft_1_16 [] ∅ (Some 0%nat) None
    [backend proto.Minecraft_1_16 7 pingSent faults] true [].

(** The same player, whose server connection has no backend connection. *)
Definition onUnconnected : World :=
  worldOf proto.Minecraft_1_16 [] ∅ (Some 0%nat) None [unconnected 7] true [].

(** A player on protocol [v] on backend 0, switching to backend 1. *)
Definition switching (v : Protocol) (hasSpawned : bool) : World :=
  worldOf v [] ∅ (Some 0%nat) (Some 1%nat)
    [backend v 7 0 []; backend v 0 0 []] hasSpawned [].

(** A player on protocol [v] that joins its first backend. *)
Definition joining (v : Protocol) : World :=
  worldOf v [] ∅ None (Some 0%nat) [backend v 0 0 []] false [].

Definition overworld : JoinGame :=
  mkJoinGame 0 0 57005 2 (Some "default") 1%N 2%N 0.

(** The nether on a 1.16 server: the second boundary case. *)
Definition nether : JoinGame :=
  mkJoinGame 0 2 57005 2 None 1%N 2%N 0.

(** The same switch over a client transport whose second call fails: the
    first Respawn cannot be buffered. *)
Definition failingSwitch : World :=
  worldOf proto.Minecraft_1_15_2 [true; false] ∅ (Some 0%nat) (Some 1%nat)
    [backend proto.Minecraft_1_15_2 7 0 []; backend proto.Minecraft_1_15_2 0 0 []]
    true [].

(** The worlds after the ceremony. *)
Definition switched : World :=
  snd (handleBackendJoinGame overworld 1 (switching proto.Minecraft_1_15_2 true)).
Definition switchedModern : World :=
  snd (handleBackendJoinGame nether 1 (switching proto.Minecraft_1_16 true)).
Definition joined : World :=
  snd (handleBackendJoinGame overworld 0 (joining proto.Minecraft_1_15_2)).

(** Plugin messages from a backend. *)
Definition brandMessage : Message := mkMessage "MC|Brand" "vanilla".
Definition telemetryMessage : Message := mkMessage "acme:telemetry" "x".

Fixpoint repeatChar (c : ascii) (n : nat) : string :=
  match n with
  | O => EmptyString
  | S n => String c (repeatChar c n)
  end.

(** A chat message of 257 characters. *)
Definition longMessage : string := repeatChar "a"%char 257.

Definition registerMessage : Message := mkMessage "REGISTER" "acme:chat".
Definition unregisterMessage : Message := mkMessage "UNREGISTER" "acme:chat".

(** The player on a healthy backend, with acme:chat among its known
    channels. *)
Definition knowingChannel (faults : list bool) : World :=
  worldOf proto.Minecraft_1_16 [] {["acme:chat"]} (Some 0%nat) None
    [backend proto.Minecraft_1_16 7 0 faults] true [].

(** An instant: 2020-09-13T12:26:40.123456789Z, in nanoseconds. *)
Definition someInstant : time.Time := 1600000000123456789.

(** * Vocabulary of the properties *)

(** The events a run has added to the trace. *)
Definition events_since (w w' : World) : list Event :=
  drop (length (trace w)) (trace w').

(** A BufferPacket or flush call and whether it went well. *)
Definition is_io (e : Event) : bool :=
  match e with
  | EvBufferPacket _ _ _ | EvFlush _ _ => true
  | _ => false
  end.

Definition io_ok (e : Event) : bool :=
  match e with
  | EvBufferPacket _ _ ok | EvFlush _ ok => ok
  | _ => true
  end.

(** The same call, failing. *)
Definition fail (e : Event) : Event :=
  match e with
  | EvBufferPacket r p _ => EvBufferPacket r p false
  | EvFlush r _ => EvFlush r false
  | _ => e
  end.

(** What closing a connection adds to the trace. *)
Definition closing (e : Event) : bool :=
  match e with
  | EvDisconnected _ | EvLogDisconnected | EvServerDisconnect _
  | EvFire (DisconnectEvent _) => true
  | _ => false
  end.

(** [run_of plan ok evs]: a function that sets out to perform the calls
    of [plan] one after the other, and returns at the first one that
    fails, has left [evs] in the trace.  A failing call closes its
    connection, which leaves closing events behind it. *)
Inductive run_of : list Event -> bool -> list Event -> Prop :=
| run_done : run_of [] true []
| run_step e plan ok evs :
    run_of plan ok evs -> run_of (e :: plan) ok (e :: evs)
| run_fail e plan post :
    is_io e = true -> forallb closing post = true ->
    run_of (e :: plan) false (fail e :: post).

(** The packets that BufferPacket accepted for connection [r]. *)
Fixpoint buffered (r : ConnRef) (evs : list Event) : list Packet :=
  match evs with
  | [] => []
  | EvBufferPacket r' p true :: rest =>
      match r, r' with
      | ClientConn, ClientConn => p :: buffered r rest
      | BackendConn s, BackendConn s' =>
          if Nat.eqb s s' then p :: buffered r rest else buffered r rest
      | _, _ => buffered r rest
      end
  | _ :: rest => buffered r rest
  end.

(** The packets handed to BufferPacket for connection [r], accepted or not. *)
Fixpoint offered (r : ConnRef) (evs : list Event) : list Packet :=
  match evs with
  | [] => []
  | EvBufferPacket r' p _ :: rest =>
      match r, r' with
      | ClientConn, ClientConn => p :: offered r rest
      | BackendConn s, BackendConn s' =>
          if Nat.eqb s s' then p :: offered r rest else offered r rest
      | _, _ => offered r rest
      end
  | _ :: rest => offered r rest
  end.

Definition isCompleteJoin (e : Event) : bool :=
  match e with EvCompleteJoin _ => true | _ => false end.

Definition isOnFirstJoin (e : Event) : bool :=
  match e with EvOnFirstJoin => true | _ => false end.

Definition isRespawn (p : Packet) : bool :=
  match p with PRespawn _ => true | _ => false end.

Definition refEqb (r r' : ConnRef) : bool :=
  match r, r' with
  | ClientConn, ClientConn => true
  | BackendConn s, BackendConn s' => Nat.eqb s s'
  | _, _ => false
  end.

(** How often [disconnected()] fired on the handler of connection [r]. *)
Fixpoint disconnectedCount (r : ConnRef) (evs : list Event) : nat :=
  match evs with
  | [] => 0%nat
  | EvDisconnected r' :: rest =>
      if refEqb r r' then S (disconnectedCount r rest) else disconnectedCount r rest
  | _ :: rest => disconnectedCount r rest
  end.

(** A world with everything erased that writing to and closing
    connections may change: the contents of the connections, the trace
    and the registry of players. *)
Definition blankConn : minecraftConn := newMinecraftConn [].

Definition eraseServer (sc : serverConnection) : serverConnection :=
  set_connection (match connection sc with Some _ => Some blankConn | None => None end) sc.

Definition erase (w : World) : World :=
  mkWorld (set_conn blankConn (player w)) (handler w)
    (eraseServer <$> servers w) (set_registered [] (proxy w)) [].

(** The same, with the queue of login plugin messages erased as well. *)
Definition eraseQueue (w : World) : World :=
  set_handler (mkHandler (spawned (handler w)) []) (erase w).

(** What closing leaves of a connection that was open. *)
Definition closedConn (markKnown : bool) (c : minecraftConn) : minecraftConn :=
  mkConn (protocol c) (state c) (handler_ c) true true
    (markKnown || knownDisconnect c) (S (cancelCalls c)) true
    (writeBuf c) (wire c) (tl (script c)).

(** [connStep r c w c' w' evs]: a method of connection [r] has taken the
    world from [w], where the connection was [c], to [w'], where it is
    [c'], and has added [evs] to the trace.  Besides the connection, only
    the trace and the registry may differ; the close-once discipline is
    kept, and [disconnected()] has fired exactly when the connection went
    from open to closed with a handler installed. *)
Record connStep (r : ConnRef) (c : minecraftConn) (w : World)
    (c' : minecraftConn) (w' : World) (evs : list Event) : Prop := {
  cs_get : getConn r w' = Some c';
  cs_erase : erase w' = erase w;
  cs_trace : trace w' = trace w ++ evs;
  cs_handler : handler_ c' = handler_ c;
  cs_sync : closed c = closeOnce c -> closed c' = closeOnce c';
  cs_known : knownDisconnect c = true -> knownDisconnect c' = true;
  cs_once : closeOnce c = true -> closeOnce c' = true;
  cs_count :
    disconnectedCount r evs =
    if negb (closeOnce c) && closeOnce c'
    then match handler_ c with Some _ => 1%nat | None => 0%nat end
    else 0%nat
}.

(** The ceremony from the plugin channels on, as [handleBackendJoinGame]
    runs it once the JoinGame and the Respawns are buffered. *)
Definition ceremonyTail {pluginPkg : PluginPackage} (d : nat) (playerVersion : Protocol) : M bool :=
  sent <- sendKnownChannels (BackendConn d) ;;
  if negb sent then ret false else
  queue <- gets (fun w => loginPluginMessages (handler w)) ;;
  drained <- drainLoginPluginMessages (BackendConn d) queue ;;
  if negb drained then ret false else
  cleared <- resetTitle playerVersion ;;
  if negb cleared then ret false else
  flushed <- flushBoth (BackendConn d) ;;
  if negb flushed then ret false else
  completeJoin d ;;
  ret true.

(** The calls that the server-switch ceremony sets out to perform. *)
Definition joinPlan (first : bool) (joinGame : JoinGame) (v : Protocol) : list Event :=
  if first then
    [EvBufferPacket ClientConn (PJoinGame joinGame) true; EvOnFirstJoin]
  else
    EvBufferPacket ClientConn (PJoinGame joinGame) true ::
    (if proto.Lower v proto.Minecraft_1_16 then
       [EvBufferPacket ClientConn
          (PRespawn (if jg_Dimension joinGame =? 0
                     then set_rs_Dimension (-1) (respawnOf joinGame)
                     else respawnOf joinGame)) true]
     else []) ++
    [EvBufferPacket ClientConn
       (PRespawn (set_rs_Dimension (jg_Dimension joinGame) (respawnOf joinGame))) true].

Definition titlePlan (v : Protocol) : list Event :=
  if proto.GreaterEqual v proto.Minecraft_1_8
  then [EvBufferPacket ClientConn (PResetTitle v) true] else [].

(** The title reset that ends what the client is sent. *)
Definition resetTitlePackets (v : Protocol) : list Packet :=
  if proto.GreaterEqual v proto.Minecraft_1_8 then [PResetTitle v] else [].

(** A Respawn that mirrors a JoinGame, whatever its dimension. *)
Definition mirrors (r : Respawn) (joinGame : JoinGame) : Prop :=
  rs_ShouldKeepPlayerData r = false /\
  rs_Difficulty r = jg_Difficulty joinGame /\
  rs_Gamemode r = jg_Gamemode joinGame /\
  rs_PartialHashedSeed r = jg_PartialHashedSeed joinGame /\
  rs_LevelType r = default "" (jg_LevelType joinGame) /\
  rs_PreviousGamemode r = jg_PreviousGamemode joinGame /\
  rs_CurrentDimensionData r = jg_CurrentDimensionData joinGame.

Definition flushPlan (d : nat) : list Event :=
  [EvFlush ClientConn true; EvFlush (BackendConn d) true].

(** The calls towards the backend: plugin messages buffered to it. *)
Definition backendPlan (d : nat) (msgs : list Message) : list Event :=
  (fun m => EvBufferPacket (BackendConn d) (PPluginMessage m) true) <$> msgs.

Definition ceremonyPlan (first : bool) (joinGame : JoinGame) (v : Protocol)
    (d : nat) (msgs : list Message) : list Event :=
  joinPlan first joinGame v ++ backendPlan d msgs ++ titlePlan v ++ flushPlan d
  ++ [EvCompleteJoin d].

(** The login status that teardown reports, as the table of the
    specification gives it. *)
Definition statusTable (unregistered duplicate known : bool) : LoginStatus :=
  match unregistered, duplicate, known with
  | true, true, _ => ConflictingLoginStatus
  | true, false, _ => SuccessfulLoginStatus
  | false, _, true => CanceledByProxyLoginStatus
  | false, _, false => CanceledByUserLoginStatus
  end.

(** The calls that close a connection. *)
Inductive closeCall :=
| CallClose
| CallCloseKnown (markKnown : bool)
| CallCloseWith (p : Packet).

Definition doClose (r : ConnRef) (call : closeCall) : M (option error) :=
  match call with
  | CallClose => close r
  | CallCloseKnown markKnown => closeKnown r markKnown
  | CallCloseWith p => closeWith r p
  end.

Fixpoint doCloses (r : ConnRef) (calls : list closeCall) : M (list (option error)) :=
  match calls with
  | [] => ret []
  | call :: rest =>
      err <- doClose r call ;;
      errs <- doCloses r rest ;;
      ret (err :: errs)
  end.

(** The goodbye that a proxy-side disconnect sends, and the calls that
    follow it. *)
Definition goodbye : Packet := PDisconnect "bye".
Definition laterCloses : list closeCall := [CallClose; CallCloseKnown false].

(** * Further code of the connection, the player and the handler *)

(** ** minecraftConn *)

(** [BufferPayload]: a payload (packet id and data) into the write buffer. *)
Definition BufferPayload (r : ConnRef) (payload : string) : M (option error) :=
  isClosed <- load r closed true ;;
  if isClosed then
    log (EvBufferPacket r (PRaw payload) false) ;;
    ret (Some ErrClosedConn)
  else
    ok <- transport r ;;                                 (* encoder.Write *)
    (if ok then update r (fun c => set_writeBuf (writeBuf c ++ [PRaw payload]) c) else ret tt) ;;
    let err := if ok then None else Some ErrTransport in
    log (EvBufferPacket r (PRaw payload) ok) ;;
    closeOnErr r err ;;
    ret err.

(** The calls that write to a connection. *)
Inductive writeCall :=
| CallBufferPacket (p : Packet)
| CallBufferPayload (payload : string)
| CallFlush
| CallWritePacket (p : Packet)
| CallWrite (payload : string).

Definition doWrite (r : ConnRef) (call : writeCall) : M (option error) :=
  match call with
  | CallBufferPacket p => BufferPacket r p
  | CallBufferPayload payload => BufferPayload r payload
  | CallFlush => flush r
  | CallWritePacket p => WritePacket r p
  | CallWrite payload => Write r payload
  end.

Fixpoint doWrites (r : ConnRef) (calls : list writeCall) : M (list (option error)) :=
  match calls with
  | [] => ret []
  | call :: rest =>
      err <- doWrite r call ;;
      errs <- doWrites r rest ;;
      ret (err :: errs)
  end.

(** What a call hands to the encoder. *)
Definition encoded (call : writeCall) : list Packet :=
  match call with
  | CallBufferPacket p | CallWritePacket p => [p]
  | CallBufferPayload payload | CallWrite payload => [PRaw payload]
  | CallFlush => []
  end.

(** Does the call flush the buffer. *)
Definition flushes (call : writeCall) : bool :=
  match call with
  | CallFlush | CallWritePacket _ | CallWrite _ => true
  | _ => false
  end.

(** What a sequence of calls that all go well leaves in the buffer and
    puts on the wire, from a buffer [buf]. *)
Fixpoint pending (buf : list Packet) (calls : list writeCall) : list Packet :=
  match calls with
  | [] => buf
  | call :: rest =>
      pending (if flushes call then [] else buf ++ encoded call) rest
  end.

Fixpoint delivered (buf : list Packet) (calls : list writeCall) : list Packet :=
  match calls with
  | [] => []
  | call :: rest =>
      (if flushes call then buf ++ encoded call else [])
      ++ delivered (if flushes call then [] else buf ++ encoded call) rest
  end.

(** The login statuses of the DisconnectEvents in a trace. *)
Fixpoint disconnectStatuses (evs : list Event) : list LoginStatus :=
  match evs with
  | [] => []
  | EvFire (DisconnectEvent status) :: rest => status :: disconnectStatuses rest
  | _ :: rest => disconnectStatuses rest
  end.

(** ** connectedPlayer *)

(** [Disconnect]: the reason stands for the Disconnect packet built from it
    for the player's protocol.  The answer tells whether the line
    "<player> has disconnected: <reason>" was logged, which is when
    [closeWith] returned nil. *)
Definition Disconnect (reason : string) : M bool :=
  active <- Active ;;
  if negb active then ret false
  else
    err <- closeWith ClientConn (PDisconnect reason) ;;
    ret (negb (failed err)).

(** The world after [closeKnown] has run its once-only body on the open
    connection [c]. *)
Definition afterClose (r : ConnRef) (markKnown : bool) (c : minecraftConn) (w : World) : World :=
  let w1 := setConn r (closedConn markKnown c) w in
  match handler_ c with
  | None => w1
  | Some sh =>
      let w2 := snd (disconnected sh (set_trace (trace w1 ++ [EvDisconnected r]) w1)) in
      if hasPlayer sh && negb (markKnown || knownDisconnect c)
      then set_trace (trace w2 ++ [EvLogDisconnected]) w2
      else w2
  end.

(** The close-once state of a connection is coherent: the closed flag is
    set exactly when the once-only body has run, and then the socket is
    closed. *)
Definition coherent (c : minecraftConn) : Prop :=
  closed c = closeOnce c /\ sockClosed c = closeOnce c.

(** The io calls a write call makes when all go well, what it adds to the
    trace then, and the connection it leaves. *)
Definition transports (call : writeCall) : nat :=
  match call with
  | CallBufferPacket _ | CallBufferPayload _ => 1
  | CallFlush => 2
  | CallWritePacket _ | CallWrite _ => 3
  end.

Definition succeeded (r : ConnRef) (call : writeCall) : list Event :=
  match call with
  | CallBufferPacket p => [EvBufferPacket r p true]
  | CallBufferPayload payload => [EvBufferPacket r (PRaw payload) true]
  | CallFlush => [EvFlush r true]
  | CallWritePacket p => [EvBufferPacket r p true; EvFlush r true; EvWritePacket r p true]
  | CallWrite payload => [EvFlush r true; EvWrite r payload true]
  end.

Definition written (calls : list writeCall) (c : minecraftConn) : minecraftConn :=
  set_writeBuf (pending (writeBuf c) calls)
    (set_wire (wire c ++ delivered (writeBuf c) calls)
       (set_script (drop (sum_list (transports <$> calls)) (script c)) c)).

(** What a closed connection answers to a write call, and what the call
    adds to the trace. *)
Definition refusal (call : writeCall) : error :=
  match call with
  | CallFlush => ErrTransport                            (* SetWriteDeadline *)
  | _ => ErrClosedConn
  end.

Definition refused (r : ConnRef) (call : writeCall) : Event :=
  match call with
  | CallBufferPacket p => EvBufferPacket r p false
  | CallBufferPayload payload => EvBufferPacket r (PRaw payload) false
  | CallFlush => EvFlush r false
  | CallWritePacket p => EvWritePacket r p false
  | CallWrite payload => EvWrite r payload false
  end.

(** The events the write calls record of themselves, as against those of a
    close. *)
Definition quiet (e : Event) : bool :=
  match e with
  | EvBufferPacket _ _ _ | EvFlush _ _ | EvWritePacket _ _ _ | EvWrite _ _ _ => true
  | _ => false
  end.

(** What closing the player's connection adds to the trace in world [w],
    [known] being the knownDisconnect flag the close leaves. *)
Definition playerCloseEvents (known : bool) (w : World) : list Event :=
  EvDisconnected ClientConn
    :: from_option (fun s => [EvServerDisconnect s]) [] (connInFlight (player w))
    ++ from_option (fun s => [EvServerDisconnect s]) [] (connectedServer_ (player w))
    ++ [EvFire (DisconnectEvent
          (statusTable (bool_decide (profileId (player w) ∈ registered (proxy w)))
             (disconnectDueToDuplicateConnection (player w)) known))]
    ++ (if known then [] else [EvLogDisconnected]).

(** ** connectedPlayer.nextServerToTry *)

(** What [nextServerToTry] reads of the proxy: the forced hosts of the
    player's virtual host (none when the host has no entry), the
    connection order of the configuration, and the registry of servers by
    name. *)
Record tryConfig (RegisteredServer : Type) := mkTryConfig {
  ForcedHosts : list string;
  AttemptConnectionOrder : list string;
  Server : string -> option RegisteredServer
}.
Arguments ForcedHosts {_} _.
Arguments AttemptConnectionOrder {_} _.
Arguments Server {_} _ _.

(** The fields of the player the method works on. *)
Record tryState := mkTry {
  serversToTry : list string;
  tryIndex : nat
}.

(** The names the loop passes over: those of the connected server, of the
    connection in flight and of [current], each when there is one. *)
Definition passedOver (connected inFlight current : option string) (toTry : string) : bool :=
  from_option (fun name => String.eqb name toTry) false connected
  || from_option (fun name => String.eqb name toTry) false inFlight
  || from_option (fun name => String.eqb name toTry) false current.

(** The loop from index [i] over [rest], the servers from [i] on;
    [index] is the value of [tryIndex]. *)
Fixpoint tryFrom {RegisteredServer} (cfg : tryConfig RegisteredServer)
    (skip : string -> bool) (i : nat) (rest : list string) (index : nat)
    : option RegisteredServer * nat :=
  match rest with
  | [] => (None, index)
  | toTry :: rest =>
      if skip toTry then tryFrom cfg skip (S i) rest index       (* continue *)
      else
        match Server cfg toTry with                              (* p.tryIndex = i *)
        | Some s => (Some s, i)
        | None => tryFrom cfg skip (S i) rest i
        end
  end.

(** The list the loop walks: the player's own when it has one, else the
    forced hosts, else the connection order. *)
Definition seeded {RegisteredServer} (cfg : tryConfig RegisteredServer)
    (st : tryState) : list string :=
  let toTry :=
    if Nat.eqb (length (serversToTry st)) 0 then ForcedHosts cfg else serversToTry st in
  if Nat.eqb (length toTry) 0 then AttemptConnectionOrder cfg else toTry.

Definition nextServerToTry {RegisteredServer} (cfg : tryConfig RegisteredServer)
    (connected inFlight current : option string) (st : tryState)
    : option RegisteredServer * tryState :=
  let toTry := seeded cfg st in
  let '(found, index) :=
    tryFrom cfg (passedOver connected inFlight current)
      (tryIndex st) (drop (tryIndex st) toTry) (tryIndex st) in
  (found, mkTry toTry index).

(** ** Reading *)

(** What [handleReadErr] asks of a read error. *)
Record netOpError := mkOpError {
  op_Temporary : bool;
  op_Timeout : bool;
  op_ConnClosed : bool                     (* errs.IsConnClosedErr(netErr.Err) *)
}.

Record readError := mkReadError {
  asSilent : bool;                         (* errors.As(err, &silentErr) *)
  isEAGAIN : bool;                         (* errors.Is(err, syscall.EAGAIN) *)
  asOpError : option netOpError;           (* errors.As(err, &netErr) *)
  isUnrecoverable : bool                   (* io.EOF and the like *)
}.

Definition handleReadErr (err : readError) : bool :=
  if asSilent err then false
  else if isEAGAIN err then true
  else
    let decided :=
      match asOpError err with
      | Some netErr =>
          if op_Temporary netErr then Some true
          else if op_Timeout netErr then Some false
          else if op_ConnClosed netErr then Some false
          else None
      | None => None
      end in
    match decided with
    | Some recoverable => recoverable
    | None => if isUnrecoverable err then false else false
    end.

(** What [nextPacket] hands to [loop]; a failure is any error but
    [ErrDecoderLeftBytes], which [loop] ignores. *)
Inductive nextPacket :=
| ReadFailed (err : readError)
| ReadUnknown (payload : string)
| ReadKnown (pack : Packet).

(** What a run of [loop] comes to: its boolean, or the end of the process
    where the handler met a fatal runtime error. *)
Inductive loopResult :=
| LoopResult (again : bool)
| LoopFatal (msg : string).

Section Reading.

Context {pluginPkg : PluginPackage} {commandPkg : CommandParsing}.

(** ** clientPlaySessionHandler.flushQueuedMessages *)

(** The loop of [flushQueuedMessages]: each message is popped from the
    front and buffered to the server, whatever the buffering answers. *)
Fixpoint sendQueued (serverMc : ConnRef) (queue : list Message) : M unit :=
  match queue with
  | [] => ret tt
  | pm :: rest =>
      modify (fun w => set_handler (mkHandler (spawned (handler w)) rest) w) ;;  (* PopFront *)
      _ <- BufferPacket serverMc (PPluginMessage pm) ;;
      sendQueued serverMc rest
  end.

Definition flushQueuedMessages : M unit :=
  serverConn <- connectedServer ;;
  match serverConn with
  | None => ret tt
  | Some s =>
      serverMc <- ensureConnected s ;;
      match serverMc with
      | None => ret tt
      | Some serverMc =>
          queue <- gets (fun w => loginPluginMessages (handler w)) ;;
          sendQueued serverMc queue ;;
          _ <- flush serverMc ;;
          ret tt
      end
  end.

(** The write calls the loop of [flushQueuedMessages] makes for [queue]. *)
Definition queuedCalls (queue : list Message) : list writeCall :=
  (fun pm => CallBufferPacket (PPluginMessage pm)) <$> queue.

(** ** Reading the player's connection *)

(** [loop] on the player's connection.  Read deadlines, the debug log and
    the sleep before a retry leave no mark.  A connection without session
    handler makes the call panic, which the deferred [recover] turns into
    the zero result; handlers other than the client Play handler are
    outside the sources and are not followed. *)
Definition loop (next : nextPacket) (now now' : time.Time) : M loopResult :=
  match next with
  | ReadFailed err =>
      if handleReadErr err then ret (LoopResult true)    (* sleep briefly and try again *)
      else ret (LoopResult false)
  | ReadUnknown payload =>
      sh <- load ClientConn handler_ None ;;
      match sh with
      | Some ClientPlayHandler =>
          handleUnknownPacket payload ;;
          ret (LoopResult true)
      | Some (OtherHandler _) => ret (LoopResult true)
      | None => ret (LoopResult false)
      end
  | ReadKnown pack =>
      sh <- load ClientConn handler_ None ;;
      match sh with
      | Some ClientPlayHandler =>
          out <- handlePacket pack now now' ;;
          match out with
          | Returned => ret (LoopResult true)
          | Fatal msg => ret (LoopFatal msg)
          end
      | Some (OtherHandler _) => ret (LoopResult true)
      | None => ret (LoopResult false)
      end
  end.

(** What happens between two rounds of [readLoop]: the parent context is
    cancelled, the connection has a next packet or read error for [loop]
    (with the two readings of the clock a keep-alive takes), or another
    goroutine closes the connection meanwhile. *)
Inductive tick :=
| ParentDone
| Reads (next : nextPacket) (now now' : time.Time)
| Meanwhile (call : closeCall).

Inductive readLoopResult :=
| ReadLoopReturned
| ReadLoopRunning
| ReadLoopFatal (msg : string).

(** [readLoop] on the player's connection, over the rounds [ticks]; when
    they are used up the loop is still running.  The context is done once
    its parent is or [cancelFunc] was called, which [closeKnown] does.
    The [break] after a [loop] that answered false leaves the [select],
    not the [for]: the next round follows.  The deferred [closeKnown(false)]
    runs on return. *)
Fixpoint readLoop (ticks : list tick) : M readLoopResult :=
  cancelled <- load ClientConn (fun c => Nat.ltb 0 (cancelCalls c)) false ;;
  if cancelled then                                      (* <-ctx.Done() *)
    _ <- closeKnown ClientConn false ;;
    ret ReadLoopReturned
  else
    match ticks with
    | [] => ret ReadLoopRunning
    | ParentDone :: _ =>                                 (* <-ctx.Done() *)
        _ <- closeKnown ClientConn false ;;
        ret ReadLoopReturned
    | Reads next now now' :: rest =>
        result <- loop next now now' ;;
        match result with
        | LoopResult true => readLoop rest
        | LoopResult false => readLoop rest              (* break *)
        | LoopFatal msg => ret (ReadLoopFatal msg)
        end
    | Meanwhile call :: rest =>
        _ <- doClose ClientConn call ;;
        readLoop rest
    end.

End Reading.

(** A computation that leaves the player's own connection as it is. *)
Definition keepsClient {A} (m : M A) : Prop :=
  forall w, conn (player (snd (m w))) = conn (player w).

(** A computation that leaves the server connections as they are. *)
Definition keepsServers {A} (m : M A) : Prop :=
  forall w, servers (snd (m w)) = servers w.

(** ** Further concrete worlds *)

(** The connection of the backend of [onBackend]. *)
Definition backendPlay (faults : list bool) : minecraftConn :=
  playConn proto.Minecraft_1_16 (OtherHandler "backendPlay") faults.

Definition someWrites : list writeCall :=
  [CallBufferPacket (PChat (mkChat "hello" ChatMessage uuid.Nil));
   CallBufferPayload "raw";
   CallFlush;
   CallWritePacket (PKeepAlive (mkKeepAlive 7));
   CallBufferPacket (POther 9)].

(** The player of [onBackend] with two plugin messages queued. *)
Definition queueing : World :=
  worldOf proto.Minecraft_1_16 [] ∅ (Some 0%nat) None
    [backend proto.Minecraft_1_16 7 0 []] true [telemetryMessage; brandMessage].

(** A backend in the given phase, whose connection is in state [st]. *)
Definition backendIn (st : State) (ph : backendConnectionPhase) : serverConnection :=
  mkServerConn
    (Some (mkConn proto.Minecraft_1_16 st (Some (OtherHandler "backendPlay"))
             false false false 0 false [] [] []))
    ph 7 0.

(** The player on a backend that is still logging in, in transition to
    a second one, and on one whose join is not complete yet. *)
Definition loggingIn : World :=
  worldOf proto.Minecraft_1_16 [] ∅ (Some 0%nat) None
    [backendIn Login vanillaBackendPhase] true [].

Definition inTransition : World :=
  worldOf proto.Minecraft_1_16 [] ∅ (Some 0%nat) (Some 1%nat)
    [backendIn Play (mkBackendPhase true false); backendIn Play vanillaBackendPhase] true [].

Definition completing : World :=
  worldOf proto.Minecraft_1_16 [] ∅ (Some 0%nat) None
    [backendIn Play (mkBackendPhase false false)] true [brandMessage].

(** A proxy whose registrar has one channel, which has the command glist,
    and whose subscribers deny every chat message. *)
Definition busyProxy : Proxy :=
  mkProxy [1%N]
    (fun e => match e with PlayerChatEvent _ => false | _ => true end)
    (String.eqb "glist") (fun _ => None) (fun _ => {["acme:chat"]}).

Definition onBusyProxy : World := set_proxy busyProxy (onBackend [] 0).


(** Read errors: the end of the stream, and a timeout that says it is
    temporary. *)
Definition endOfStream : readError := mkReadError false false None true.
Definition temporaryTimeout : readError :=
  mkReadError false false (Some (mkOpError true true false)) false.

Definition failingReads : list tick :=
  [Reads (ReadFailed temporaryTimeout) someInstant someInstant;
   Reads (ReadFailed endOfStream) someInstant someInstant;
   Reads (ReadFailed endOfStream) someInstant someInstant].

(** The world of [onBackend] after the player's connection was closed. *)
Definition hungUp : World := snd (doClose ClientConn CallClose (onBackend [] 0)).

(** The player's connection in [onBackend]. *)
Definition clientPlay : minecraftConn :=
  playConn proto.Minecraft_1_16 ClientPlayHandler [].

(** The switch of [switching] for a player that knows a channel and has a
    message queued. *)
Definition switchingWithQueue : World :=
  worldOf proto.Minecraft_1_16 [] {["acme:chat"]} (Some 0%nat) (Some 1%nat)
    [backend proto.Minecraft_1_16 7 0 []; backend proto.Minecraft_1_16 0 0 []]
    true [telemetryMessage].

(** ** The ceremony and the transports *)

(** The write calls that a plan asks of connection [r], in order. *)
Fixpoint callsOf (r : ConnRef) (plan : list Event) : list writeCall :=
  match plan with
  | [] => []
  | EvBufferPacket r' p _ :: rest =>
      if refEqb r r' then CallBufferPacket p :: callsOf r rest else callsOf r rest
  | EvFlush r' _ :: rest =>
      if refEqb r r' then CallFlush :: callsOf r rest else callsOf r rest
  | _ :: rest => callsOf r rest
  end.

(** The transport under [c] serves every io call that [calls] make. *)
Definition serves (c : minecraftConn) (calls : list writeCall) : bool :=
  forallb id (take (sum_list (transports <$> calls)) (script c)).

(** The channels packet that the ceremony buffers to a destination on
    protocol [serverVersion]: none when the player knows no channel. *)
Definition channelsPackets {pluginPkg : PluginPackage} (w : World)
    (serverVersion : Protocol) : list Message :=
  let playerKnownChannels := sets.UnsortedList (pluginChannels (player w)) in
  if Nat.eqb (length playerKnownChannels) 0 then []
  else [plugin_ConstructChannelsPacket serverVersion playerKnownChannels].

(** The player's connection is [cC], that of destination [d] is [cB], and
    both are open. *)
Definition ready (d : nat) (cC cB : minecraftConn) (w : World) : Prop :=
  conn (player w) = cC /\ getConn (BackendConn d) w = Some cB /\
  coherent cC /\ closed cC = false /\ coherent cB /\ closed cB = false.

(** [f] run in [w] answers whether the two transports serve the calls of
    [plan], and then leaves the two connections as these calls do. *)
Definition performs (d : nat) (plan : list Event) (f : M bool) (w : World) : Prop :=
  forall cC cB, ready d cC cB w ->
    let ok := serves cC (callsOf ClientConn plan)
              && serves cB (callsOf (BackendConn d) plan) in
    fst (f w) = ok /\
    (ok = true ->
       ready d (written (callsOf ClientConn plan) cC)
         (written (callsOf (BackendConn d) plan) cB) (snd (f w))).

(** * Proofs *)

Ltac solve_in :=
  simpl; rewrite ?elem_of_app, ?elem_of_cons; auto 10.

Section Properties.
Context {pluginPkg : PluginPackage} {commandPkg : CommandParsing}.

(** ** The store of connections *)

Lemma set_script_id c : set_script (script c) c = c.
Proof. by destruct c. Qed.

Lemma setConn_id r c w : getConn r w = Some c -> setConn r c w = w.
Proof.
  destruct r as [|s]; simpl.
  - intros [= <-]. by destruct w as [[] ? ? ? ?].
  - destruct (servers w !! s) as [sc|] eqn:E; [|done].
    intros Hc. replace (set_connection (Some c) sc) with sc
      by (destruct sc; simpl in *; by subst).
    rewrite list_insert_id; [|done]. by destruct w.
Qed.

Lemma getConn_setConn r c0 c w :
  getConn r w = Some c0 -> getConn r (setConn r c w) = Some c.
Proof.
  destruct r as [|s]; simpl; [done|].
  destruct (servers w !! s) as [sc|] eqn:E; [|done]. intros _. simpl.
  rewrite list_lookup_insert_eq; [done|]. by eapply lookup_lt_Some.
Qed.

Lemma setConn_setConn r c0 c1 c2 w :
  getConn r w = Some c0 -> setConn r c2 (setConn r c1 w) = setConn r c2 w.
Proof.
  destruct r as [|s]; simpl; [done|].
  destruct (servers w !! s) as [sc|] eqn:E; [|done]. intros _. simpl.
  rewrite list_lookup_insert_eq; [|by eapply lookup_lt_Some].
  simpl. by rewrite list_insert_insert_eq.
Qed.

Lemma trace_setConn r c w : trace (setConn r c w) = trace w.
Proof. destruct r as [|s]; simpl; [done|]. by destruct (servers w !! s). Qed.

Lemma erase_setConn r c0 c w :
  getConn r w = Some c0 -> erase (setConn r c w) = erase w.
Proof.
  destruct r as [|s]; simpl; [done|].
  destruct (servers w !! s) as [sc|] eqn:E; [|done]. intros Hc.
  unfold erase; simpl. f_equal.
  rewrite list_fmap_insert. apply list_insert_id.
  rewrite list_lookup_fmap, E. simpl. f_equal.
  unfold eraseServer. simpl. by rewrite Hc.
Qed.


(** ** Elementary steps *)

Lemma update_eq r f w c :
  getConn r w = Some c -> update r f w = (tt, setConn r (f c) w).
Proof. intros H. unfold update, modify. by rewrite H. Qed.

Lemma load_eq {A} r (f : minecraftConn -> A) nil w c :
  getConn r w = Some c -> load r f nil w = (f c, w).
Proof. intros H. unfold load, gets. by rewrite H. Qed.

Lemma transport_eq r w c :
  getConn r w = Some c ->
  transport r w = (hd true (script c), setConn r (set_script (tl (script c)) c) w).
Proof.
  intros H. unfold transport. rewrite H. destruct (script c) eqn:E; simpl; [|done].
  f_equal. symmetry. rewrite <- E, set_script_id. by apply setConn_id.
Qed.

Lemma teardown_eq w :
  teardown w =
  (tt, set_trace
         (trace w
          ++ from_option (fun s => [EvServerDisconnect s]) [] (connInFlight (player w))
          ++ from_option (fun s => [EvServerDisconnect s]) [] (connectedServer_ (player w))
          ++ [EvFire (DisconnectEvent
                (statusTable (fst (unregisterConnection w))
                   (disconnectDueToDuplicateConnection (player w))
                   (knownDisconnect (conn (player w)))))])
         (snd (unregisterConnection w))).
Proof.
  unfold teardown, bind, gets, ret, serverDisconnect, fire, log, modify, unregisterConnection.
  destruct w as [p h sv px tr]; simpl.
  destruct (connInFlight p), (connectedServer_ p); simpl;
    rewrite <- ?app_assoc; simpl; f_equal; f_equal; repeat f_equal;
    by destruct (bool_decide _), (disconnectDueToDuplicateConnection p),
         (knownDisconnect (conn p)).
Qed.


Lemma getConn_set_trace r t w : getConn r (set_trace t w) = getConn r w.
Proof. by destruct r. Qed.

Lemma getConn_unregister r w : getConn r (snd (unregisterConnection w)) = getConn r w.
Proof. by destruct r. Qed.

Lemma getConn_set_proxy r p w : getConn r (set_proxy p w) = getConn r w.
Proof. by destruct r. Qed.

Lemma erase_set_trace t w : erase (set_trace t w) = erase w.
Proof. done. Qed.

Lemma erase_unregister w : erase (snd (unregisterConnection w)) = erase w.
Proof. done. Qed.

Lemma disconnectedCount_app r evs evs' :
  disconnectedCount r (evs ++ evs') = (disconnectedCount r evs + disconnectedCount r evs')%nat.
Proof.
  induction evs as [|e evs IH]; simpl; [done|].
  destruct e; simpl; try done. destruct (refEqb r c); simpl; by rewrite IH.
Qed.

Lemma refEqb_refl r : refEqb r r = true.
Proof. destruct r; simpl; [done|]. apply Nat.eqb_refl. Qed.

Lemma closeKnown_nil r mk w :
  getConn r w = None -> closeKnown r mk w = (Some ErrNilConn, w).
Proof. intros H. unfold closeKnown. by rewrite H. Qed.

Lemma closeKnown_closed r mk w c :
  getConn r w = Some c -> closeOnce c = true ->
  closeKnown r mk w = (Some ErrClosedConn, w).
Proof. intros H Ho. unfold closeKnown. by rewrite H, Ho. Qed.

Lemma closeKnown_open r mk w c :
  getConn r w = Some c -> closeOnce c = false ->
  exists err w' evs,
    closeKnown r mk w = (err, w') /\
    getConn r w' = Some (closedConn mk c) /\
    erase w' = erase w /\
    trace w' = trace w ++ evs /\
    forallb closing evs = true /\
    disconnectedCount r evs = (match handler_ c with Some _ => 1 | None => 0 end)%nat.
Proof.
  intros Hc Ho. unfold closeKnown. rewrite Hc, Ho.
  unfold bind at 1. erewrite update_eq by eassumption.
  unfold bind at 1.
  assert ((if mk then update r (set_knownDisconnect true) else ret ())
            (setConn r (set_closeOnce true c) w)
          = (tt, setConn r ((if mk then set_knownDisconnect true else id)
                              (set_closeOnce true c)) w)) as ->.
  { destruct mk.
    - erewrite update_eq by (by eapply getConn_setConn).
      by erewrite setConn_setConn by eassumption.
    - done. }
  unfold bind at 1. erewrite update_eq by (by eapply getConn_setConn).
  erewrite setConn_setConn by eassumption.
  unfold bind at 1. erewrite update_eq by (by eapply getConn_setConn).
  erewrite setConn_setConn by eassumption.
  unfold bind at 1. erewrite transport_eq by (by eapply getConn_setConn).
  erewrite setConn_setConn by eassumption.
  unfold bind at 1. erewrite update_eq by (by eapply getConn_setConn).
  erewrite setConn_setConn by eassumption.
  unfold bind at 1. erewrite load_eq by (by eapply getConn_setConn).
  match goal with |- context [setConn r ?c' w] =>
    replace c' with (closedConn mk c) by (by destruct mk, c) end.
  change (handler_ (closedConn mk c)) with (handler_ c).
  set (w1 := setConn r (closedConn mk c) w).
  assert (getConn r w1 = Some (closedConn mk c)) as H1 by (by eapply getConn_setConn).
  assert (erase w1 = erase w) as E1 by (by eapply erase_setConn).
  assert (trace w1 = trace w) as T1 by apply trace_setConn.
  clearbody w1.
  destruct (handler_ c) as [sh|]; unfold bind, ret; simpl.
  2:{ eexists _, _, []. rewrite app_nil_r. done. }
  destruct sh as [|name]; simpl.
  - rewrite teardown_eq. simpl.
    rewrite getConn_set_trace, getConn_set_proxy, getConn_set_trace, H1.
    set (tevs := from_option _ _ _ ++ _).
    assert (forallb closing tevs = true /\ disconnectedCount r tevs = 0%nat) as [Hq Hn].
    { subst tevs. by destruct (connInFlight (player w1)), (connectedServer_ (player w1)). }
    clearbody tevs.
    destruct (negb (knownDisconnect (closedConn mk c))); simpl.
    + eexists _, _, (EvDisconnected r :: tevs ++ [EvLogDisconnected]).
      split; [done|]. split; [by destruct r|]. split; [done|].
      rewrite T1, <- !app_assoc. split; [done|]. simpl.
      rewrite refEqb_refl, forallb_app, disconnectedCount_app, Hq, Hn. done.
    + eexists _, _, (EvDisconnected r :: tevs).
      split; [done|]. split; [by destruct r|]. split; [done|].
      rewrite T1, <- !app_assoc. split; [done|]. simpl.
      rewrite refEqb_refl, Hq, Hn. done.
  - eexists _, _, [EvDisconnected r].
    split; [done|]. rewrite getConn_set_trace. split; [done|]. split; [done|].
    simpl. rewrite T1, refEqb_refl. done.
Qed.


(** ** Steps of a connection *)

Lemma connStep_refl r c w : getConn r w = Some c -> connStep r c w c w [].
Proof.
  intros H. split; try done.
  - by rewrite app_nil_r.
  - simpl. by destruct (closeOnce c).
Qed.

Lemma connStep_trans r c w c1 w1 c2 w2 evs1 evs2 :
  connStep r c w c1 w1 evs1 -> connStep r c1 w1 c2 w2 evs2 ->
  connStep r c w c2 w2 (evs1 ++ evs2).
Proof.
  intros [G1 E1 T1 H1 S1 K1 O1 N1] [G2 E2 T2 H2 S2 K2 O2 N2]. split.
  - done.
  - congruence.
  - by rewrite T2, T1, app_assoc.
  - congruence.
  - auto.
  - auto.
  - auto.
  - rewrite disconnectedCount_app, N1, N2, H1.
    destruct (closeOnce c), (closeOnce c1), (closeOnce c2); simpl; try done;
      try (by specialize (O1 eq_refl)); try (by specialize (O2 eq_refl));
      by destruct (handler_ c).
Qed.

(** An update of the connection that leaves the close-once state alone. *)
Lemma connStep_set r c w c' :
  getConn r w = Some c ->
  handler_ c' = handler_ c -> closeOnce c' = closeOnce c -> closed c' = closed c ->
  (knownDisconnect c = true -> knownDisconnect c' = true) ->
  connStep r c w c' (setConn r c' w) [].
Proof.
  intros G H O C K. split.
  - by eapply getConn_setConn.
  - by eapply erase_setConn.
  - by rewrite trace_setConn, app_nil_r.
  - done.
  - congruence.
  - done.
  - congruence.
  - simpl. rewrite O. by destruct (closeOnce c).
Qed.

Lemma connStep_log r c w e :
  getConn r w = Some c -> disconnectedCount r [e] = 0%nat ->
  connStep r c w c (set_trace (trace w ++ [e]) w) [e].
Proof.
  intros G N. split; try done; try (by rewrite getConn_set_trace).
  rewrite N. by destruct (closeOnce c).
Qed.

Lemma connStep_closeKnown r mk c w :
  getConn r w = Some c ->
  exists c' evs,
    connStep r c w c' (snd (closeKnown r mk w)) evs /\
    closeOnce c' = true /\
    forallb closing evs = true /\
    (closeOnce c = false -> closed c' = true /\
       knownDisconnect c' = mk || knownDisconnect c) /\
    (closeOnce c = true ->
       closeKnown r mk w = (Some ErrClosedConn, w)).
Proof.
  intros G. destruct (closeOnce c) eqn:O.
  - rewrite (closeKnown_closed _ _ _ _ G O). exists c, []. simpl.
    split; [by apply connStep_refl|]. done.
  - destruct (closeKnown_open r mk w c G O) as (err & w' & evs & -> & G' & E' & T' & Q & N).
    exists (closedConn mk c), evs. simpl. split; [|done].
    split; try done.
    + simpl. intros ->. by rewrite orb_true_r.
    + by rewrite O.
Qed.

Lemma connStep_closeOnErr r err c w :
  getConn r w = Some c ->
  exists c' evs,
    connStep r c w c' (snd (closeOnErr r err w)) evs /\
    forallb closing evs = true /\
    (err = None -> evs = [] /\ snd (closeOnErr r err w) = w /\ c' = c) /\
    (err <> None -> closeOnce c' = true).
Proof.
  intros G. destruct err as [e|]; simpl.
  - destruct (connStep_closeKnown r true c w G) as (c' & evs & St & O & Q & _).
    exists c', evs. unfold bind, close. destruct (closeKnown r true w) as [x w'].
    simpl in *. done.
  - exists c, []. split; [by apply connStep_refl|]. done.
Qed.


Lemma run_of_one_ok e : run_of [e] true [e].
Proof. apply run_step, run_done. Qed.

Lemma BufferPacket_conn r p c w err w' :
  getConn r w = Some c -> BufferPacket r p w = (err, w') ->
  exists c' evs,
    connStep r c w c' w' evs /\
    run_of [EvBufferPacket r p true] (negb (failed err)) evs /\
    (err = None ->
       c' = set_writeBuf (writeBuf c ++ [p]) (set_script (tl (script c)) c)).
Proof.
  intros G E. unfold BufferPacket in E. unfold bind at 1 in E.
  erewrite load_eq in E by eassumption.
  destruct (closed c) eqn:C.
  - unfold bind, log, modify, ret in E. simplify_eq.
    exists c, [EvBufferPacket r p false]. split; [by apply connStep_log|].
    split; [|done]. by apply (run_fail (EvBufferPacket r p true) [] []).
  - unfold bind at 1 in E. erewrite transport_eq in E by eassumption.
    set (c1 := set_script (tl (script c)) c) in *.
    assert (connStep r c w c1 (setConn r c1 w) []) as St1 by (by apply connStep_set).
    destruct (hd true (script c)) eqn:S.
    + unfold bind at 1 in E. erewrite update_eq in E by (by eapply getConn_setConn).
      erewrite setConn_setConn in E by eassumption.
      set (c2 := set_writeBuf _ c1) in *.
      cbv [bind log modify ret closeOnErr] in E. simplify_eq.
      exists c2, [EvBufferPacket r p true]. split; [|split; [apply run_of_one_ok|done]].
      apply (connStep_trans _ _ _ c2 (setConn r c2 w) _ _ []).
      * by apply connStep_set.
      * apply connStep_log; [by eapply getConn_setConn|done].
    + unfold bind at 1 in E. unfold ret at 1 in E. unfold bind at 1 in E.
      unfold log, modify in E.
      set (w2 := set_trace _ _) in *.
      assert (connStep r c w c1 w2 [EvBufferPacket r p false]) as St2.
      { apply (connStep_trans _ _ _ _ _ _ _ [] _ St1).
        apply connStep_log; [by eapply getConn_setConn|done]. }
      destruct (connStep_closeOnErr r (Some ErrTransport) c1 w2 (cs_get _ _ _ _ _ _ St2))
        as (c' & evs & St3 & Q & _ & _).
      unfold bind in E. destruct (closeOnErr r (Some ErrTransport) w2) as [[] w3].
      unfold ret in E. simplify_eq. simpl in St3.
      exists c', (EvBufferPacket r p false :: evs). split; [|split; [|done]].
      * apply (connStep_trans _ _ _ _ _ _ _ [_] _ St2 St3).
      * by apply (run_fail (EvBufferPacket r p true)).
Qed.


Lemma connStep_fail r c w c1 w1 e err x w' :
  connStep r c w c1 w1 [] -> is_io e = true ->
  closeOnErr r (Some err) (set_trace (trace w1 ++ [fail e]) w1) = (x, w') ->
  exists c' evs, connStep r c w c' w' evs /\ run_of [e] false evs.
Proof.
  intros St1 Hio E.
  set (w2 := set_trace _ _) in *.
  assert (connStep r c w c1 w2 [fail e]) as St2.
  { apply (connStep_trans _ _ _ _ _ _ _ [] _ St1).
    apply connStep_log; [by eapply cs_get|]. by destruct e. }
  destruct (connStep_closeOnErr r (Some err) c1 w2 (cs_get _ _ _ _ _ _ St2))
    as (c' & evs & St3 & Q & _ & _).
  rewrite E in St3. simpl in St3.
  exists c', (fail e :: evs). split.
  - apply (connStep_trans _ _ _ _ _ _ _ [_] _ St2 St3).
  - by apply run_fail.
Qed.

Lemma flush_conn r c w err w' :
  getConn r w = Some c -> flush r w = (err, w') ->
  exists c' evs,
    connStep r c w c' w' evs /\
    run_of [EvFlush r true] (negb (failed err)) evs /\
    (err = None ->
       c' = set_writeBuf [] (set_wire (wire c ++ writeBuf c)
                               (set_script (tl (tl (script c))) c))).
Proof.
  intros G E. unfold flush in E. unfold bind at 1 in E.
  erewrite load_eq in E by eassumption.
  destruct (sockClosed c) eqn:SC.
  - cbv [bind ret log modify failed negb] in E.
    destruct (closeOnErr _ _ _) as [x w3] eqn:E3 in E. simplify_eq.
    destruct (connStep_fail r c w c w (EvFlush r true) _ _ _ (connStep_refl _ _ _ G) eq_refl E3)
      as (c' & evs & St & R).
    exists c', evs. done.
  - unfold bind at 1 in E. erewrite transport_eq in E by eassumption.
    set (c1 := set_script (tl (script c)) c) in *.
    assert (connStep r c w c1 (setConn r c1 w) []) as St1 by (by apply connStep_set).
    destruct (hd true (script c)) eqn:S1.
    + unfold bind at 1 in E. unfold bind at 1 in E.
      erewrite transport_eq in E by (by eapply getConn_setConn).
      erewrite setConn_setConn in E by eassumption.
      set (c2 := set_script (tl (script c1)) c1) in *.
      assert (connStep r c w c2 (setConn r c2 w) []) as St2 by (by apply connStep_set).
      destruct (hd true (script c1)) eqn:S2.
      * unfold bind at 1 in E. erewrite update_eq in E by (by eapply getConn_setConn).
        erewrite setConn_setConn in E by eassumption.
        set (c3 := set_writeBuf _ _) in *.
        cbv [bind log modify ret closeOnErr failed negb] in E. simplify_eq.
        exists c3, [EvFlush r true]. split; [|split; [apply run_of_one_ok|done]].
        apply (connStep_trans _ _ _ c3 (setConn r c3 w) _ _ []).
        -- by apply connStep_set.
        -- apply connStep_log; [by eapply getConn_setConn|done].
      * cbv [bind ret log modify failed negb] in E.
        destruct (closeOnErr _ _ _) as [x w3] eqn:E3 in E. simplify_eq.
        destruct (connStep_fail r c w c2 _ (EvFlush r true) _ _ _ St2 eq_refl E3)
          as (c' & evs & St & R).
        exists c', evs. done.
    + cbv [bind ret log modify failed negb] in E.
      destruct (closeOnErr _ _ _) as [x w3] eqn:E3 in E. simplify_eq.
      destruct (connStep_fail r c w c1 _ (EvFlush r true) _ _ _ St1 eq_refl E3)
        as (c' & evs & St & R).
      exists c', evs. done.
Qed.


Lemma run_of_true plan evs : run_of plan true evs -> evs = plan.
Proof.
  intros R. remember true as b eqn:Hb. induction R; try done.
  f_equal. by apply IHR.
Qed.

Lemma WritePacket_conn r p c w err w' :
  getConn r w = Some c -> WritePacket r p w = (err, w') ->
  exists c' evs,
    connStep r c w c' w' evs /\
    EvWritePacket r p (negb (failed err)) ∈ evs /\
    (closed c = true -> err = Some ErrClosedConn) /\
    (err = None ->
       c' = set_writeBuf [] (set_wire (wire c ++ writeBuf c ++ [p])
                               (set_script (tl (tl (tl (script c)))) c))).
Proof.
  intros G E. unfold WritePacket in E. unfold bind at 1 in E.
  erewrite load_eq in E by eassumption.
  destruct (closed c) eqn:C.
  - cbv [bind log modify ret] in E. simplify_eq.
    exists c, [EvWritePacket r p false]. split; [by apply connStep_log|].
    split; [solve_in|]. split; [done|intros [=]].
  - unfold bind at 1 in E.
    destruct (BufferPacket r p w) as [err1 w1] eqn:E1.
    destruct (BufferPacket_conn _ _ _ _ _ _ G E1) as (c1 & evs1 & St1 & R1 & B1).
    unfold bind at 1 in E.
    destruct err1 as [e1|]; cbn [failed] in E.
    + unfold ret at 1 in E. unfold bind at 1 in E. unfold log, modify in E.
      set (w2 := set_trace _ _) in *. unfold bind in E.
      destruct (closeOnErr r (Some e1) w2) as [x w3] eqn:E3.
      unfold ret in E. simplify_eq.
      assert (connStep r c1 w1 c1 w2 [EvWritePacket r p false]) as St2
        by (apply connStep_log; [by eapply cs_get|done]).
      destruct (connStep_closeOnErr r (Some e1) c1 w2 (cs_get _ _ _ _ _ _ St2))
        as (c' & evs & St3 & _). rewrite E3 in St3. simpl in St3.
      exists c', (evs1 ++ [EvWritePacket r p false] ++ evs).
      split; [|split; [solve_in|split; [congruence|intros [=]]]].
      exact (connStep_trans _ _ _ _ _ _ _ _ _ St1 (connStep_trans _ _ _ _ _ _ _ _ _ St2 St3)).
    + destruct (flush r w1) as [err2 w2] eqn:E2.
      destruct (flush_conn _ _ _ _ _ (cs_get _ _ _ _ _ _ St1) E2) as (c2 & evs2 & St2 & R2 & B2).
      unfold bind at 1 in E. unfold log, modify in E.
      set (w3 := set_trace _ _) in *. unfold bind in E.
      destruct (closeOnErr r err2 w3) as [x w4] eqn:E4.
      unfold ret in E. simplify_eq.
      assert (connStep r c2 w2 c2 w3 [EvWritePacket r p (negb (failed err))]) as St3
        by (apply connStep_log; [by eapply cs_get|done]).
      destruct (connStep_closeOnErr r err c2 w3 (cs_get _ _ _ _ _ _ St3))
        as (c' & evs & St4 & _ & N4 & _). rewrite E4 in St4. simpl in St4.
      exists c', (evs1 ++ evs2 ++ [EvWritePacket r p (negb (failed err))] ++ evs).
      split; [|split; [solve_in|split; [congruence|]]].
      * exact (connStep_trans _ _ _ _ _ _ _ _ _ St1
                 (connStep_trans _ _ _ _ _ _ _ _ _ St2
                    (connStep_trans _ _ _ _ _ _ _ _ _ St3 St4))).
      * intros ->. destruct (N4 eq_refl) as (_ & _ & ->).
        by rewrite (B2 eq_refl), (B1 eq_refl).
Qed.


Lemma events_since_app w w' evs :
  trace w' = trace w ++ evs -> events_since w w' = evs.
Proof. intros H. unfold events_since. by rewrite H, drop_app_length. Qed.

(** ** Closing is single-shot *)

Lemma closeWith_open r p c w :
  getConn r w = Some c -> closed c = false ->
  closeWith r p w =
  (let (_, w1) := WritePacket r p (setConn r (set_knownDisconnect true c) w) in
   close r w1).
Proof.
  intros G C. unfold closeWith. unfold bind at 1. erewrite load_eq by eassumption.
  rewrite C. unfold bind at 1. erewrite update_eq by eassumption. done.
Qed.

Lemma closeWith_closed r p c w :
  getConn r w = Some c -> closed c = true ->
  closeWith r p w = (Some ErrClosedConn, w).
Proof.
  intros G C. unfold closeWith. unfold bind at 1. erewrite load_eq by eassumption.
  by rewrite C.
Qed.

Lemma doClose_conn r call c w err w' :
  getConn r w = Some c -> closed c = closeOnce c ->
  doClose r call w = (err, w') ->
  exists c' evs,
    connStep r c w c' w' evs /\
    closeOnce c' = true /\ closed c' = true /\
    (closeOnce c = true -> w' = w /\ err = Some ErrClosedConn) /\
    (closeOnce c = false -> forall p, call = CallCloseWith p ->
       knownDisconnect c' = true).
Proof.
  intros G Sy E.
  assert (forall mk, closeKnown r mk w = (err, w') ->
    exists c' evs, connStep r c w c' w' evs /\
      closeOnce c' = true /\ closed c' = true /\
      (closeOnce c = true -> w' = w /\ err = Some ErrClosedConn)) as Hk.
  { intros mk Ek.
    destruct (connStep_closeKnown r mk c w G) as (c' & evs & St & O & _ & _ & Hc).
    rewrite Ek in St, Hc. simpl in St. exists c', evs.
    split; [done|]. split; [done|]. split.
    - rewrite (cs_sync _ _ _ _ _ _ St Sy). done.
    - intros Ho. specialize (Hc Ho). by simplify_eq. }
  destruct call as [|mk|p]; simpl in E.
  - destruct (Hk _ E) as (c' & evs & ? & ? & ? & ?). exists c', evs. done.
  - destruct (Hk _ E) as (c' & evs & ? & ? & ? & ?). exists c', evs. done.
  - destruct (closeOnce c) eqn:O.
    + rewrite (closeWith_closed _ _ _ _ G Sy) in E. simplify_eq.
      exists c, []. split; [by apply connStep_refl|]. done.
    + rewrite (closeWith_open _ _ _ _ G Sy) in E.
      set (c0 := set_knownDisconnect true c) in *.
      assert (connStep r c w c0 (setConn r c0 w) []) as St0 by (by apply connStep_set).
      destruct (WritePacket r p (setConn r c0 w)) as [e1 w1] eqn:E1.
      destruct (WritePacket_conn _ _ _ _ _ _ (cs_get _ _ _ _ _ _ St0) E1)
        as (c1 & evs1 & St1 & _).
      destruct (connStep_closeKnown r true c1 w1 (cs_get _ _ _ _ _ _ St1))
        as (c2 & evs2 & St2 & O2 & _ & _ & _).
      unfold close in E. rewrite E in St2. simpl in St2.
      pose proof (connStep_trans _ _ _ _ _ _ _ _ _ St0
                    (connStep_trans _ _ _ _ _ _ _ _ _ St1 St2)) as St.
      exists c2, ([] ++ evs1 ++ evs2). split; [done|]. split; [done|].
      split; [by rewrite (cs_sync _ _ _ _ _ _ St) by congruence|].
      split; [done|]. intros _ ? _.
      apply (cs_known _ _ _ _ _ _ St2), (cs_known _ _ _ _ _ _ St1). done.
Qed.

Lemma doCloses_closed r calls c w :
  getConn r w = Some c -> closed c = true -> closeOnce c = true ->
  doCloses r calls w = (repeat (Some ErrClosedConn) (length calls), w).
Proof.
  intros G C O. induction calls as [|call rest IH]; simpl; [done|].
  unfold bind. destruct (doClose r call w) as [e1 w1] eqn:E1.
  destruct (doClose_conn _ _ _ _ _ _ G ltac:(congruence) E1)
    as (c' & evs & _ & _ & _ & Hc & _).
  destruct (Hc O) as [-> ->]. by rewrite IH.
Qed.


(** ** Writing, whatever the state of the connection *)

Lemma load_nil {A} r (f : minecraftConn -> A) nil w :
  getConn r w = None -> load r f nil w = (nil, w).
Proof. intros H. unfold load, gets. by rewrite H. Qed.

Lemma BufferPacket_run r p w err w' :
  BufferPacket r p w = (err, w') ->
  erase w' = erase w /\
  exists evs, trace w' = trace w ++ evs /\
    run_of [EvBufferPacket r p true] (negb (failed err)) evs.
Proof.
  intros E. destruct (getConn r w) as [c|] eqn:G.
  - destruct (BufferPacket_conn _ _ _ _ _ _ G E) as (c' & evs & St & R & _).
    split; [by eapply cs_erase|]. exists evs. split; [by eapply cs_trace|done].
  - unfold BufferPacket in E. unfold bind at 1 in E. rewrite load_nil in E by done.
    cbv [bind log modify ret] in E. simplify_eq. split; [done|].
    exists [EvBufferPacket r p false]. split; [done|].
    by apply (run_fail (EvBufferPacket r p true) [] []).
Qed.

Lemma flush_run r w err w' :
  flush r w = (err, w') ->
  erase w' = erase w /\
  exists evs, trace w' = trace w ++ evs /\
    run_of [EvFlush r true] (negb (failed err)) evs.
Proof.
  intros E. destruct (getConn r w) as [c|] eqn:G.
  - destruct (flush_conn _ _ _ _ _ G E) as (c' & evs & St & R & _).
    split; [by eapply cs_erase|]. exists evs. split; [by eapply cs_trace|done].
  - unfold flush in E. unfold bind at 1 in E. rewrite load_nil in E by done.
    cbv [bind log modify ret closeOnErr close failed negb] in E.
    rewrite closeKnown_nil in E by (by rewrite getConn_set_trace).
    simplify_eq. split; [done|].
    exists [EvFlush r false]. split; [done|].
    by apply (run_fail (EvFlush r true) [] []).
Qed.

Lemma WritePacket_run r p w err w' :
  WritePacket r p w = (err, w') ->
  erase w' = erase w /\
  exists evs, trace w' = trace w ++ evs /\
    EvWritePacket r p (negb (failed err)) ∈ evs.
Proof.
  intros E. destruct (getConn r w) as [c|] eqn:G.
  - destruct (WritePacket_conn _ _ _ _ _ _ G E) as (c' & evs & St & R & _).
    split; [by eapply cs_erase|]. exists evs. split; [by eapply cs_trace|done].
  - unfold WritePacket in E. unfold bind at 1 in E. rewrite load_nil in E by done.
    cbv [bind log modify ret] in E. simplify_eq. split; [done|].
    exists [EvWritePacket r p false]. split; [done|]. solve_in.
Qed.

(** ** Runs of a plan *)

Lemma run_of_app_true plan1 plan2 evs1 ok evs2 :
  run_of plan1 true evs1 -> run_of plan2 ok evs2 ->
  run_of (plan1 ++ plan2) ok (evs1 ++ evs2).
Proof.
  intros R1 R2. remember true as b eqn:Hb.
  induction R1; simpl; try done. apply run_step. by apply IHR1.
Qed.

Lemma run_of_app_false plan1 plan2 evs1 :
  run_of plan1 false evs1 -> run_of (plan1 ++ plan2) false evs1.
Proof.
  intros R1. remember false as b eqn:Hb.
  induction R1; simpl; try done.
  - apply run_step. by apply IHR1.
  - by apply run_fail.
Qed.

Lemma run_of_nil_inv ok evs : run_of [] ok evs -> ok = true /\ evs = [].
Proof. by inversion 1. Qed.


(** ** The stages of the server-switch ceremony *)

(** A call that is buffered, followed by the rest of a stage. *)
Lemma buffer_then r p (k : M bool) plan w ok w' :
  (forall w1 ok1 w2, k w1 = (ok1, w2) ->
     erase w2 = erase w1 /\
     exists evs, trace w2 = trace w1 ++ evs /\ run_of plan ok1 evs) ->
  (err <- BufferPacket r p ;; if failed err then ret false else k) w = (ok, w') ->
  erase w' = erase w /\
  exists evs, trace w' = trace w ++ evs /\
    run_of (EvBufferPacket r p true :: plan) ok evs.
Proof.
  intros Hk E. unfold bind in E.
  destruct (BufferPacket r p w) as [err w1] eqn:E1.
  destruct (BufferPacket_run _ _ _ _ _ E1) as (Er1 & evs1 & T1 & R1).
  destruct err as [e|]; cbn [failed negb] in *.
  - unfold ret in E. injection E as <- <-. split; [done|]. exists evs1. split; [done|].
    by apply (run_of_app_false [_] plan).
  - destruct (Hk _ _ _ E) as (Er2 & evs2 & T2 & R2).
    split; [congruence|]. exists (evs1 ++ evs2).
    split; [by rewrite T2, T1, app_assoc|].
    by apply (run_of_app_true [_] plan).
Qed.

(** A call that is buffered last in its stage. *)
Lemma buffer_last r p w ok w' :
  (err <- BufferPacket r p ;; ret (negb (failed err))) w = (ok, w') ->
  erase w' = erase w /\
  exists evs, trace w' = trace w ++ evs /\
    run_of [EvBufferPacket r p true] ok evs.
Proof.
  intros E. unfold bind, ret in E.
  destruct (BufferPacket r p w) as [err w1] eqn:E1.
  destruct (BufferPacket_run _ _ _ _ _ E1) as (Er1 & evs1 & T1 & R1).
  injection E as <- <-. split; [done|]. by exists evs1.
Qed.

Lemma ret_true_run w ok w' :
  ret true w = (ok, w') ->
  erase w' = erase w /\
  exists evs, trace w' = trace w ++ evs /\ run_of [] ok evs.
Proof.
  unfold ret. intros [= <- <-]. split; [done|]. exists [].
  rewrite app_nil_r. split; [done|]. apply run_done.
Qed.

Lemma firstJoin_run j w ok w' :
  firstJoin j w = (ok, w') ->
  erase w' = erase w /\
  exists evs, trace w' = trace w ++ evs /\ run_of (joinPlan true j 0) ok evs.
Proof.
  intros E. unfold firstJoin in E.
  eapply (buffer_then _ _ _ [EvOnFirstJoin]) in E; [done|].
  clear. intros w1 ok1 w2 E. cbv [onFirstJoin bind ret log modify] in E.
  simplify_eq. split; [done|]. exists [EvOnFirstJoin]. split; [done|].
  apply run_of_one_ok.
Qed.

Lemma switchJoin_run j v w ok w' :
  switchJoin j v w = (ok, w') ->
  erase w' = erase w /\
  exists evs, trace w' = trace w ++ evs /\ run_of (joinPlan false j v) ok evs.
Proof.
  intros E. unfold switchJoin in E. unfold joinPlan.
  eapply buffer_then in E; [done|].
  clear. intros w1 ok1 w2 E.
  destruct (proto.Lower v proto.Minecraft_1_16).
  - unfold bind at 1 in E. unfold bind at 1 in E.
    destruct (BufferPacket _ _ w1) as [err w3] eqn:E1.
    destruct (BufferPacket_run _ _ _ _ _ E1) as (Er1 & evs1 & T1 & R1).
    unfold ret at 1 in E. destruct err as [e|]; cbn [failed negb] in *.
    + unfold ret in E. injection E as <- <-. split; [done|]. exists evs1. split; [done|].
      by apply (run_of_app_false [_] [_]).
    + apply buffer_last in E. destruct E as (Er2 & evs2 & T2 & R2).
      split; [congruence|]. exists (evs1 ++ evs2).
      split; [by rewrite T2, T1, app_assoc|].
      replace (set_rs_Dimension (jg_Dimension j)
                 (if jg_Dimension j =? 0
                  then set_rs_Dimension (-1) (respawnOf j) else respawnOf j))
        with (set_rs_Dimension (jg_Dimension j) (respawnOf j)) in R2
        by (by destruct (jg_Dimension j =? 0)).
      by apply (run_of_app_true [_] [_]).
  - unfold bind at 1 in E. unfold ret at 1 in E. cbn [negb] in E.
    by apply buffer_last in E.
Qed.


Lemma erase_eraseQueue w w' : erase w' = erase w -> eraseQueue w' = eraseQueue w.
Proof.
  intros E. unfold eraseQueue. rewrite E.
  by replace (handler w') with (handler w) by (by injection E).
Qed.

Lemma sendKnownChannels_run d w ok w' :
  sendKnownChannels (BackendConn d) w = (ok, w') ->
  erase w' = erase w /\
  exists chans evs, trace w' = trace w ++ evs /\ run_of (backendPlan d chans) ok evs.
Proof.
  intros E. unfold sendKnownChannels in E.
  unfold bind at 1 in E. unfold load, gets in E.
  unfold bind at 1 in E. unfold knownChannels, gets in E.
  destruct (negb _).
  - apply buffer_last in E. destruct E as (Er & evs & T & R).
    split; [done|]. eexists [_], evs. split; [done|]. exact R.
  - apply ret_true_run in E. destruct E as (Er & evs & T & R).
    split; [done|]. by exists [], evs.
Qed.

Lemma drain_run d queue w ok w' :
  drainLoginPluginMessages (BackendConn d) queue w = (ok, w') ->
  eraseQueue w' = eraseQueue w /\
  exists evs, trace w' = trace w ++ evs /\ run_of (backendPlan d queue) ok evs.
Proof.
  revert w. induction queue as [|pm rest IH]; intros w E; simpl in E.
  - apply ret_true_run in E. destruct E as (Er & evs & T & R).
    split; [by apply erase_eraseQueue|]. by exists evs.
  - unfold bind at 1 in E. unfold modify in E.
    set (w0 := set_handler _ w) in *.
    assert (eraseQueue w0 = eraseQueue w) as E0 by done.
    change (trace w) with (trace w0). rewrite <- E0. clear E0.
    unfold bind in E.
    destruct (BufferPacket _ _ w0) as [err w1] eqn:E1.
    destruct (BufferPacket_run _ _ _ _ _ E1) as (Er1 & evs1 & T1 & R1).
    apply erase_eraseQueue in Er1.
    destruct err as [e|]; cbn [failed negb] in *.
    + unfold ret in E. injection E as <- <-. split; [done|]. exists evs1.
      split; [done|]. by apply (run_of_app_false [_]).
    + destruct (IH _ E) as (Er2 & evs2 & T2 & R2).
      split; [congruence|]. exists (evs1 ++ evs2).
      split; [by rewrite T2, T1, app_assoc|].
      by apply (run_of_app_true [_]).
Qed.

Lemma resetTitle_run v w ok w' :
  resetTitle v w = (ok, w') ->
  erase w' = erase w /\
  exists evs, trace w' = trace w ++ evs /\ run_of (titlePlan v) ok evs.
Proof.
  intros E. unfold resetTitle in E. unfold titlePlan.
  destruct (proto.GreaterEqual v proto.Minecraft_1_8).
  - by apply buffer_last in E.
  - by apply ret_true_run in E.
Qed.

Lemma flushBoth_run d w ok w' :
  flushBoth (BackendConn d) w = (ok, w') ->
  erase w' = erase w /\
  exists evs, trace w' = trace w ++ evs /\ run_of (flushPlan d) ok evs.
Proof.
  intros E. unfold flushBoth, bind in E.
  destruct (flush ClientConn w) as [err1 w1] eqn:E1.
  destruct (flush_run _ _ _ _ E1) as (Er1 & evs1 & T1 & R1).
  destruct err1 as [e|]; cbn [failed negb] in *.
  - unfold ret in E. injection E as <- <-. split; [done|]. exists evs1.
    split; [done|]. by apply (run_of_app_false [_] [_]).
  - destruct (flush (BackendConn d) w1) as [err2 w2] eqn:E2.
    destruct (flush_run _ _ _ _ E2) as (Er2 & evs2 & T2 & R2).
    unfold ret in E. injection E as <- <-.
    split; [congruence|]. exists (evs1 ++ evs2).
    split; [by rewrite T2, T1, app_assoc|].
    by apply (run_of_app_true [_] [_]).
Qed.


Lemma ceremonyTail_run d v w ok w' :
  ceremonyTail d v w = (ok, w') ->
  exists chans evs,
    trace w' = trace w ++ evs /\
    run_of (backendPlan d (chans ++ loginPluginMessages (handler w))
            ++ titlePlan v ++ flushPlan d ++ [EvCompleteJoin d]) ok evs /\
    spawned (handler w') = spawned (handler w) /\
    connectedServer_ (player w') = (if ok then Some d else connectedServer_ (player w)).
Proof.
  intros E. unfold ceremonyTail in E. unfold bind at 1 in E.
  destruct (sendKnownChannels _ w) as [b1 w1] eqn:E1.
  destruct (sendKnownChannels_run _ _ _ _ E1) as (Er1 & chans & evs1 & T1 & R1).
  assert (handler w1 = handler w) as H1 by (by injection Er1).
  apply erase_eraseQueue in Er1.
  exists chans. unfold backendPlan. rewrite fmap_app. fold (backendPlan d chans).
  fold (backendPlan d (loginPluginMessages (handler w))). rewrite <- !app_assoc.
  destruct b1; cbn [negb] in E.
  2:{ unfold ret in E. injection E as <- <-. exists evs1. split; [done|].
      split; [by apply run_of_app_false|]. split; [by rewrite H1|].
      by injection Er1. }
  unfold bind at 1 in E. unfold gets in E. unfold bind at 1 in E. rewrite H1 in E.
  destruct (drainLoginPluginMessages _ _ w1) as [b2 w2] eqn:E2.
  destruct (drain_run _ _ _ _ _ E2) as (Er2 & evs2 & T2 & R2).
  rewrite Er1 in Er2.
  destruct b2; cbn [negb] in E.
  2:{ unfold ret in E. injection E as <- <-. exists (evs1 ++ evs2).
      split; [by rewrite T2, T1, app_assoc|].
      split; [by apply run_of_app_true, run_of_app_false|].
      by injection Er2. }
  unfold bind at 1 in E.
  destruct (resetTitle v w2) as [b3 w3] eqn:E3.
  destruct (resetTitle_run _ _ _ _ E3) as (Er3 & evs3 & T3 & R3).
  apply erase_eraseQueue in Er3. rewrite Er2 in Er3.
  destruct b3; cbn [negb] in E.
  2:{ unfold ret in E. injection E as <- <-. exists (evs1 ++ evs2 ++ evs3).
      split; [by rewrite T3, T2, T1, !app_assoc|].
      split; [by apply run_of_app_true, run_of_app_true, run_of_app_false|].
      by injection Er3. }
  unfold bind at 1 in E.
  destruct (flushBoth _ w3) as [b4 w4] eqn:E4.
  destruct (flushBoth_run _ _ _ _ E4) as (Er4 & evs4 & T4 & R4).
  apply erase_eraseQueue in Er4. rewrite Er3 in Er4.
  destruct b4; cbn [negb] in E.
  2:{ unfold ret in E. injection E as <- <-. exists (evs1 ++ evs2 ++ evs3 ++ evs4).
      split; [by rewrite T4, T3, T2, T1, !app_assoc|].
      split; [by apply run_of_app_true, run_of_app_true, run_of_app_true, run_of_app_false|].
      by injection Er4. }
  cbv [completeJoin bind ret log modify] in E. injection E as <- <-.
  exists (evs1 ++ evs2 ++ evs3 ++ evs4 ++ [EvCompleteJoin d]).
  split; [simpl; by rewrite T4, T3, T2, T1, <- !app_assoc|].
  split.
  - apply run_of_app_true, run_of_app_true, run_of_app_true, run_of_app_true; try done.
    apply run_of_one_ok.
  - simpl. by injection Er4.
Qed.


Lemma handleBackendJoinGame_unconnected j d w :
  getConn (BackendConn d) w = None -> handleBackendJoinGame j d w = (false, w).
Proof.
  intros G. unfold handleBackendJoinGame, bind, ensureConnected, sc_conn, gets.
  by rewrite G.
Qed.

Lemma handleBackendJoinGame_run j d w handled w' c :
  getConn (BackendConn d) w = Some c ->
  handleBackendJoinGame j d w = (handled, w') ->
  exists chans evs,
    trace w' = trace w ++ evs /\
    run_of (ceremonyPlan (negb (spawned (handler w))) j (protocol (conn (player w))) d
              (chans ++ loginPluginMessages (handler w))) handled evs /\
    spawned (handler w') = true /\
    connectedServer_ (player w') =
      (if handled then Some d else connectedServer_ (player w)).
Proof.
  intros G E. unfold handleBackendJoinGame in E.
  unfold bind at 1 in E. unfold ensureConnected, sc_conn, gets in E. rewrite G in E.
  unfold bind at 1 in E. unfold load, gets in E. cbn [getConn] in E.
  set (v := protocol (conn (player w))) in *.
  unfold bind at 1 in E. unfold spawned_CAS in E.
  fold (ceremonyTail d v) in E. unfold ceremonyPlan.
  destruct (spawned (handler w)) eqn:Sp; cbn [negb].
  - unfold bind at 1 in E.
    destruct (switchJoin j v w) as [b1 w1] eqn:E1.
    destruct (switchJoin_run _ _ _ _ _ E1) as (Er1 & evs1 & T1 & R1).
    assert (handler w1 = handler w) as H1 by (by injection Er1).
    destruct b1; cbn [negb] in E.
    + destruct (ceremonyTail_run _ _ _ _ _ E) as (chans & evs2 & T2 & R2 & S2 & C2).
      exists chans, (evs1 ++ evs2). rewrite H1 in R2, S2.
      split; [by rewrite T2, T1, app_assoc|].
      split; [by apply run_of_app_true|]. split; [congruence|].
      rewrite C2. destruct handled; [done|]. by injection Er1.
    + unfold ret in E. injection E as <- <-. exists [], evs1.
      split; [done|]. split; [by apply run_of_app_false|].
      split; [congruence|]. by injection Er1.
  - set (w0 := set_handler _ w) in *. unfold bind at 1 in E.
    destruct (firstJoin j w0) as [b1 w1] eqn:E1.
    destruct (firstJoin_run _ _ _ _ E1) as (Er1 & evs1 & T1 & R1).
    assert (handler w1 = handler w0) as H1 by (by injection Er1).
    destruct b1; cbn [negb] in E.
    + destruct (ceremonyTail_run _ _ _ _ _ E) as (chans & evs2 & T2 & R2 & S2 & C2).
      exists chans, (evs1 ++ evs2). rewrite H1 in R2, S2.
      split; [by rewrite T2, T1, app_assoc|].
      split; [by apply run_of_app_true|]. split; [done|].
      rewrite C2. destruct handled; [done|]. by injection Er1.
    + unfold ret in E. injection E as <- <-. exists [], evs1.
      split; [done|]. split; [by apply run_of_app_false|].
      split; [by rewrite H1|]. by injection Er1.
Qed.


(** ** What a run tells about its plan *)

Lemma run_of_io_ok plan ok evs :
  forallb io_ok plan = true -> run_of plan ok evs -> forallb io_ok evs = ok.
Proof.
  intros Hp R. induction R; simpl in *.
  - done.
  - apply andb_true_iff in Hp as [He Hp]. rewrite He. by apply IHR.
  - by destruct e.
Qed.

Lemma run_of_false_existsb (P : Event -> bool) plan evs :
  (forall e, is_io e = true -> P (fail e) = false) ->
  (forall e, closing e = true -> P e = false) ->
  run_of plan false evs ->
  existsb P evs = true -> existsb P (removelast plan) = true.
Proof.
  intros Hio Hcl R. remember false as ok eqn:Hok.
  induction R as [|e plan ok evs R IH|e plan post He Hpost]; subst; try done.
  - intros H. destruct plan as [|e' plan]; [by inversion R|].
    change (removelast (e :: e' :: plan)) with (e :: removelast (e' :: plan)).
    cbn [existsb] in H. apply orb_true_iff in H as [H|H].
    + cbn [existsb]. by rewrite H.
    + change (existsb P (e :: removelast (e' :: plan)))
        with (P e || existsb P (removelast (e' :: plan))).
      rewrite IH by done. by rewrite orb_true_r.
  - simpl. rewrite Hio by done. simpl. intros H. exfalso.
    apply existsb_exists in H as (a & Ha & HP).
    rewrite forallb_forall in Hpost. rewrite Hcl in HP; [done|]. by apply Hpost.
Qed.

Lemma offered_app r evs evs' : offered r (evs ++ evs') = offered r evs ++ offered r evs'.
Proof.
  induction evs as [|e evs IH]; simpl; [done|].
  destruct e; try done. destruct r, c; try done; simpl; [by rewrite IH|].
  destruct (Nat.eqb _ _); simpl; by rewrite IH.
Qed.

Lemma buffered_app r evs evs' : buffered r (evs ++ evs') = buffered r evs ++ buffered r evs'.
Proof.
  induction evs as [|e evs IH]; simpl; [done|].
  destruct e; try done. destruct ok; [|done].
  destruct r, c; try done; simpl; [by rewrite IH|].
  destruct (Nat.eqb _ _); simpl; by rewrite IH.
Qed.

Lemma offered_closing r post : forallb closing post = true -> offered r post = [].
Proof.
  induction post as [|e post IH]; simpl; [done|].
  intros H. apply andb_true_iff in H as [He H]. destruct e; try done; by apply IH.
Qed.

Lemma offered_fail r e : offered r [fail e] = offered r [e].
Proof. by destruct e. Qed.

(** Whatever was handed to BufferPacket was in the plan, in that order. *)
Lemma run_of_offered r plan ok evs :
  run_of plan ok evs -> offered r evs `prefix_of` offered r plan.
Proof.
  intros R. induction R as [|e plan ok evs R IH|e plan post He Hpost].
  - done.
  - change (e :: evs) with ([e] ++ evs). change (e :: plan) with ([e] ++ plan).
    rewrite !offered_app. by apply prefix_app.
  - change (fail e :: post) with ([fail e] ++ post).
    change (e :: plan) with ([e] ++ plan).
    rewrite !offered_app, (offered_closing r post), offered_fail, app_nil_r by done.
    by apply prefix_app_r.
Qed.

Lemma offered_backendPlan d msgs : offered ClientConn (backendPlan d msgs) = [].
Proof. by induction msgs. Qed.

Lemma buffered_backendPlan d msgs : buffered ClientConn (backendPlan d msgs) = [].
Proof. by induction msgs. Qed.

Lemma io_ok_backendPlan d msgs : forallb io_ok (backendPlan d msgs) = true.
Proof. by induction msgs. Qed.

Lemma isCompleteJoin_backendPlan d msgs : existsb isCompleteJoin (backendPlan d msgs) = false.
Proof. by induction msgs. Qed.

Lemma isOnFirstJoin_backendPlan d msgs : existsb isOnFirstJoin (backendPlan d msgs) = false.
Proof. by induction msgs. Qed.

Lemma io_ok_ceremonyPlan first j v d msgs :
  forallb io_ok (ceremonyPlan first j v d msgs) = true.
Proof.
  unfold ceremonyPlan, joinPlan, titlePlan. rewrite !forallb_app, io_ok_backendPlan.
  destruct first; try destruct (proto.Lower v _);
    by destruct (proto.GreaterEqual v _).
Qed.

Lemma ceremonyPlan_removelast first j v d msgs :
  removelast (ceremonyPlan first j v d msgs)
  = joinPlan first j v ++ backendPlan d msgs ++ titlePlan v ++ flushPlan d.
Proof.
  unfold ceremonyPlan. rewrite !app_assoc. by rewrite removelast_last.
Qed.

Lemma ceremonyPlan_no_completeJoin first j v d msgs :
  existsb isCompleteJoin (removelast (ceremonyPlan first j v d msgs)) = false.
Proof.
  rewrite ceremonyPlan_removelast. unfold joinPlan, titlePlan.
  rewrite !existsb_app, isCompleteJoin_backendPlan.
  destruct first; try destruct (proto.Lower v _);
    by destruct (proto.GreaterEqual v _).
Qed.


Lemma run_of_existsb (P : Event -> bool) plan ok evs :
  (forall e, is_io e = true -> P (fail e) = false) ->
  (forall e, closing e = true -> P e = false) ->
  run_of plan ok evs ->
  existsb P evs = true -> existsb P plan = true.
Proof.
  intros Hio Hcl R. induction R as [|e plan ok evs R IH|e plan post He Hpost].
  - done.
  - cbn [existsb]. intros H. apply orb_true_iff in H as [H|H]; [by rewrite H|].
    rewrite IH by done. by rewrite orb_true_r.
  - simpl. rewrite Hio by done. simpl. intros H. exfalso.
    apply existsb_exists in H as (a & Ha & HP).
    rewrite forallb_forall in Hpost. rewrite Hcl in HP; [done|]. by apply Hpost.
Qed.

Lemma buffered_ceremonyPlan first j v d msgs :
  buffered ClientConn (ceremonyPlan first j v d msgs)
  = buffered ClientConn (joinPlan first j v) ++ resetTitlePackets v.
Proof.
  unfold ceremonyPlan. rewrite !buffered_app, buffered_backendPlan.
  unfold titlePlan, resetTitlePackets.
  destruct (proto.GreaterEqual v _); simpl; by rewrite ?app_nil_r.
Qed.

Lemma offered_ceremonyPlan first j v d msgs :
  offered ClientConn (ceremonyPlan first j v d msgs)
  = offered ClientConn (joinPlan first j v) ++ resetTitlePackets v.
Proof.
  unfold ceremonyPlan. rewrite !offered_app, offered_backendPlan.
  unfold titlePlan, resetTitlePackets.
  destruct (proto.GreaterEqual v _); simpl; by rewrite ?app_nil_r.
Qed.

Lemma mirrors_respawnOf j dim : mirrors (set_rs_Dimension dim (respawnOf j)) j.
Proof. unfold mirrors. simpl. by destruct (jg_LevelType j). Qed.

Lemma mirrors_respawnOf0 j : mirrors (respawnOf j) j.
Proof. unfold mirrors. simpl. by destruct (jg_LevelType j). Qed.

(** * The properties *)

(** C2.  On a later JoinGame (the player has spawned), a ceremony that
    succeeds has buffered to the client, in this order: the JoinGame, then
    for a protocol below 1.16 and JoinGame.Dimension = 0 a Respawn with
    Dimension -1 and a Respawn with Dimension 0, for a protocol from 1.16
    on a single Respawn with the JoinGame's Dimension; nothing follows but
    the title reset of the ceremony's later step (protocol 1.8 and up).
    Every Respawn handed to the client, whether the ceremony succeeds or
    not, keeps no player data and mirrors the JoinGame's difficulty,
    gamemode, partial hashed seed, level type (empty when absent),
    previous gamemode and current dimension data, and what is handed to
    the client is always an initial part of that sequence. *)
Theorem switch_buffers_join_and_respawns j d w handled w' :
  spawned (handler w) = true ->
  handleBackendJoinGame j d w = (handled, w') ->
  let v := protocol (conn (player w)) in
  let evs := events_since w w' in
  let respawn dim := PRespawn (set_rs_Dimension dim (respawnOf j)) in
  (handled = true -> v < proto.Minecraft_1_16 -> jg_Dimension j = 0 ->
     buffered ClientConn evs
     = [PJoinGame j; respawn (-1); respawn 0] ++ resetTitlePackets v) /\
  (handled = true -> proto.Minecraft_1_16 <= v ->
     buffered ClientConn evs
     = [PJoinGame j; respawn (jg_Dimension j)] ++ resetTitlePackets v) /\
  (forall r, PRespawn r ∈ offered ClientConn evs -> mirrors r j) /\
  offered ClientConn evs
    `prefix_of` offered ClientConn (joinPlan false j v) ++ resetTitlePackets v.
Proof.
  intros Sp E v evs respawn.
  destruct (getConn (BackendConn d) w) as [c|] eqn:G.
  2:{ rewrite handleBackendJoinGame_unconnected in E by done. injection E as <- <-.
      subst evs. unfold events_since. rewrite drop_all.
      split; [done|]. split; [done|].
      split; [intros r H; by apply elem_of_nil in H|]. apply prefix_nil. }
  destruct (handleBackendJoinGame_run _ _ _ _ _ _ G E) as (chans & evs' & T & R & _ & C).
  subst evs. rewrite (events_since_app _ _ _ T). rewrite Sp in R. cbn [negb] in R.
  fold v in R. split; [|split; [|split]].
  - intros -> Hv Hd. apply run_of_true in R. subst evs'.
    rewrite buffered_ceremonyPlan. unfold joinPlan, proto.Lower.
    apply Z.ltb_lt in Hv. rewrite Hv, Hd. done.
  - intros -> Hv. apply run_of_true in R. subst evs'.
    rewrite buffered_ceremonyPlan. unfold joinPlan, proto.Lower.
    apply Z.ltb_ge in Hv. rewrite Hv. done.
  - intros r Hr. apply (run_of_offered ClientConn) in R.
    rewrite offered_ceremonyPlan in R.
    eapply elem_of_prefix in Hr; [|exact R].
    unfold joinPlan, resetTitlePackets in Hr.
    destruct (proto.Lower v _), (proto.GreaterEqual v _), (jg_Dimension j =? 0);
      simpl in Hr; rewrite ?elem_of_cons in Hr;
      repeat (destruct Hr as [Hr|Hr]; [try done; injection Hr as ->;
                (apply mirrors_respawnOf || apply mirrors_respawnOf0)|]);
      by apply elem_of_nil in Hr.
  - apply (run_of_offered ClientConn) in R. by rewrite offered_ceremonyPlan in R.
Qed.


Lemma forallb_prefix {A} (P : A -> bool) (l1 l2 : list A) :
  l1 `prefix_of` l2 -> forallb P l2 = true -> forallb P l1 = true.
Proof. intros [k ->]. rewrite forallb_app. by intros [? _]%andb_true_iff. Qed.

Lemma not_elem_of_closing e post :
  closing e = false -> forallb closing post = true -> e ∉ post.
Proof.
  intros He Hp Hin. rewrite forallb_forall in Hp.
  apply list_elem_of_In, Hp in Hin. congruence.
Qed.

(** C6.  Once the destination is connected, the JoinGame sets the spawned
    flag.  For the first JoinGame (the flag was unset) no Respawn is ever
    handed to the client, onFirstJoin is invoked exactly when the JoinGame
    was buffered, and a ceremony that succeeds has buffered the JoinGame
    alone (followed only by the title reset of the later step).  Every
    later JoinGame (the flag is set) takes the switch branch: onFirstJoin
    is not invoked and a success has buffered the JoinGame and a Respawn
    right after it. *)
Theorem first_join_buffers_join_only j d c w handled w' :
  getConn (BackendConn d) w = Some c ->
  handleBackendJoinGame j d w = (handled, w') ->
  let v := protocol (conn (player w)) in
  let evs := events_since w w' in
  spawned (handler w') = true /\
  (spawned (handler w) = false ->
     forallb (fun p => negb (isRespawn p)) (offered ClientConn evs) = true /\
     (EvOnFirstJoin ∈ evs <-> EvBufferPacket ClientConn (PJoinGame j) true ∈ evs) /\
     (handled = true ->
        EvOnFirstJoin ∈ evs /\
        buffered ClientConn evs = PJoinGame j :: resetTitlePackets v)) /\
  (spawned (handler w) = true ->
     (~ EvOnFirstJoin ∈ evs) /\
     (handled = true ->
        exists r rest, buffered ClientConn evs = PJoinGame j :: PRespawn r :: rest)).
Proof.
  intros G E v evs.
  destruct (handleBackendJoinGame_run _ _ _ _ _ _ G E) as (chans & evs' & T & R & S & C).
  subst evs. rewrite (events_since_app _ _ _ T). fold v in R.
  split; [done|]. split; intros Sp; rewrite Sp in R; cbn [negb] in R.
  - split; [|split].
    + apply (run_of_offered ClientConn) in R. rewrite offered_ceremonyPlan in R.
      eapply forallb_prefix; [exact R|]. unfold joinPlan, resetTitlePackets.
      by destruct (proto.GreaterEqual v _).
    + unfold ceremonyPlan, joinPlan in R. cbn [app] in R.
      inversion R as [|e plan ok evs1 R1|e plan post He Hpost]; subst.
      * inversion R1 as [|e plan ok evs2 R2|e plan post He Hpost]; subst; [|done].
        split; intros _; solve_in.
      * simpl. split; intros H; exfalso; apply elem_of_cons in H as [H|H]; try done;
          by eapply not_elem_of_closing in H.
    + intros ->. apply run_of_true in R. subst evs'.
      split; [unfold ceremonyPlan, joinPlan; solve_in|].
      by rewrite buffered_ceremonyPlan.
  - split.
    + intros Hin.
      assert (existsb isOnFirstJoin evs' = true) as Hex
        by (apply existsb_exists; exists EvOnFirstJoin;
            split; [by apply list_elem_of_In|done]).
      eapply (run_of_existsb isOnFirstJoin) in Hex;
        [|by intros []|by intros [| | | | | | |[]| | | |]|exact R].
      unfold ceremonyPlan, joinPlan, titlePlan, flushPlan in Hex.
      rewrite !existsb_app, isOnFirstJoin_backendPlan in Hex.
      by destruct (proto.Lower v _), (proto.GreaterEqual v _).
    + intros ->. apply run_of_true in R. subst evs'.
      rewrite buffered_ceremonyPlan. unfold joinPlan.
      destruct (proto.Lower v _); simpl; eauto.
Qed.


(** C8.  Teardown disconnects the in-flight and the current server
    connection (each one that is there), in this order, then fires one
    DisconnectEvent whose login status is: ConflictingLogin when the player
    was unregistered and the duplicate flag is set, SuccessfulLogin when
    unregistered without the flag, CanceledByProxy when not unregistered
    and knownDisconnect is set, CanceledByUser when not unregistered and
    knownDisconnect is not set. *)
Theorem teardown_disconnects_and_reports w :
  let unregistered := fst (unregisterConnection w) in
  let duplicate := disconnectDueToDuplicateConnection (player w) in
  let known := knownDisconnect (conn (player w)) in
  events_since w (snd (teardown w))
  = from_option (fun s => [EvServerDisconnect s]) [] (connInFlight (player w))
    ++ from_option (fun s => [EvServerDisconnect s]) [] (connectedServer_ (player w))
    ++ [EvFire (DisconnectEvent (statusTable unregistered duplicate known))] /\
  unregistered = bool_decide (profileId (player w) ∈ registered (proxy w)) /\
  (forall k, statusTable true true k = ConflictingLoginStatus) /\
  (forall k, statusTable true false k = SuccessfulLoginStatus) /\
  (forall dup, statusTable false dup true = CanceledByProxyLoginStatus) /\
  (forall dup, statusTable false dup false = CanceledByUserLoginStatus).
Proof.
  cbv zeta. rewrite teardown_eq. split; [|split; [done|]].
  - apply events_since_app. done.
  - repeat split; by intros [].
Qed.

(** C7.  [canForwardPluginMessage] changes nothing and permits a plugin
    message if and only if: for a protocol up to 1.12.2, its channel starts
    with MC| or with the legacy Forge handshake channel, or it is a legacy
    Register or Unregister frame, or its channel is among the player's
    known channels; for a protocol from 1.13 on, its channel starts with
    minecraft: or is among the known channels. *)
Theorem canForwardPluginMessage_rule v m w :
  let allowed := fst (canForwardPluginMessage v m w) in
  let known := Channel m ∈ pluginChannels (player w) in
  snd (canForwardPluginMessage v m w) = w /\
  (v <= proto.Minecraft_1_12_2 ->
     (allowed = true <->
        strings.HasPrefix (Channel m) "MC|" = true \/
        strings.HasPrefix (Channel m) forge_LegacyHandshakeChannel = true \/
        plugin_LegacyRegister m = true \/ plugin_LegacyUnregister m = true \/
        known)) /\
  (proto.Minecraft_1_13 <= v ->
     (allowed = true <->
        strings.HasPrefix (Channel m) "minecraft:" = true \/ known)).
Proof.
  cbv zeta. unfold canForwardPluginMessage, proto.Minecraft_1_13, proto.Minecraft_1_12_2.
  split; [|split].
  - by destruct (if v <=? 340 then _ else _).
  - intros Hv. apply Z.leb_le in Hv. rewrite Hv.
    destruct (strings.HasPrefix (Channel m) "MC|"),
      (strings.HasPrefix (Channel m) forge_LegacyHandshakeChannel),
      (plugin_LegacyRegister m), (plugin_LegacyUnregister m); simpl;
      try (split; [intros _; auto 10|done]).
    unfold sets.Has. rewrite bool_decide_eq_true. split; [auto 10|].
    by intros [|[|[|[|]]]].
  - intros Hv. assert ((v <=? 340) = false) as -> by (apply Z.leb_gt; lia).
    destruct (strings.HasPrefix (Channel m) "minecraft:"); simpl;
      try (split; [intros _; auto 10|done]).
    unfold sets.Has. rewrite bool_decide_eq_true. split; [auto|]. by intros [|].
Qed.

(** C10.  While the player has no backend server connection (no current
    server, or one whose connection is nil), a Chat or PluginMessage packet
    handled by the client Play session handler leaves the world as it was:
    no event is fired, no command invoked, nothing queued and nothing
    written to any connection. *)
Theorem without_backend_packets_are_discarded w :
  (connectedServer_ (player w) = None \/
   exists s, connectedServer_ (player w) = Some s /\ getConn (BackendConn s) w = None) ->
  (forall p, handleChat p w = (tt, w)) /\
  (forall m, handlePluginMessage m w = (Returned, w)) /\
  (forall p now now', handlePacket (PChat p) now now' w = (Returned, w)) /\
  (forall m now now', handlePacket (PPluginMessage m) now now' w = (Returned, w)).
Proof.
  intros H.
  assert (forall p, handleChat p w = (tt, w)) as Hchat.
  { intros p. unfold handleChat, bind, connectedServer, sc_conn, gets.
    destruct H as [->|(s & -> & ->)]; done. }
  assert (forall m, handlePluginMessage m w = (Returned, w)) as Hplugin.
  { intros m. unfold handlePluginMessage, bind, connectedServer, sc_conn, gets.
    destruct H as [->|(s & -> & ->)]; done. }
  repeat split; try done.
  - intros p ? ?. unfold handlePacket, bind. by rewrite Hchat.
  - intros m ? ?. unfold handlePacket. apply Hplugin.
Qed.


(** C9.  On an open connection with a session handler, whatever the
    sequence of close, closeKnown and closeWith calls, [disconnected()]
    fires exactly once; every call after the first returns the
    already-closed error and leaves the world unchanged; closeWith stores
    knownDisconnect = true, then writes the packet, then closes, and the
    connection is closed and marked known afterwards. *)
Theorem close_is_single_shot r c sh w call rest :
  getConn r w = Some c -> closed c = false -> closeOnce c = false ->
  handler_ c = Some sh ->
  let w1 := snd (doClose r call w) in
  disconnectedCount r (events_since w (snd (doCloses r (call :: rest) w))) = 1%nat /\
  doCloses r rest w1 = (repeat (Some ErrClosedConn) (length rest), w1) /\
  (forall p,
     closeWith r p w =
     (let (_, w0) := WritePacket r p (setConn r (set_knownDisconnect true c) w) in
      close r w0)) /\
  (exists c1, getConn r w1 = Some c1 /\ closed c1 = true /\
     (forall p, call = CallCloseWith p -> knownDisconnect c1 = true)).
Proof.
  intros G C O H. cbv zeta.
  destruct (doClose r call w) as [e1 w1] eqn:E1.
  destruct (doClose_conn _ _ _ _ _ _ G ltac:(congruence) E1)
    as (c1 & evs & St & O1 & C1 & _ & K1).
  pose proof (doCloses_closed r rest c1 w1 (cs_get _ _ _ _ _ _ St) C1 O1) as Hrest.
  cbn [snd]. split; [|split; [done|split]].
  - cbn [doCloses]. unfold bind. rewrite E1, Hrest. cbn [snd ret].
    rewrite (events_since_app _ _ _ (cs_trace _ _ _ _ _ _ St)).
    rewrite (cs_count _ _ _ _ _ _ St), O, O1, H. done.
  - intros p. by apply closeWith_open.
  - exists c1. split; [by eapply cs_get|]. split; [done|]. by apply K1.
Qed.

(** ** Chat *)

Lemma handleChat_forwards p s c w :
  connectedServer_ (player w) = Some s ->
  getConn (BackendConn s) w = Some c ->
  strings.HasPrefix (chat_Message p) "/" = false ->
  eventAllowed (proxy w) (PlayerChatEvent (chat_Message p)) = true ->
  closed (conn (player w)) = false ->
  exists ok evs,
    events_since w (snd (handleChat p w))
    = EvFire (PlayerChatEvent (chat_Message p)) :: evs /\
    EvWritePacket (BackendConn s)
      (PChat (mkChat (chat_Message p) ChatMessage uuid.Nil)) ok ∈ evs.
Proof.
  intros Hs G Hp Ha Hc.
  unfold handleChat, bind at 1, connectedServer, gets. rewrite Hs.
  unfold bind at 1, sc_conn, gets. rewrite G, Hp.
  unfold bind at 1. unfold bind at 1. unfold fire, bind at 1, log, modify, gets.
  cbn [proxy set_trace]. rewrite Ha.
  unfold bind at 1, Active, bind at 1, load, gets. cbn [getConn player set_trace].
  rewrite Hc. cbn [ret negb orb].
  unfold bind.
  destruct (WritePacket _ _ _) as [err w1] eqn:E.
  apply WritePacket_run in E as (_ & evs & T & Hin). cbn [snd trace set_trace] in *.
  exists (negb (failed err)), evs. split; [|done].
  apply events_since_app. unfold ret. cbn [snd]. by rewrite T, <- app_assoc.
Qed.

(** C4, as the code has it.  [SpoofChatInput] rejects an input longer than
    256 with ErrTooLongChatMessage and touches nothing; the client chat
    handler has no length check: a chat message that is not a command and
    that the subscribers allow is written to the backend of an active
    player whatever its length. *)
Theorem chat_length_is_checked_by_spoof_only input w :
  ((packet.MaxServerBoundMessageLength < String.length input)%nat ->
     SpoofChatInput input w = (Some ErrTooLongChatMessage, w)) /\
  (forall s c,
     connectedServer_ (player w) = Some s ->
     getConn (BackendConn s) w = Some c ->
     strings.HasPrefix input "/" = false ->
     eventAllowed (proxy w) (PlayerChatEvent input) = true ->
     closed (conn (player w)) = false ->
     exists ok,
       EvWritePacket (BackendConn s) (PChat (mkChat input ChatMessage uuid.Nil)) ok
       ∈ events_since w (snd (handleChat (mkChat input ChatMessage uuid.Nil) w))).
Proof.
  split.
  - intros H. unfold SpoofChatInput. apply Nat.ltb_lt in H. by rewrite H.
  - intros s c Hs G Hp Ha Hc.
    destruct (handleChat_forwards (mkChat input ChatMessage uuid.Nil) s c w Hs G Hp Ha Hc)
      as (ok & evs & -> & Hin).
    exists ok. by apply elem_of_cons; right.
Qed.


(** ** Keep-alive *)

Lemma handleKeepAlive_dropped p now now' w :
  match connectedServer_ (player w) with
  | None => True
  | Some s =>
      match servers w !! s with
      | Some sc => RandomId p <> lastPingId sc \/ connection sc = None
      | None => True
      end
  end ->
  handleKeepAlive p now now' w = (tt, w).
Proof.
  unfold handleKeepAlive, bind, connectedServer, serverField, sc_conn, gets.
  cbn [getConn].
  destruct (connectedServer_ (player w)) as [s|]; [|done].
  destruct (servers w !! s) as [sc|] eqn:Hsc.
  - intros [H|H].
    + apply Z.eqb_neq in H. by rewrite H.
    + destruct (RandomId p =? lastPingId sc); [|done]. cbv beta. by rewrite Hsc, H.
  - intros _. destruct (RandomId p =? 0); [|done]. cbv beta. by rewrite Hsc.
Qed.

Lemma handleKeepAlive_answered p now now' s sc c w :
  connectedServer_ (player w) = Some s ->
  servers w !! s = Some sc -> connection sc = Some c ->
  RandomId p = lastPingId sc ->
  let w' := snd (handleKeepAlive p now now' w) in
  ping (player w')
  = time.Since now (time.Unix 0 (wrap64 (lastPingSent sc * time.Millisecond))) /\
  exists ok,
    EvWritePacket (BackendConn s) (PKeepAlive p) ok ∈ events_since w w' /\
    lastPingSent <$> servers w' !! s
    = Some (if ok then time.Nanosecond now' / time.Millisecond else lastPingSent sc).
Proof.
  intros Hs Hsc Hc Hid. cbv zeta.
  destruct (handleKeepAlive p now now' w) as [[] w'] eqn:E'. cbn [snd].
  unfold handleKeepAlive, bind at 1, connectedServer, gets in E'. rewrite Hs in E'.
  unfold bind at 1, serverField, gets in E'. rewrite Hsc, Hid, Z.eqb_refl in E'.
  unfold bind at 1, sc_conn, gets in E'. cbn [getConn] in E'. rewrite Hsc, Hc in E'.
  unfold bind at 1, gets in E'. rewrite Hsc in E'.
  unfold bind at 1, modify in E'.
  set (w0 := set_player _ w) in *. unfold bind in E'.
  destruct (WritePacket _ _ w0) as [err w1] eqn:E.
  apply WritePacket_run in E as (Er & evs & T & Hin).
  assert (ping (player w1) = ping (player w0)) as Hping by (by injection Er).
  assert (eraseServer <$> servers w1 = eraseServer <$> servers w0) as Hsrv
    by (by injection Er).
  assert (exists sc1, servers w1 !! s = Some sc1 /\ lastPingSent sc1 = lastPingSent sc)
    as (sc1 & Hsc1 & Hsent).
  { apply (f_equal (fun l => l !! s)) in Hsrv. rewrite !list_lookup_fmap in Hsrv.
    change (servers w0) with (servers w) in Hsrv. rewrite Hsc in Hsrv.
    destruct (servers w1 !! s) as [sc1|]; [|done]. exists sc1. split; [done|].
    simpl in Hsrv. by injection Hsrv. }
  destruct err as [e|]; cbn [failed negb] in *; unfold ret, modify in E';
    injection E' as <-.
  - split; [by rewrite Hping|]. exists false.
    split; [by rewrite (events_since_app w w1 evs T)|].
    by rewrite Hsc1, <- Hsent.
  - rewrite Hsc1. cbn [player servers set_servers]. split; [by rewrite Hping|].
    exists true. split.
    + erewrite events_since_app; [exact Hin|exact T].
    + rewrite list_lookup_insert_eq by (by eapply lookup_lt_Some). done.
Qed.

(** What is stored as the time of the last ping is the millisecond within
    the current second. *)
Lemma millisecond_of_second t :
  0 <= time.Nanosecond t / time.Millisecond < 1000.
Proof.
  unfold time.Nanosecond, time.Millisecond.
  pose proof (Z.mod_pos_bound t 1000000000 ltac:(lia)).
  split; [apply Z.div_pos; lia|]. apply Z.div_lt_upper_bound; lia.
Qed.

(** ** Register and Unregister *)

Lemma lockedKnownChannels_eq fn w :
  lockedKnownChannels fn w =
  match pluginChannelsMu (player w) with
  | O => (Fatal "sync: RUnlock of unlocked RWMutex", w)
  | S _ => (Returned, set_player (set_pluginChannels (fn (pluginChannels (player w))) (player w)) w)
  end.
Proof.
  unfold lockedKnownChannels. destruct w as [p h sv px tr].
  destruct p as [c0 i0 pg dp mu ch cs ci st ph]. simpl. by destruct mu.
Qed.

Lemma handlePluginMessage_register m s c w :
  connectedServer_ (player w) = Some s ->
  getConn (BackendConn s) w = Some c -> state c = Play ->
  plugin_Register m = true \/ plugin_Unregister m = true ->
  let update := if plugin_Register m then sets.Insert else sets.Delete in
  let (err, w1) := WritePacket (BackendConn s) (PPluginMessage m) w in
  let (out, w') := handlePluginMessage m w in
  pluginChannels (player w1) = pluginChannels (player w) /\
  match err with
  | None => out = Returned /\ w' = w1
  | Some _ =>
      match pluginChannelsMu (player w) with
      | O => out = Fatal "sync: RUnlock of unlocked RWMutex" /\ w' = w1
      | S _ =>
          out = Returned /\
          pluginChannels (player w')
          = update (pluginChannels (player w)) (plugin_Channels m)
      end
  end.
Proof.
  intros Hs G Hst Hm. cbv zeta.
  destruct (WritePacket _ _ w) as [err w1] eqn:E.
  destruct (handlePluginMessage m w) as [out w'] eqn:E'.
  unfold handlePluginMessage, bind at 1, connectedServer, gets in E'. rewrite Hs in E'.
  unfold bind at 1, sc_conn, gets in E'. rewrite G in E'.
  unfold bind at 1 in E'. erewrite load_eq in E' by eassumption. rewrite Hst in E'.
  pose proof E as Er. apply WritePacket_run in Er as (Er & _).
  assert (pluginChannels (player w1) = pluginChannels (player w)) as Hch
    by (by injection Er).
  assert (pluginChannelsMu (player w1) = pluginChannelsMu (player w)) as Hmu
    by (by injection Er).
  split; [done|].
  destruct (plugin_Register m).
  - unfold bind in E'. rewrite E in E'.
    destruct err as [e|]; cbn [failed] in E'.
    + rewrite lockedKnownChannels_eq, Hmu in E'.
      destruct (pluginChannelsMu (player w)); injection E' as <- <-; [done|].
      split; [done|]. simpl. by rewrite Hch.
    + unfold ret in E'. by injection E' as <- <-.
  - destruct Hm as [Hm|Hm]; [done|]. rewrite Hm in E'.
    unfold bind in E'. rewrite E in E'.
    destruct err as [e|]; cbn [failed] in E'.
    + rewrite lockedKnownChannels_eq, Hmu in E'.
      destruct (pluginChannelsMu (player w)); injection E' as <- <-; [done|].
      split; [done|]. simpl. by rewrite Hch.
    + unfold ret in E'. by injection E' as <- <-.
Qed.

End Properties.

(** * The properties on concrete worlds *)

(** C1.  The code updates the known-channel set on the wrong outcome of
    the write.  A REGISTER of acme:chat whose write to the backend succeeds
    leaves the channel unknown, and an UNREGISTER whose write succeeds
    leaves it known; when the write fails, the channel is inserted (or
    deleted) if some reader holds the lock of the set, and the process
    dies in [RUnlock] if none does. *)
Theorem register_updates_channels_on_failed_write_only :
  (fst (handlePluginMessage registerMessage (onBackend [] 0)) = Returned /\
   trace (snd (handlePluginMessage registerMessage (onBackend [] 0)))
   = [EvBufferPacket (BackendConn 0) (PPluginMessage registerMessage) true;
      EvFlush (BackendConn 0) true;
      EvWritePacket (BackendConn 0) (PPluginMessage registerMessage) true] /\
   sets.Has (pluginChannels (player (snd (handlePluginMessage registerMessage
                                            (onBackend [] 0))))) "acme:chat" = false) /\
  (fst (handlePluginMessage unregisterMessage (knowingChannel [])) = Returned /\
   sets.Has (pluginChannels (player (snd (handlePluginMessage unregisterMessage
                                            (knowingChannel []))))) "acme:chat" = true) /\
  (fst (handlePluginMessage registerMessage (withReaders 1 (onBackend [false] 0)))
   = Returned /\
   sets.Has (pluginChannels (player (snd (handlePluginMessage registerMessage
                              (withReaders 1 (onBackend [false] 0)))))) "acme:chat"
   = true) /\
  (fst (handlePluginMessage unregisterMessage (withReaders 1 (knowingChannel [false])))
   = Returned /\
   sets.Has (pluginChannels (player (snd (handlePluginMessage unregisterMessage
                              (withReaders 1 (knowingChannel [false])))))) "acme:chat"
   = false) /\
  fst (handlePluginMessage registerMessage (onBackend [false] 0))
  = Fatal "sync: RUnlock of unlocked RWMutex".
Proof. vm_compute. repeat split. Qed.

(** C3.  A KeepAlive with the id of the last ping, answered at
    2020-09-13T12:26:40.123456789Z by a player whose backend recorded the
    ping at 12:26:40.000: the ping is 123456789 ns and the packet is
    written to the backend, but what is stored as the time of the last
    ping is 123, the millisecond within the second, where the wall-clock
    millisecond is 1600000000123. *)
Theorem keepalive_stores_millisecond_of_second :
  ping (player (snd (handleKeepAlive (mkKeepAlive 7) someInstant someInstant
                       (onBackend [] 1600000000000)))) = 123456789 /\
  trace (snd (handleKeepAlive (mkKeepAlive 7) someInstant someInstant
                (onBackend [] 1600000000000)))
  = [EvBufferPacket (BackendConn 0) (PKeepAlive (mkKeepAlive 7)) true;
     EvFlush (BackendConn 0) true;
     EvWritePacket (BackendConn 0) (PKeepAlive (mkKeepAlive 7)) true] /\
  lastPingSent <$> servers (snd (handleKeepAlive (mkKeepAlive 7) someInstant someInstant
                                   (onBackend [] 1600000000000))) = [123] /\
  someInstant / time.Millisecond = 1600000000123.
Proof. vm_compute. repeat split. Qed.

(** C4 fails on the chat handler: a chat message of 257 characters from
    the client goes out to the backend. *)
Lemma long_chat_is_forwarded :
  String.length longMessage = 257%nat /\
  (wire <$> getConn (BackendConn 0)
              (snd (handleChat (mkChat longMessage ChatMessage uuid.Nil) (onBackend [] 0))))
  = Some [PChat (mkChat longMessage ChatMessage uuid.Nil)].
Proof. vm_compute. split; reflexivity. Qed.

(** The rule at the 257-character message: refused by SpoofChatInput,
    written to the backend by the chat handler. *)
Lemma chat_length_is_checked_by_spoof_only_witness :
  SpoofChatInput longMessage (onBackend [] 0)
  = (Some ErrTooLongChatMessage, onBackend [] 0) /\
  exists ok,
    EvWritePacket (BackendConn 0) (PChat (mkChat longMessage ChatMessage uuid.Nil)) ok
    ∈ events_since (onBackend [] 0)
        (snd (handleChat (mkChat longMessage ChatMessage uuid.Nil) (onBackend [] 0))).
Proof.
  destruct (chat_length_is_checked_by_spoof_only longMessage (onBackend [] 0)) as [H1 H2].
  split.
  - apply H1. vm_compute. lia.
  - apply (H2 0%nat (playConn proto.Minecraft_1_16 (OtherHandler "backendPlay") []));
      reflexivity.
Defined.

(** The two boundary cases: protocol 1.15.2 with Dimension 0, and protocol
    1.16 with Dimension 2; in the first the client's socket has received
    the four packets. *)
Lemma switch_buffers_join_and_respawns_witness :
  buffered ClientConn (events_since (switching proto.Minecraft_1_15_2 true) switched)
  = [PJoinGame overworld;
     PRespawn (set_rs_Dimension (-1) (respawnOf overworld));
     PRespawn (set_rs_Dimension 0 (respawnOf overworld))]
    ++ resetTitlePackets proto.Minecraft_1_15_2 /\
  buffered ClientConn (events_since (switching proto.Minecraft_1_16 true) switchedModern)
  = [PJoinGame nether;
     PRespawn (set_rs_Dimension 2 (respawnOf nether))]
    ++ resetTitlePackets proto.Minecraft_1_16 /\
  wire (conn (player switched))
  = [PJoinGame overworld;
     PRespawn (set_rs_Dimension (-1) (respawnOf overworld));
     PRespawn (set_rs_Dimension 0 (respawnOf overworld));
     PResetTitle proto.Minecraft_1_15_2].
Proof.
  assert (handleBackendJoinGame overworld 1 (switching proto.Minecraft_1_15_2 true)
          = (true, switched)) as E1 by (vm_compute; reflexivity).
  assert (handleBackendJoinGame nether 1 (switching proto.Minecraft_1_16 true)
          = (true, switchedModern)) as E2 by (vm_compute; reflexivity).
  destruct (switch_buffers_join_and_respawns overworld 1
              (switching proto.Minecraft_1_15_2 true) true switched eq_refl E1)
    as (H1 & _ & _ & _).
  destruct (switch_buffers_join_and_respawns nether 1
              (switching proto.Minecraft_1_16 true) true switchedModern eq_refl E2)
    as (_ & H2 & _ & _).
  split; [|split].
  - apply H1; [reflexivity|vm_compute; reflexivity|reflexivity].
  - apply H2; [reflexivity|vm_compute; discriminate].
  - vm_compute. reflexivity.
Defined.

(** A first join on protocol 1.15.2. *)
Lemma first_join_buffers_join_only_witness :
  spawned (handler joined) = true /\
  EvOnFirstJoin ∈ events_since (joining proto.Minecraft_1_15_2) joined /\
  buffered ClientConn (events_since (joining proto.Minecraft_1_15_2) joined)
  = PJoinGame overworld :: resetTitlePackets proto.Minecraft_1_15_2.
Proof.
  assert (handleBackendJoinGame overworld 0 (joining proto.Minecraft_1_15_2)
          = (true, joined)) as E by (vm_compute; reflexivity).
  destruct (first_join_buffers_join_only overworld 0
              (playConn proto.Minecraft_1_15_2 (OtherHandler "backendPlay") [])
              (joining proto.Minecraft_1_15_2) true joined eq_refl E)
    as (H1 & H2 & _).
  split; [exact H1|].
  destruct (H2 eq_refl) as (_ & _ & H3). exact (H3 eq_refl).
Defined.

(** MC|Brand passes on 1.12.2; acme:telemetry, unknown to the player,
    does not pass on protocol 755. *)
Lemma canForwardPluginMessage_rule_witness :
  fst (canForwardPluginMessage proto.Minecraft_1_12_2 brandMessage (onBackend [] 0)) = true /\
  fst (canForwardPluginMessage 755 telemetryMessage (onBackend [] 0)) <> true.
Proof.
  destruct (canForwardPluginMessage_rule proto.Minecraft_1_12_2 brandMessage (onBackend [] 0))
    as (_ & Hold & _).
  destruct (canForwardPluginMessage_rule 755 telemetryMessage (onBackend [] 0))
    as (_ & _ & Hnew).
  split.
  - apply Hold; [vm_compute; discriminate|]. left. reflexivity.
  - intros H. apply Hnew in H; [|vm_compute; discriminate].
    destruct H as [H|H]; [vm_compute in H; discriminate H|].
    exact (not_elem_of_empty (C:=gset string) _ H).
Defined.

(** A player whose server connection has no backend connection yet. *)
Lemma without_backend_packets_are_discarded_witness :
  handleChat (mkChat "hello" ChatMessage uuid.Nil) onUnconnected = (tt, onUnconnected) /\
  handlePluginMessage registerMessage onUnconnected = (Returned, onUnconnected).
Proof.
  destruct (without_backend_packets_are_discarded onUnconnected) as (H1 & H2 & _).
  - right. exists 0%nat. split; reflexivity.
  - split; [apply H1|apply H2].
Defined.

(** closeWith, then close, then closeKnown(false) on the player's
    connection. *)
Lemma close_is_single_shot_witness :
  disconnectedCount ClientConn
    (events_since (onBackend [] 0)
       (snd (doCloses ClientConn (CallCloseWith goodbye :: laterCloses) (onBackend [] 0))))
  = 1%nat /\
  doCloses ClientConn laterCloses
    (snd (doClose ClientConn (CallCloseWith goodbye) (onBackend [] 0)))
  = (repeat (Some ErrClosedConn) (length laterCloses),
     snd (doClose ClientConn (CallCloseWith goodbye) (onBackend [] 0))).
Proof.
  destruct (close_is_single_shot ClientConn
              (playConn proto.Minecraft_1_16 ClientPlayHandler [])
              ClientPlayHandler (onBackend [] 0) (CallCloseWith goodbye) laterCloses
              eq_refl eq_refl eq_refl eq_refl) as (H1 & H2 & _).
  split; [exact H1|exact H2].
Defined.

(** ** Further runs of the ceremony *)

(** A switch that fails at the first Respawn: the client connection is
    closed, the player torn down, completeJoin is not called and the
    current server stays what it was. *)
Example failed_switch_keeps_current_server :
  fst (handleBackendJoinGame overworld 1 failingSwitch) = false /\
  trace (snd (handleBackendJoinGame overworld 1 failingSwitch))
  = [EvBufferPacket ClientConn (PJoinGame overworld) true;
     EvBufferPacket ClientConn
       (PRespawn (set_rs_Dimension (-1) (respawnOf overworld))) false;
     EvDisconnected ClientConn;
     EvServerDisconnect 1; EvServerDisconnect 0;
     EvFire (DisconnectEvent SuccessfulLoginStatus)] /\
  connectedServer_ (player (snd (handleBackendJoinGame overworld 1 failingSwitch)))
  = Some 0%nat.
Proof. vm_compute. repeat split. Qed.

(** Below 1.16 a JoinGame for another dimension than 0 is followed by two
    Respawns as well: the first carries the zero value of the Dimension
    field. *)
Example switch_to_nether_below_1_16 :
  buffered ClientConn
    (trace (snd (handleBackendJoinGame nether 1 (switching proto.Minecraft_1_15_2 true))))
  = [PJoinGame nether;
     PRespawn (set_rs_Dimension 0 (respawnOf nether));
     PRespawn (set_rs_Dimension 2 (respawnOf nether));
     PResetTitle proto.Minecraft_1_15_2].
Proof. vm_compute. reflexivity. Qed.

(** closeWith over a transport that fails: the write closes the
    connection, [disconnected()] has fired once, and closeWith returns the
    already-closed error of its own close. *)
Example closeWith_over_failing_transport :
  fst (closeWith ClientConn goodbye
         (worldOf proto.Minecraft_1_16 [false] ∅ None None [] true []))
  = Some ErrClosedConn /\
  trace (snd (closeWith ClientConn goodbye
                (worldOf proto.Minecraft_1_16 [false] ∅ None None [] true [])))
  = [EvBufferPacket ClientConn goodbye false;
     EvDisconnected ClientConn;
     EvFire (DisconnectEvent SuccessfulLoginStatus);
     EvWritePacket ClientConn goodbye false].
Proof. vm_compute. repeat split. Qed.

(** * Further properties *)

Section Further.
Context {pluginPkg : PluginPackage} {commandPkg : CommandParsing}.

(** ** Connections apart *)

Lemma getConn_setConn_other r r' c w :
  r' <> r -> getConn r' (setConn r c w) = getConn r' w.
Proof.
  intros Hne. destruct r as [|s], r' as [|s']; simpl; try done.
  - by destruct (servers w !! s).
  - destruct (servers w !! s) as [sc|] eqn:E; [|done]. simpl.
    rewrite list_lookup_insert_ne; [done|]. congruence.
Qed.

Lemma closeKnown_eq r mk c w :
  getConn r w = Some c -> closeOnce c = false ->
  closeKnown r mk w
  = (if hd true (script c) then None else Some ErrTransport, afterClose r mk c w).
Proof.
  intros Hc Ho. unfold closeKnown. rewrite Hc, Ho.
  unfold bind at 1. erewrite update_eq by eassumption.
  unfold bind at 1.
  assert ((if mk then update r (set_knownDisconnect true) else ret ())
            (setConn r (set_closeOnce true c) w)
          = (tt, setConn r ((if mk then set_knownDisconnect true else id)
                              (set_closeOnce true c)) w)) as ->.
  { destruct mk.
    - erewrite update_eq by (by eapply getConn_setConn).
      by erewrite setConn_setConn by eassumption.
    - done. }
  unfold bind at 1. erewrite update_eq by (by eapply getConn_setConn).
  erewrite setConn_setConn by eassumption.
  unfold bind at 1. erewrite update_eq by (by eapply getConn_setConn).
  erewrite setConn_setConn by eassumption.
  unfold bind at 1. erewrite transport_eq by (by eapply getConn_setConn).
  erewrite setConn_setConn by eassumption.
  unfold bind at 1. erewrite update_eq by (by eapply getConn_setConn).
  erewrite setConn_setConn by eassumption.
  unfold bind at 1. erewrite load_eq by (by eapply getConn_setConn).
  match goal with |- context [setConn r ?c' w] =>
    replace c' with (closedConn mk c) by (by destruct mk, c) end.
  change (handler_ (closedConn mk c)) with (handler_ c).
  replace (hd true (script _)) with (hd true (script c)) by (by destruct mk, c).
  unfold afterClose. cbv zeta.
  set (w1 := setConn r (closedConn mk c) w).
  assert (getConn r w1 = Some (closedConn mk c)) as H1 by (by eapply getConn_setConn).
  clearbody w1.
  destruct (handler_ c) as [sh|]; [|done].
  unfold bind at 1. unfold bind at 1. unfold log at 1, modify.
  unfold bind at 1.
  destruct (disconnected sh _) as [[] w2] eqn:E2. cbn [snd].
  assert (getConn r w2 = Some (closedConn mk c)) as H2.
  { destruct sh; simpl in E2.
    - rewrite teardown_eq in E2. apply (f_equal snd) in E2. cbn [snd] in E2.
      rewrite <- E2.
      by rewrite getConn_set_trace, getConn_unregister, getConn_set_trace.
    - unfold ret in E2. injection E2 as <-. by rewrite getConn_set_trace. }
  unfold bind at 1. erewrite load_eq by eassumption.
  change (knownDisconnect (closedConn mk c)) with (mk || knownDisconnect c).
  unfold bind, ret. by destruct (hasPlayer sh && negb (mk || knownDisconnect c)).
Qed.


Lemma setConn_set_trace r c t w :
  setConn r c (set_trace t w) = set_trace t (setConn r c w).
Proof. destruct r as [|s]; simpl; [done|]. by destruct (servers w !! s). Qed.

Lemma set_trace_set_trace t t' w : set_trace t (set_trace t' w) = set_trace t w.
Proof. done. Qed.

Lemma trace_set_trace t w : trace (set_trace t w) = t.
Proof. done. Qed.

Lemma log_eq e w : log e w = (tt, set_trace (trace w ++ [e]) w).
Proof. done. Qed.

Lemma closeOnErr_some r e w :
  closeOnErr r (Some e) w = (tt, snd (closeKnown r true w)).
Proof. unfold closeOnErr, close, bind, ret. by destruct (closeKnown r true w). Qed.

Lemma closeOnErr_open r e c w :
  getConn r w = Some c -> closeOnce c = false ->
  closeOnErr r (Some e) w = (tt, afterClose r true c w).
Proof.
  intros G O. rewrite closeOnErr_some. rewrite (closeKnown_eq _ _ _ _ G O). reflexivity.
Qed.

Lemma closeOnErr_none r w : closeOnErr r None w = (tt, w).
Proof. done. Qed.

Lemma closeOnErr_closed r e c w :
  getConn r w = Some c -> closeOnce c = true ->
  closeOnErr r (Some e) w = (tt, w).
Proof.
  intros G O. rewrite closeOnErr_some. rewrite (closeKnown_closed _ _ _ _ G O). reflexivity.
Qed.

Lemma getConn_disconnected r sh w :
  getConn r (snd (disconnected sh w)) = getConn r w.
Proof.
  destruct sh; simpl; [|done]. rewrite teardown_eq. cbn [snd].
  by rewrite getConn_set_trace, getConn_unregister.
Qed.

Lemma getConn_afterClose r mk c w :
  getConn r w = Some c -> getConn r (afterClose r mk c w) = Some (closedConn mk c).
Proof.
  intros G. unfold afterClose. cbv zeta.
  pose proof (getConn_setConn r c (closedConn mk c) w G) as G1.
  destruct (handler_ c) as [sh|]; [|done].
  destruct (hasPlayer sh && _);
    by rewrite ?getConn_set_trace, getConn_disconnected, getConn_set_trace.
Qed.

(** Symbolic execution of the methods of a connection. *)
Ltac conn_known :=
  first [ eassumption
        | rewrite getConn_set_trace; conn_known
        | eapply getConn_setConn; conn_known
        | eapply getConn_afterClose; conn_known ].

Ltac run1 :=
  first
    [ erewrite load_eq by conn_known
    | erewrite update_eq by conn_known
    | erewrite transport_eq by conn_known
    | rewrite log_eq
    | rewrite closeOnErr_none
    | erewrite closeOnErr_open by (first [conn_known | done])
    | erewrite closeOnErr_closed by (first [conn_known | done])
    | erewrite closeKnown_eq by (first [conn_known | done])
    | erewrite closeKnown_closed by (first [conn_known | done]) ].

#[local] Arguments transport : simpl never.
#[local] Arguments update : simpl never.
#[local] Arguments load : simpl never.
#[local] Arguments log : simpl never.
#[local] Arguments closeOnErr : simpl never.
#[local] Arguments getConn : simpl never.
#[local] Arguments setConn : simpl never.
#[local] Arguments set_trace : simpl never.
#[local] Arguments afterClose : simpl never.
#[local] Arguments closedConn : simpl never.

Ltac conn_red :=
  cbv beta delta
    [set_closeOnce set_closed set_knownDisconnect set_cancelCalls set_sockClosed
     set_writeBuf set_wire set_script ret];
  cbn [protocol state handler_ closeOnce closed knownDisconnect cancelCalls sockClosed
       writeBuf wire script hd tl failed negb fst snd].

Ltac world_norm :=
  repeat first
    [ rewrite setConn_set_trace
    | rewrite trace_set_trace
    | rewrite set_trace_set_trace
    | rewrite trace_setConn
    | erewrite setConn_setConn by conn_known ].

Ltac run := repeat (first [run1 | unfold bind at 1]; conn_red; world_norm).

Ltac norm :=
  try unfold ret;
  repeat first
    [ rewrite setConn_set_trace
    | rewrite trace_set_trace
    | rewrite set_trace_set_trace
    | rewrite trace_setConn
    | erewrite setConn_setConn by conn_known ];
  simpl; rewrite <- ?app_assoc; simpl.

(** ** Writing *)

Lemma written_one call c :
  written [call] c
  = set_writeBuf (if flushes call then [] else writeBuf c ++ encoded call)
      (set_wire (wire c ++ (if flushes call then writeBuf c ++ encoded call else []))
         (set_script (drop (transports call) (script c)) c)).
Proof. unfold written. cbn. by rewrite Nat.add_0_r, app_nil_r. Qed.

Lemma doWrite_ok r c w call :
  getConn r w = Some c -> closed c = false -> sockClosed c = false ->
  forallb id (take (transports call) (script c)) = true ->
  doWrite r call w
  = (None, set_trace (trace w ++ succeeded r call) (setConn r (written [call] c) w)).
Proof.
  intros G C S F. rewrite written_one.
  destruct c as [pv st sh once cl kn cc sk buf wr scr]. cbn in C, S, F. subst cl sk.
  destruct call; cbn in F;
    destruct scr as [|[] [|[] [|[] scr]]]; try discriminate;
    unfold doWrite, WritePacket, Write, BufferPacket, BufferPayload, flush;
    run; norm; cbn [flushes encoded transports succeeded drop app];
    rewrite ?app_nil_r, <- ?app_assoc; reflexivity.
Qed.

Lemma written_nil c : written [] c = c.
Proof. destruct c. unfold written. simpl. by rewrite app_nil_r. Qed.

Lemma written_cons call calls c :
  written calls (written [call] c) = written (call :: calls) c.
Proof.
  destruct c as [pv st sh once cl kn cc sk buf wr scr]. unfold written. simpl.
  rewrite Nat.add_0_r, drop_drop, app_nil_r, <- app_assoc. done.
Qed.

Lemma forallb_take_add {A} (P : A -> bool) n m l :
  forallb P (take (n + m) l) = forallb P (take n l) && forallb P (take m (drop n l)).
Proof.
  revert l. induction n as [|n IH]; intros [|x l]; simpl; try done.
  - by rewrite take_nil.
  - by rewrite IH, andb_assoc.
Qed.

Lemma set_trace_id w : set_trace (trace w) w = w.
Proof. by destruct w. Qed.

(** X1.  A sequence of BufferPacket, BufferPayload, flush, WritePacket and
    Write calls on an open connection whose transport serves them all
    returns nil throughout; each flushing call moves the buffer, in the
    order it was filled, to the wire, the other calls append to the buffer;
    the trace gets the calls' own events, and only this connection and the
    trace change. *)
Theorem successful_writes_reach_the_wire_in_order r c w calls :
  getConn r w = Some c -> closed c = false -> sockClosed c = false ->
  forallb id (take (sum_list (transports <$> calls)) (script c)) = true ->
  doWrites r calls w
  = (repeat None (length calls),
     set_trace (trace w ++ concat (succeeded r <$> calls))
       (setConn r (written calls c) w)).
Proof.
  revert c w. induction calls as [|call calls IH]; intros c w G C S F.
  - simpl. unfold ret. rewrite written_nil, app_nil_r, (setConn_id _ _ _ G).
    by rewrite set_trace_id.
  - cbn [fmap list_fmap sum_list sum_list_with] in F.
    rewrite forallb_take_add in F. apply andb_prop in F as [F1 F2].
    cbn [doWrites]. unfold bind at 1. rewrite (doWrite_ok _ _ _ _ G C S F1).
    unfold bind at 1.
    erewrite (IH (written [call] c)); [|conn_known|done|done|].
    + unfold ret. norm. by rewrite written_cons.
    + rewrite written_one. done.
Qed.

Lemma doWrite_closed r c w call :
  getConn r w = Some c ->
  closed c = true -> closeOnce c = true -> sockClosed c = true ->
  doWrite r call w = (Some (refusal call), set_trace (trace w ++ [refused r call]) w).
Proof.
  intros G C O S.
  destruct c as [pv st sh once cl kn cc sk buf wr scr]. simpl in C, O, S. subst cl sk once.
  destruct call; unfold doWrite, WritePacket, Write, BufferPacket, BufferPayload, flush;
    run; by norm.
Qed.

(** X3.  A closed connection refuses every write call and is left as it
    is: BufferPacket, BufferPayload, WritePacket and Write answer
    ErrClosedConn, flush the error of the deadline on the closed socket;
    nothing but the refused calls is added to the trace, so in particular
    [disconnected()] does not run again. *)
Theorem closed_connection_refuses_every_write r c w calls :
  getConn r w = Some c ->
  closed c = true -> closeOnce c = true -> sockClosed c = true ->
  doWrites r calls w
  = ((fun call => Some (refusal call)) <$> calls,
     set_trace (trace w ++ (refused r <$> calls)) w).
Proof.
  revert c w. induction calls as [|call calls IH]; intros c w G C O S.
  - simpl. unfold ret. by rewrite app_nil_r, set_trace_id.
  - cbn [doWrites]. unfold bind at 1. rewrite (doWrite_closed _ _ _ _ G C O S).
    unfold bind at 1. erewrite (IH c); [|conn_known|done..].
    unfold ret. by norm.
Qed.

(** A write call on an open connection that meets a transport error: the
    connection is closed there, as [cf], after the events [pre] and before
    the events [post]. *)
Lemma doWrite_fails r c w call :
  getConn r w = Some c ->
  closed c = false -> closeOnce c = false -> sockClosed c = false ->
  forallb id (take (transports call) (script c)) = false ->
  exists cf pre post,
    doWrite r call w
    = (Some ErrTransport,
       let w1 := afterClose r true cf (set_trace (trace w ++ pre) (setConn r cf w)) in
       set_trace (trace w1 ++ post) w1) /\
    handler_ cf = handler_ c /\ knownDisconnect cf = knownDisconnect c /\
    closeOnce cf = false /\ wire cf = wire c /\
    forallb quiet pre = true /\ forallb quiet post = true /\
    refused r call ∈ pre ++ post.
Proof.
  intros G C O S F.
  destruct c as [pv st sh once cl kn cc sk buf wr scr]. cbn in C, O, S, F. subst cl sk once.
  destruct (doWrite r call w) as [e w'] eqn:E. revert E.
  destruct call; cbn in F;
    destruct scr as [|[] [|[] [|[] scr]]]; try discriminate;
    unfold doWrite, WritePacket, Write, BufferPacket, BufferPayload, flush;
    run; rewrite <- ?app_assoc; intros [= <- <-];
    lazymatch goal with
    | |- context [afterClose r true ?cf (set_trace (trace w ++ ?pre) _)] =>
        exists cf, pre
    end;
    cbv zeta;
    first [ exists []; split; [by rewrite app_nil_r, set_trace_id|]
          | eexists; split; [reflexivity|] ];
    repeat (split; [done|]); solve_in.
Qed.

Lemma closedConn_coherent mk c : coherent (closedConn mk c).
Proof. done. Qed.

Lemma doWrite_closes r c w call err w' :
  getConn r w = Some c -> coherent c ->
  doWrite r call w = (err, w') ->
  exists c',
    getConn r w' = Some c' /\ coherent c' /\
    closed c' = failed err /\ handler_ c' = handler_ c /\
    (failed err = true ->
       wire c' = wire c /\
       (closed c = false -> knownDisconnect c' = true /\ (0 < cancelCalls c')%nat)).
Proof.
  intros G [C S] E. destruct (closed c) eqn:Cl.
  - rewrite (doWrite_closed r c w call G) in E by congruence.
    injection E as <- <-. exists c. rewrite getConn_set_trace.
    repeat split; try done. congruence.
  - destruct (forallb id (take (transports call) (script c))) eqn:F.
    + rewrite (doWrite_ok r c w call G) in E by congruence.
      injection E as <- <-. eexists. split; [conn_known|].
      rewrite written_one. unfold coherent. cbn.
      repeat split; try done; congruence.
    + destruct (doWrite_fails r c w call G) as (cf & pre & post & E' & H & K & O & W & _);
        [congruence..|].
      rewrite E' in E. injection E as <- <-. exists (closedConn true cf).
      split; [cbv zeta; conn_known|]. repeat split; try done.
      unfold closedConn. cbn. lia.
Qed.

(** X2.  Over any sequence of BufferPacket, BufferPayload, flush,
    WritePacket and Write calls on a connection whose close-once state is
    coherent, the answers are nil up to the first error and errors from
    there on; the connection ends closed exactly when it was closed before
    or some call failed; its wire holds what the calls before the first
    error delivered and nothing of the later ones; a connection that was
    closed already is left as it was, and one closed by an error has
    marked the disconnect as known and called [cancelFunc]. *)
Theorem first_write_error_is_final r c w calls errs w' :
  getConn r w = Some c -> coherent c ->
  doWrites r calls w = (errs, w') ->
  exists n bad c',
    errs = repeat None n ++ bad /\ forallb failed bad = true /\
    length errs = length calls /\
    getConn r w' = Some c' /\ coherent c' /\
    closed c' = closed c || Nat.ltb n (length calls) /\
    wire c' = wire c ++ delivered (writeBuf c) (take n calls) /\
    (closed c = true -> n = 0%nat /\ c' = c) /\
    (closed c = false -> closed c' = true ->
       knownDisconnect c' = true /\ (0 < cancelCalls c')%nat).
Proof.
  revert c w errs w'.
  induction calls as [|call calls IH]; intros c w errs w' G Co E.
  - cbn in E. injection E as <- <-. exists 0%nat, [], c.
    cbn. rewrite app_nil_r, orb_false_r. repeat split; try done; try apply Co; congruence.
  - cbn [doWrites] in E. unfold bind at 1 in E.
    pose proof Co as [Co1 Co2].
    destruct (closed c) eqn:C.
    + rewrite (doWrite_closed r c w call G) in E by congruence.
      unfold bind in E. set (w1 := set_trace _ _) in *.
      destruct (doWrites r calls w1) as [errs1 w2] eqn:E1.
      injection E as <- <-.
      assert (getConn r w1 = Some c) as G1 by (subst w1; by rewrite getConn_set_trace).
      destruct (IH c w1 errs1 w2 G1 Co E1)
        as (n & bad & c' & -> & Hb & Hl & G' & Co' & Cl & W & K & _).
      destruct (K C) as [-> ->].
      exists 0%nat, (Some (refusal call) :: bad), c.
      cbn [repeat app take delivered length forallb failed andb] in *.
      rewrite C. repeat split; try done; try apply Co; try congruence.
    + destruct (forallb id (take (transports call) (script c))) eqn:F.
      * rewrite (doWrite_ok r c w call G C) in E by congruence.
        unfold bind in E.
        set (c1 := written [call] c) in *. set (w1 := set_trace _ _) in *.
        destruct (doWrites r calls w1) as [errs1 w2] eqn:E1.
        injection E as <- <-.
        assert (getConn r w1 = Some c1) as G1 by (subst w1; conn_known).
        assert (coherent c1 /\ closed c1 = false) as [Co' C1].
        { subst c1. rewrite written_one. unfold coherent. cbn.
          repeat split; congruence. }
        destruct (IH c1 w1 errs1 w2 G1 Co' E1)
          as (n & bad & c' & -> & Hb & Hl & G' & Co'' & Cl & W & _ & K).
        exists (S n), bad, c'. rewrite C1 in Cl.
        cbn [repeat app length take Nat.ltb Nat.leb orb] in *.
        split; [done|]. split; [done|]. split; [by rewrite Hl|].
        split; [done|]. split; [done|]. split; [done|].
        split; [|split; [done|]; intros _; by apply K].
        rewrite W. subst c1. rewrite written_one. cbn [wire writeBuf set_writeBuf set_wire
          set_script delivered]. by rewrite <- app_assoc.
      * destruct (doWrite_fails r c w call G C) as (cf & pre & post & E' & H & K & O & W & _);
          [congruence..|].
        rewrite E' in E. cbv zeta in E. unfold bind in E.
        set (w1 := set_trace _ _) in *.
        destruct (doWrites r calls w1) as [errs1 w2] eqn:E1.
        injection E as <- <-.
        assert (getConn r w1 = Some (closedConn true cf)) as G1 by (subst w1; conn_known).
        destruct (IH (closedConn true cf) w1 errs1 w2 G1 ltac:(done) E1)
          as (n & bad & c' & -> & Hb & Hl & G' & Co' & Cl & W' & K' & _).
        destruct (K' eq_refl) as [-> ->].
        exists 0%nat, (Some ErrTransport :: bad), (closedConn true cf).
        cbn [repeat app take delivered length forallb failed andb Nat.ltb Nat.leb orb] in *.
        split; [done|]. split; [done|]. split; [by rewrite Hl|].
        split; [done|]. split; [done|]. split; [done|].
        split; [by rewrite app_nil_r|]. split; [done|].
        intros _ _. unfold closedConn. cbn. split; [done|lia].
Qed.

(** ** Closing the player's connection *)

Ltac not_in :=
  let H := fresh in
  intros H; repeat (apply elem_of_cons in H as [H|H]; [discriminate|]);
  by apply elem_of_nil in H.

Lemma afterClose_player mk c w :
  getConn ClientConn w = Some c -> handler_ c = Some ClientPlayHandler ->
  afterClose ClientConn mk c w
  = set_trace (trace w ++ playerCloseEvents (mk || knownDisconnect c) w)
      (snd (unregisterConnection (setConn ClientConn (closedConn mk c) w))).
Proof.
  intros G H. unfold afterClose, playerCloseEvents. rewrite H. cbv zeta.
  cbn [disconnected hasPlayer].
  rewrite teardown_eq. cbn [snd andb].
  destruct w as [p h sv px tr]. cbn in G. injection G as <-.
  unfold unregisterConnection, setConn, set_trace. cbn.
  destruct (connInFlight p), (connectedServer_ p),
    (mk || knownDisconnect (conn p)) eqn:K;
    unfold closedConn; cbn; rewrite ?K, <- ?app_assoc; done.
Qed.

Lemma playerCloseEvents_frame known t c w :
  playerCloseEvents known (set_trace t (setConn ClientConn c w)) = playerCloseEvents known w.
Proof. by destruct w. Qed.

Lemma disconnectStatuses_app evs evs' :
  disconnectStatuses (evs ++ evs') = disconnectStatuses evs ++ disconnectStatuses evs'.
Proof.
  induction evs as [|e evs IH]; simpl; [done|].
  destruct e; simpl; try done.
  match goal with b : BusEvent |- _ => destruct b end; simpl; by rewrite ?IH.
Qed.

Lemma quiet_disconnectStatuses evs :
  forallb quiet evs = true -> disconnectStatuses evs = [].
Proof.
  induction evs as [|e evs IH]; simpl; [done|].
  intros [Q1 Q2]%andb_prop. destruct e; try done; simpl; auto.
Qed.

Lemma quiet_disconnectedCount r evs :
  forallb quiet evs = true -> disconnectedCount r evs = 0%nat.
Proof.
  induction evs as [|e evs IH]; simpl; [done|].
  intros [Q1 Q2]%andb_prop. destruct e; try done; simpl; auto.
Qed.

Lemma quiet_not_logged evs :
  forallb quiet evs = true -> EvLogDisconnected ∉ evs.
Proof.
  intros Q H. rewrite forallb_forall in Q. apply list_elem_of_In, Q in H. done.
Qed.

Lemma playerCloseEvents_statuses known w :
  disconnectStatuses (playerCloseEvents known w)
  = [statusTable (bool_decide (profileId (player w) ∈ registered (proxy w)))
       (disconnectDueToDuplicateConnection (player w)) known].
Proof.
  unfold playerCloseEvents.
  by destruct (connInFlight (player w)), (connectedServer_ (player w)), known.
Qed.

Lemma playerCloseEvents_count known w :
  disconnectedCount ClientConn (playerCloseEvents known w) = 1%nat.
Proof.
  unfold playerCloseEvents.
  by destruct (connInFlight (player w)), (connectedServer_ (player w)), known.
Qed.

Lemma playerCloseEvents_logged known w :
  EvLogDisconnected ∈ playerCloseEvents known w <-> known = false.
Proof.
  unfold playerCloseEvents.
  destruct (connInFlight (player w)), (connectedServer_ (player w)), known; cbn;
    (split; [try done; by not_in|try done; intros _; solve_in]).
Qed.

(** X4.  Closing the player's open connection, whose session handler is
    the client Play handler, adds to the trace: the disconnected callback,
    the disconnect of the in-flight and of the current server (each one
    that is there), one DisconnectEvent whose status is read with the
    known flag that the close leaves (markKnown or what was stored), and
    the "has disconnected" line exactly when that flag is unset.  The
    connection is closed, the player is out of the registry; a [close()]
    (markKnown) never reports CanceledByUser and never logs the line. *)
Theorem closing_the_player_reports_once mk w :
  closeOnce (conn (player w)) = false ->
  handler_ (conn (player w)) = Some ClientPlayHandler ->
  let known := mk || knownDisconnect (conn (player w)) in
  let unregistered := bool_decide (profileId (player w) ∈ registered (proxy w)) in
  let w' := snd (closeKnown ClientConn mk w) in
  events_since w w'
  = EvDisconnected ClientConn
      :: from_option (fun s => [EvServerDisconnect s]) [] (connInFlight (player w))
      ++ from_option (fun s => [EvServerDisconnect s]) [] (connectedServer_ (player w))
      ++ [EvFire (DisconnectEvent
            (statusTable unregistered
               (disconnectDueToDuplicateConnection (player w)) known))]
      ++ (if known then [] else [EvLogDisconnected]) /\
  conn (player w') = closedConn mk (conn (player w)) /\
  (profileId (player w) ∉ registered (proxy w')) /\
  (mk = true ->
     (CanceledByUserLoginStatus ∉ disconnectStatuses (events_since w w')) /\
     (EvLogDisconnected ∉ events_since w w')).
Proof.
  intros O H. cbv zeta.
  assert (getConn ClientConn w = Some (conn (player w))) as G by done.
  rewrite (closeKnown_eq _ _ _ _ G O). cbn [snd].
  rewrite (afterClose_player _ _ _ G H).
  erewrite events_since_app by (by rewrite trace_set_trace).
  split; [done|]. split; [by destruct w|]. split.
  - unfold setConn. cbn. intros [Hne _]%list_elem_of_filter. done.
  - intros ->. cbn [orb]. rewrite playerCloseEvents_statuses, playerCloseEvents_logged.
    split; [|done].
    destruct (bool_decide _), (disconnectDueToDuplicateConnection (player w)); cbn; by not_in.
Qed.

(** ** Disconnect *)

Lemma Disconnect_closed reason w :
  closed (conn (player w)) = true -> Disconnect reason w = (false, w).
Proof.
  intros C. unfold Disconnect, Active. unfold bind at 1. unfold bind at 1.
  erewrite load_eq by reflexivity. rewrite C. done.
Qed.

Lemma conn_of_player c w : getConn ClientConn w = Some c -> conn (player w) = c.
Proof. unfold getConn. by intros [= <-]. Qed.

(** X5.  [Disconnect] on an active player (open connection, client Play
    handler): whatever the transport does, the connection is closed and
    marked as a known disconnect, the Disconnect packet was handed to
    WritePacket, [disconnected()] ran once, the one DisconnectEvent carries
    the status of a known disconnect (so never CanceledByUser), the
    "has disconnected" line of closeKnown is not logged, the farewell line
    is logged only when the packet reached the wire, and a second
    [Disconnect] finds the player inactive and does nothing. *)
Theorem Disconnect_is_a_known_disconnect reason w :
  let c := conn (player w) in
  closed c = false -> closeOnce c = false -> sockClosed c = false ->
  handler_ c = Some ClientPlayHandler ->
  let logged := fst (Disconnect reason w) in
  let w' := snd (Disconnect reason w) in
  let evs := events_since w w' in
  closed (conn (player w')) = true /\
  knownDisconnect (conn (player w')) = true /\
  (exists ok, EvWritePacket ClientConn (PDisconnect reason) ok ∈ evs) /\
  disconnectedCount ClientConn evs = 1%nat /\
  disconnectStatuses evs
  = [statusTable (bool_decide (profileId (player w) ∈ registered (proxy w)))
       (disconnectDueToDuplicateConnection (player w)) true] /\
  (EvLogDisconnected ∉ evs) /\
  (logged = true ->
     wire (conn (player w')) = wire c ++ writeBuf c ++ [PDisconnect reason]) /\
  Disconnect reason w' = (false, w').
Proof.
  cbv zeta. intros C O S H.
  assert (getConn ClientConn w = Some (conn (player w))) as G by done.
  set (c := conn (player w)) in *.
  set (c0 := set_knownDisconnect true c).
  set (w0 := setConn ClientConn c0 w).
  assert (getConn ClientConn w0 = Some c0) as G0 by done.
  assert (Disconnect reason w
          = (let (_, w1) := doWrite ClientConn (CallWritePacket (PDisconnect reason)) w0 in
             let (err, w2) := close ClientConn w1 in
             (negb (failed err), w2))) as ->.
  { unfold Disconnect, Active. unfold bind at 1. unfold bind at 1.
    erewrite load_eq by eassumption. rewrite C. cbn [ret negb]. unfold bind at 1.
    rewrite (closeWith_open _ _ _ _ G C). unfold doWrite. fold c0 w0.
    destruct (WritePacket _ _ w0) as [? w1]. by destruct (close ClientConn w1). }
  destruct (forallb id (take 3 (script c))) eqn:F.
  - rewrite (doWrite_ok _ c0 w0 _ G0) by done.
    set (c1 := written _ c0). set (t1 := trace w0 ++ _).
    unfold close. erewrite closeKnown_eq by first [conn_known|done].
    rewrite afterClose_player by first [conn_known|done].
    cbn [fst snd]. world_norm. subst t1 w0. world_norm.
    rewrite playerCloseEvents_frame. cbn [orb].
    erewrite events_since_app by (rewrite trace_set_trace, <- app_assoc; reflexivity).
    match goal with |- context [conn (player ?W)] =>
      assert (getConn ClientConn W = Some (closedConn true c1)) as G'
        by (rewrite getConn_set_trace, getConn_unregister; conn_known)
    end.
    apply conn_of_player in G'. rewrite G'.
    split; [done|]. split; [done|]. split; [exists true; solve_in|].
    rewrite disconnectedCount_app, disconnectStatuses_app, playerCloseEvents_count,
      playerCloseEvents_statuses.
    split; [done|]. split; [done|]. split.
    { rewrite elem_of_app, playerCloseEvents_logged. intros [Hin|]; [|done].
      revert Hin. by not_in. }
    split.
    { intros _. subst c1. rewrite written_one. unfold closedConn. cbn.
      by rewrite <- ?app_assoc. }
    by apply Disconnect_closed.
  - destruct (doWrite_fails ClientConn c0 w0 (CallWritePacket (PDisconnect reason)) G0)
      as (cf & pre & post & -> & Hh & Hk & Ho & Hw & Qpre & Qpost & Hin); [done..|].
    cbv zeta. unfold close.
    match goal with |- context [closeKnown ClientConn true ?W] =>
      assert (getConn ClientConn W = Some (closedConn true cf)) as G1 by conn_known;
      rewrite (closeKnown_closed _ _ _ _ G1 eq_refl)
    end.
    change (handler_ c0) with (handler_ c) in Hh. rewrite H in Hh.
    rewrite afterClose_player by first [conn_known|done].
    cbn [fst snd negb failed]. subst w0. world_norm.
    rewrite playerCloseEvents_frame. cbn [orb].
    erewrite events_since_app by (rewrite trace_set_trace, <- !app_assoc; reflexivity).
    match goal with |- context [conn (player ?W)] =>
      assert (getConn ClientConn W = Some (closedConn true cf)) as G'
        by (rewrite getConn_set_trace, getConn_unregister; conn_known)
    end.
    apply conn_of_player in G'. rewrite G'.
    split; [done|]. split; [done|].
    rewrite !disconnectedCount_app, !disconnectStatuses_app, playerCloseEvents_count,
      playerCloseEvents_statuses, !quiet_disconnectedCount, !quiet_disconnectStatuses by done.
    split.
    { exists false. cbn [refused] in Hin.
      apply elem_of_app in Hin as [Hin|Hin]; rewrite !elem_of_app; auto. }
    split; [done|]. split; [done|]. split.
    { rewrite !elem_of_app, playerCloseEvents_logged.
      intros [Hl|[|Hl]]; [|done|]; revert Hl; by apply quiet_not_logged. }
    split; [done|].
    by apply Disconnect_closed.
Qed.

(** ** The next server to try *)

Lemma tryFrom_found {RS} (cfg : tryConfig RS) skip rest : forall i index s index',
  tryFrom cfg skip i rest index = (Some s, index') ->
  exists k name,
    index' = (i + k)%nat /\ rest !! k = Some name /\
    skip name = false /\ Server cfg name = Some s /\
    (forall j name', (j < k)%nat -> rest !! j = Some name' ->
       skip name' = true \/ Server cfg name' = None).
Proof.
  induction rest as [|toTry rest IH]; intros i index s index' E; simpl in E; [done|].
  destruct (skip toTry) eqn:Sk.
  - destruct (IH _ _ _ _ E) as (k & name & -> & L & Sn & Sv & Hb).
    exists (S k), name.
      split; [lia|]. split; [done|]. split; [done|]. split; [done|].
    intros [|j] name' Hj Hl; simpl in Hl; [injection Hl as <-; auto|].
    apply (Hb j); [lia|done].
  - destruct (Server cfg toTry) as [s'|] eqn:Sv.
    + injection E as <- <-. exists 0%nat, toTry.
      split; [lia|]. split; [done|]. split; [done|]. split; [done|].
      intros j name' Hj. lia.
    + destruct (IH _ _ _ _ E) as (k & name & -> & L & Sn & Sv' & Hb).
      exists (S k), name.
      split; [lia|]. split; [done|]. split; [done|]. split; [done|].
      intros [|j] name' Hj Hl; simpl in Hl; [injection Hl as <-; auto|].
      apply (Hb j); [lia|done].
Qed.

Lemma tryFrom_none {RS} (cfg : tryConfig RS) skip rest : forall i index,
  fst (tryFrom cfg skip i rest index) = None <->
  (forall j name, rest !! j = Some name -> skip name = true \/ Server cfg name = None).
Proof.
  induction rest as [|toTry rest IH]; intros i index; simpl.
  - split; [|done]. intros _ j name Hl. by rewrite lookup_nil in Hl.
  - destruct (skip toTry) eqn:Sk.
    + rewrite IH. split.
      * intros H [|j] name Hl; simpl in Hl; [injection Hl as <-; auto|]. by apply (H j).
      * intros H j name Hl. by apply (H (S j)).
    + destruct (Server cfg toTry) as [s'|] eqn:Sv; simpl.
      * split; [done|]. intros H. destruct (H 0%nat toTry eq_refl); congruence.
      * rewrite IH. split.
        -- intros H [|j] name Hl; simpl in Hl; [injection Hl as <-; auto|]. by apply (H j).
        -- intros H j name Hl. by apply (H (S j)).
Qed.

Lemma tryFrom_index {RS} (cfg : tryConfig RS) skip rest : forall i index,
  (index <= i)%nat -> (index <= snd (tryFrom cfg skip i rest index))%nat.
Proof.
  induction rest as [|toTry rest IH]; intros i index Hi; simpl; [done|].
  destruct (skip toTry).
  - apply IH. lia.
  - destruct (Server cfg toTry); simpl; [done|].
    etransitivity; [exact Hi|]. apply IH. lia.
Qed.

Lemma tryFrom_all_passed {RS} (cfg : tryConfig RS) skip rest : forall i index,
  (forall j name, rest !! j = Some name -> skip name = true) ->
  tryFrom cfg skip i rest index = (None, index).
Proof.
  induction rest as [|toTry rest IH]; intros i index H; simpl; [done|].
  rewrite (H 0%nat toTry eq_refl). apply IH. intros j name Hl. by apply (H (S j)).
Qed.

Lemma tryFrom_none_index {RS} (cfg : tryConfig RS) skip rest : forall i index index',
  tryFrom cfg skip i rest index = (None, index') ->
  (index' = index /\ forall j name, rest !! j = Some name -> skip name = true) \/
  (exists k name,
     index' = (i + k)%nat /\ rest !! k = Some name /\
     skip name = false /\ Server cfg name = None /\
     forall j name', (k < j)%nat -> rest !! j = Some name' -> skip name' = true).
Proof.
  induction rest as [|toTry rest IH]; intros i index index' E; simpl in E.
  - injection E as <-. left. split; [done|]. intros j name Hl. by rewrite lookup_nil in Hl.
  - destruct (skip toTry) eqn:Sk.
    + destruct (IH _ _ _ E) as [[-> H]|(k & name & -> & L & Sn & Sv & Ha)].
      * left. split; [done|]. intros [|j] name Hl; simpl in Hl; [by injection Hl as <-|].
        by apply (H j).
      * right. exists (S k), name. split; [lia|]. split; [done|]. split; [done|].
        split; [done|]. intros [|j] name' Hj Hl; [lia|]. apply (Ha j); [lia|done].
    + destruct (Server cfg toTry) as [s'|] eqn:Sv; [done|].
      destruct (IH _ _ _ E) as [[-> H]|(k & name & -> & L & Sn & Sv' & Ha)].
      * right. exists 0%nat, toTry. split; [lia|]. split; [done|]. split; [done|].
        split; [done|]. intros [|j] name' Hj Hl; [lia|]. by apply (H j).
      * right. exists (S k), name. split; [lia|]. split; [done|]. split; [done|].
        split; [done|]. intros [|j] name' Hj Hl; [lia|]. apply (Ha j); [lia|done].
Qed.

Lemma seeded_again {RS} (cfg : tryConfig RS) st index :
  seeded cfg (mkTry (seeded cfg st) index) = seeded cfg st.
Proof.
  unfold seeded. cbn [serversToTry].
  destruct (serversToTry st) as [|a l], (ForcedHosts cfg) as [|b f],
    (AttemptConnectionOrder cfg) as [|c o]; done.
Qed.


(** X11.  [nextServerToTry] returns nil exactly when every name from
    [tryIndex] on in the list walked is passed over or has no registered
    server. *)
Theorem nextServerToTry_nil_iff_nothing_fits {RS} (cfg : tryConfig RS) connected inFlight current st :
  fst (nextServerToTry cfg connected inFlight current st) = None <->
  (forall j name,
     (tryIndex st <= j)%nat -> seeded cfg st !! j = Some name ->
     passedOver connected inFlight current name = true \/ Server cfg name = None).
Proof.
  unfold nextServerToTry. cbv zeta.
  destruct (tryFrom _ _ _ _ _) as [found index] eqn:E. cbn [fst].
  replace found with (fst (tryFrom cfg (passedOver connected inFlight current)
    (tryIndex st) (drop (tryIndex st) (seeded cfg st)) (tryIndex st))) by (by rewrite E).
  rewrite tryFrom_none. split.
  - intros H j name Hj Hl. apply (H (j - tryIndex st)%nat).
    rewrite lookup_drop. by replace (tryIndex st + (j - tryIndex st))%nat with j by lia.
  - intros H j name Hl. rewrite lookup_drop in Hl.
    apply (H (tryIndex st + j)%nat); [lia|done].
Qed.

(** X12.  [nextServerToTry] does not step past what it returns: called
    again with the same servers to pass over, it gives the same answer and
    leaves the same state. *)
Theorem nextServerToTry_repeats_its_answer {RS} (cfg : tryConfig RS) connected inFlight current st :
  let result := nextServerToTry cfg connected inFlight current st in
  nextServerToTry cfg connected inFlight current (snd result) = result.
Proof.
  cbv zeta. unfold nextServerToTry. cbv zeta.
  set (skip := passedOver connected inFlight current).
  destruct (tryFrom cfg skip (tryIndex st) (drop (tryIndex st) (seeded cfg st))
              (tryIndex st)) as [found index] eqn:E.
  cbn [snd tryIndex]. rewrite seeded_again.
  assert (tryFrom cfg skip index (drop index (seeded cfg st)) index = (found, index)) as ->;
    [|done].
  destruct found as [s|].
  - destruct (tryFrom_found _ _ _ _ _ _ _ E) as (k & name & -> & L & Sn & Sv & Hb).
    rewrite lookup_drop in L. rewrite (drop_S _ _ _ L). simpl. by rewrite Sn, Sv.
  - destruct (tryFrom_none_index _ _ _ _ _ _ E) as [[-> H]|(k & name & -> & L & Sn & Sv & Ha)].
    + by apply tryFrom_all_passed.
    + rewrite lookup_drop in L. rewrite (drop_S _ _ _ L). simpl. rewrite Sn, Sv.
      apply tryFrom_all_passed. intros j name' Hl. rewrite lookup_drop in Hl.
      apply (Ha (S k + j)%nat); [lia|]. rewrite lookup_drop. rewrite <- Hl. f_equal. lia.
Qed.

(** ** Reading *)

(** X6.  [handleReadErr] calls a read error recoverable exactly when it is
    not a silent error and is EAGAIN or a network error that says it is
    temporary; a temporary error is retried even when it is a timeout, and
    nothing else is. *)
Theorem handleReadErr_retries_eagain_and_temporary_only err :
  handleReadErr err = true <->
  asSilent err = false /\
  (isEAGAIN err = true \/
   exists netErr, asOpError err = Some netErr /\ op_Temporary netErr = true).
Proof.
  unfold handleReadErr.
  destruct (asSilent err); [split; [done|by intros [[=] _]]|].
  destruct (isEAGAIN err); [split; [auto|done]|].
  destruct (asOpError err) as [netErr|].
  - destruct (op_Temporary netErr) eqn:T.
    + split; [|done]. intros _. split; [done|]. right. by exists netErr.
    + assert (match (if op_Timeout netErr then Some false
                     else if op_ConnClosed netErr then Some false else None) with
              | Some recoverable => recoverable
              | None => if isUnrecoverable err then false else false
              end = false) as ->
        by (by destruct (op_Timeout netErr), (op_ConnClosed netErr), (isUnrecoverable err)).
      split; [done|]. intros [_ [[=]|(n & [= <-] & H)]]. congruence.
  - cbv zeta. assert ((if isUnrecoverable err then false else false) = false) as ->
      by (by destruct (isUnrecoverable err)).
    split; [done|]. by intros [_ [[=]|(n & [=] & _)]].
Qed.

Lemma readLoop_unfold ticks w :
  readLoop ticks w
  = (if Nat.ltb 0 (cancelCalls (conn (player w)))
     then (_ <- closeKnown ClientConn false ;; ret ReadLoopReturned) w
     else
       match ticks with
       | [] => (ReadLoopRunning, w)
       | ParentDone :: _ => (_ <- closeKnown ClientConn false ;; ret ReadLoopReturned) w
       | Reads next now now' :: rest =>
           (result <- loop next now now' ;;
            match result with
            | LoopResult _ => readLoop rest
            | LoopFatal msg => ret (ReadLoopFatal msg)
            end) w
       | Meanwhile call :: rest => (_ <- doClose ClientConn call ;; readLoop rest) w
       end).
Proof.
  destruct ticks as [|[| |] rest]; cbn [readLoop]; unfold bind at 1;
    (erewrite load_eq by reflexivity);
    destruct (Nat.ltb 0 (cancelCalls (conn (player w)))); try done.
  unfold bind. destruct (loop _ _ _ w) as [[[]|] w1]; done.
Qed.

(** X7.  Read errors alone never end [readLoop]: over rounds that all meet
    a read error, recoverable or not, with the context not cancelled, the
    loop is still running afterwards and the world is as it was (the
    [break] leaves the [select] only, and nothing is closed). *)
Theorem read_errors_do_not_end_readLoop ticks w :
  Forall (fun t => exists err now now', t = Reads (ReadFailed err) now now') ticks ->
  cancelCalls (conn (player w)) = 0%nat ->
  readLoop ticks w = (ReadLoopRunning, w).
Proof.
  intros H C. induction H as [|t ticks (err & now & now' & ->) _ IH];
    rewrite readLoop_unfold, C; cbn [Nat.ltb Nat.leb]; [done|].
  unfold bind, loop. by destruct (handleReadErr err).
Qed.

(** *** What the handlers leave of the player's connection *)

Lemma keeps_ret {A} (a : A) : keepsClient (ret a).
Proof. done. Qed.

Lemma keeps_bind {A B} (m : M A) (k : A -> M B) :
  keepsClient m -> (forall a, keepsClient (k a)) -> keepsClient (bind m k).
Proof.
  intros Hm Hk w. unfold bind. specialize (Hm w). destruct (m w) as [a w1].
  rewrite <- Hm. apply Hk.
Qed.

Lemma keeps_gets {A} (f : World -> A) : keepsClient (gets f).
Proof. done. Qed.

Lemma keeps_modify (f : World -> World) :
  (forall w, conn (player (f w)) = conn (player w)) -> keepsClient (modify f).
Proof. intros H w. apply H. Qed.

Lemma keeps_log e : keepsClient (log e).
Proof. done. Qed.

Lemma keeps_load {A} r (f : minecraftConn -> A) nil : keepsClient (load r f nil).
Proof. done. Qed.

Lemma keeps_fire e : keepsClient (fire e).
Proof. done. Qed.

Lemma conn_setConn_backend s c w :
  conn (player (setConn (BackendConn s) c w)) = conn (player w).
Proof. unfold setConn. by destruct (servers w !! s). Qed.

Lemma keeps_update s f : keepsClient (update (BackendConn s) f).
Proof.
  intros w. unfold update, modify. cbn [snd].
  destruct (getConn _ w); [apply conn_setConn_backend|done].
Qed.

Lemma keeps_transport s : keepsClient (transport (BackendConn s)).
Proof.
  intros w. unfold transport.
  destruct (getConn _ w) as [c|]; [|done].
  destruct (script c); [done|apply conn_setConn_backend].
Qed.

Lemma player_set_trace t w : player (set_trace t w) = player w.
Proof. done. Qed.

Lemma keeps_disconnected sh : keepsClient (disconnected sh).
Proof. intros w. destruct sh; [|done]. cbn [disconnected]. by rewrite teardown_eq. Qed.

Lemma keeps_closeKnown s mk : keepsClient (closeKnown (BackendConn s) mk).
Proof.
  intros w. destruct (getConn (BackendConn s) w) as [c|] eqn:G.
  2:{ unfold closeKnown. by rewrite G. }
  destruct (closeOnce c) eqn:O.
  - by rewrite (closeKnown_closed _ _ _ _ G O).
  - rewrite (closeKnown_eq _ _ _ _ G O). cbn [snd]. unfold afterClose. cbv zeta.
    destruct (handler_ c) as [sh|]; [|apply conn_setConn_backend].
    pose proof (keeps_disconnected sh) as Hd. unfold keepsClient in Hd.
    destruct (hasPlayer sh && _); rewrite ?player_set_trace, Hd, player_set_trace;
      apply conn_setConn_backend.
Qed.

Lemma keeps_closeOnErr s err : keepsClient (closeOnErr (BackendConn s) err).
Proof.
  destruct err; [|done]. unfold closeOnErr, close.
  apply keeps_bind; [apply keeps_closeKnown|]. intros; apply keeps_ret.
Qed.

Lemma keeps_sc_conn {A} s (k : option ConnRef -> M A) :
  keepsClient (k None) -> keepsClient (k (Some (BackendConn s))) ->
  keepsClient (bind (sc_conn s) k).
Proof.
  intros H0 H1 w. unfold bind, sc_conn, gets.
  destruct (getConn (BackendConn s) w); [apply H1|apply H0].
Qed.

Lemma keeps_canForward {A} (k : option ConnRef -> M A) :
  keepsClient (k None) -> (forall s, keepsClient (k (Some (BackendConn s)))) ->
  keepsClient (bind canForward k).
Proof.
  intros H0 H1 w. unfold bind at 1.
  assert (exists a, canForward w = (a, w) /\ (a = None \/ exists s, a = Some (BackendConn s)))
    as (a & -> & Ha).
  { unfold canForward, bind, connectedServer, sc_conn, sc_phase_of, serverField, gets, ret.
    destruct (connectedServer_ (player w)) as [s|]; [|eauto].
    destruct (getConn (BackendConn s) w); [|eauto].
    destruct (bp_consideredComplete _); eauto. }
  destruct Ha as [->|(s & ->)]; [apply H0|apply H1].
Qed.

Lemma keeps_lockedKnownChannels fn : keepsClient (lockedKnownChannels fn).
Proof. intros w. unfold lockedKnownChannels. by destruct (pluginChannelsMu (player w)). Qed.

Ltac keeps :=
  repeat first
    [ apply keeps_sc_conn
    | apply keeps_canForward; [|intros ?]
    | apply keeps_lockedKnownChannels
    | apply keeps_ret
    | apply keeps_gets
    | apply keeps_log
    | apply keeps_load
    | apply keeps_fire
    | apply keeps_update
    | apply keeps_transport
    | apply keeps_closeKnown
    | apply keeps_closeOnErr
    | apply keeps_bind; [|intros ?]
    | match goal with
      | |- keepsClient (if ?b then _ else _) => destruct b
      | |- keepsClient (match ?x with _ => _ end) => destruct x
      end ].

Lemma keeps_BufferPacket s p : keepsClient (BufferPacket (BackendConn s) p).
Proof. unfold BufferPacket. keeps. Qed.

Lemma keeps_flush s : keepsClient (flush (BackendConn s)).
Proof. unfold flush. keeps. Qed.

Lemma keeps_WritePacket s p : keepsClient (WritePacket (BackendConn s) p).
Proof. unfold WritePacket. keeps; first [apply keeps_BufferPacket|apply keeps_flush]. Qed.

Lemma keeps_Write s payload : keepsClient (Write (BackendConn s) payload).
Proof. unfold Write. keeps; apply keeps_flush. Qed.

Lemma keeps_forwardToServer p : keepsClient (forwardToServer p).
Proof.
  unfold forwardToServer. keeps.
Qed.

Lemma keeps_handleUnknownPacket payload : keepsClient (handleUnknownPacket payload).
Proof.
  unfold handleUnknownPacket. keeps.
Qed.

Lemma keeps_setSettings s : keepsClient (setSettings s).
Proof. unfold setSettings. keeps. by apply keeps_modify. Qed.

Lemma keeps_handleKeepAlive p now now' : keepsClient (handleKeepAlive p now now').
Proof.
  unfold handleKeepAlive, connectedServer, serverField. keeps.
  all: apply keeps_modify; intros w; try done; by destruct (servers w !! _).
Qed.

Lemma keeps_handleChat p : keepsClient (handleChat p).
Proof.
  unfold handleChat, connectedServer, Active. keeps.
  all: destruct (extract _) as [[cmd args] ?]; keeps.
Qed.

Lemma keeps_handlePluginMessage pk : keepsClient (handlePluginMessage pk).
Proof.
  unfold handlePluginMessage, connectedServer, connectionInFlight, phase, phaseHandle,
    sc_phase_of, serverField.
  apply keeps_bind; [keeps|]. intros [s|]; [|keeps].
  keeps. by apply keeps_modify.
Qed.

Lemma keeps_handlePacket pack now now' : keepsClient (handlePacket pack now now').
Proof.
  unfold handlePacket.
  destruct pack;
    repeat first
      [ apply keeps_handleKeepAlive | apply keeps_handleChat
      | apply keeps_handlePluginMessage | apply keeps_setSettings
      | apply keeps_forwardToServer | apply keeps_ret
      | apply keeps_bind; [|intros ?] ].
Qed.

Lemma keeps_loop next now now' : keepsClient (loop next now now').
Proof.
  unfold loop. destruct next;
    repeat first
      [ apply keeps_handleUnknownPacket | apply keeps_handlePacket
      | apply keeps_ret | apply keeps_load
      | apply keeps_bind; [|intros ?]
      | match goal with
        | |- keepsClient (if ?b then _ else _) => destruct b
        | |- keepsClient (match ?x with _ => _ end) => destruct x
        end ].
Qed.

(** *** The read loop and the close *)

Lemma closeKnown_shuts r mk c w :
  getConn r w = Some c -> coherent c ->
  exists c',
    getConn r (snd (closeKnown r mk w)) = Some c' /\ coherent c' /\ closed c' = true /\
    (closed c = false -> closeKnown r mk w = (if hd true (script c) then None
                                              else Some ErrTransport, afterClose r mk c w) /\
                         (0 < cancelCalls c')%nat).
Proof.
  intros G [C S]. destruct (closeOnce c) eqn:O.
  - rewrite (closeKnown_closed _ _ _ _ G O). exists c. cbn [snd].
    split; [done|]. split; [by split; congruence|]. split; congruence.
  - rewrite (closeKnown_eq _ _ _ _ G O). exists (closedConn mk c). cbn [snd].
    split; [by apply getConn_afterClose|]. split; [done|]. split; [done|].
    intros _. split; [done|]. unfold closedConn. cbn. lia.
Qed.

Lemma doClose_shuts r call c w :
  getConn r w = Some c -> coherent c ->
  exists c',
    getConn r (snd (doClose r call w)) = Some c' /\ coherent c' /\ closed c' = true /\
    (closed c = false -> (0 < cancelCalls c')%nat).
Proof.
  intros G Co.
  assert (forall mk c w, getConn r w = Some c -> coherent c ->
    exists c', getConn r (snd (closeKnown r mk w)) = Some c' /\ coherent c' /\
      closed c' = true /\ (closed c = false -> (0 < cancelCalls c')%nat)) as HK.
  { intros mk c0 w0 G0 Co0.
    destruct (closeKnown_shuts r mk c0 w0 G0 Co0) as (c' & G' & Co' & Cl' & H).
    exists c'. split; [done|]. split; [done|]. split; [done|].
    intros Hc. by apply H. }
  destruct call as [|mk|p]; cbn [doClose]; [by apply HK|by apply HK|].
  destruct (closed c) eqn:Cl.
  - rewrite (closeWith_closed _ _ _ _ G Cl). exists c. by split.
  - rewrite (closeWith_open _ _ _ _ G Cl).
    set (c0 := set_knownDisconnect true c). set (w0 := setConn r c0 w).
    assert (getConn r w0 = Some c0) as G0 by (by eapply getConn_setConn).
    assert (coherent c0) as Co0 by done.
    destruct (WritePacket r p w0) as [err w1] eqn:E.
    destruct (doWrite_closes r c0 w0 (CallWritePacket p) err w1 G0 Co0 E)
      as (c1 & G1 & Co1 & Cl1 & _ & F1).
    destruct (HK true c1 w1 G1 Co1) as (c2 & G2 & Co2 & Cl2 & H2).
    exists c2. unfold close. split; [done|]. split; [done|]. split; [done|]. intros _.
    destruct (failed err) eqn:Fe; [|by apply H2].
    destruct (F1 eq_refl) as [_ F2]. destruct (F2 Cl) as [_ Hc].
    destruct Co1 as [Co1 _].
    rewrite (closeKnown_closed _ _ _ _ G1) in G2 by congruence.
    cbn [snd] in G2. congruence.
Qed.

(** X8.  Whenever [readLoop] returns, the connection is closed: over any
    rounds of reads, handled packets and closes by other goroutines, from
    a coherent close-once state. *)
Theorem readLoop_returns_only_closed ticks w w' :
  coherent (conn (player w)) ->
  readLoop ticks w = (ReadLoopReturned, w') ->
  closed (conn (player w')) = true.
Proof.
  assert (forall w w', coherent (conn (player w)) ->
            (_ <- closeKnown ClientConn false ;; ret ReadLoopReturned) w
            = (ReadLoopReturned, w') -> closed (conn (player w')) = true) as Hret.
  { intros u u' Co E.
    destruct (closeKnown_shuts ClientConn false _ u eq_refl Co) as (c' & G' & _ & Cl' & _).
    unfold bind, ret in E. destruct (closeKnown ClientConn false u) as [e w1].
    injection E as <-. cbn [snd] in G'. apply conn_of_player in G'. congruence. }
  revert w w'. induction ticks as [|t ticks IH]; intros w w' Co; rewrite readLoop_unfold;
    destruct (Nat.ltb 0 _); try (by apply Hret); [done|].
  destruct t as [|next now now'|call]; [by apply Hret| |].
  - unfold bind. pose proof (keeps_loop next now now' w) as K.
    destruct (loop next now now' w) as [[again|msg] w1]; [|done]. cbn [snd] in K.
    apply IH. by rewrite K.
  - unfold bind.
    destruct (doClose_shuts ClientConn call _ w eq_refl Co) as (c' & G' & Co' & _).
    destruct (doClose ClientConn call w) as [e w1]. cbn [snd] in G'.
    apply conn_of_player in G'. apply IH. by rewrite G'.
Qed.

(** X9.  When another goroutine closes the open connection (close,
    closeKnown or closeWith), [readLoop] returns at its next round without
    reading further, and its deferred closeKnown(false) changes nothing:
    the world is the one the close left. *)
Theorem close_ends_readLoop call rest w :
  coherent (conn (player w)) -> closed (conn (player w)) = false ->
  cancelCalls (conn (player w)) = 0%nat ->
  readLoop (Meanwhile call :: rest) w = (ReadLoopReturned, snd (doClose ClientConn call w)).
Proof.
  intros Co Cl Cc. rewrite readLoop_unfold, Cc. cbn [Nat.ltb Nat.leb].
  unfold bind at 1.
  destruct (doClose_shuts ClientConn call _ w eq_refl Co) as (c' & G' & [Co' _] & Cl' & H).
  destruct (doClose ClientConn call w) as [e w1]. cbn [snd] in *.
  rewrite readLoop_unfold. rewrite (conn_of_player _ _ G').
  apply H in Cl. apply Nat.ltb_lt in Cl. rewrite Cl.
  unfold bind, ret. by rewrite (closeKnown_closed _ _ _ _ G') by congruence.
Qed.

(** ** The queue of login plugin messages *)

Lemma setConn_set_handler r c h w :
  setConn r c (set_handler h w) = set_handler h (setConn r c w).
Proof. destruct r as [|s]; unfold setConn; cbn; [done|]. by destruct (servers w !! s). Qed.

Lemma handler_setConn r c w : handler (setConn r c w) = handler w.
Proof. destruct r as [|s]; unfold setConn; cbn; [done|]. by destruct (servers w !! s). Qed.

Lemma set_handler_id w : set_handler (handler w) w = w.
Proof. by destruct w. Qed.

Lemma set_handler_set_handler h h' w : set_handler h (set_handler h' w) = set_handler h w.
Proof. done. Qed.

Lemma set_trace_set_handler t h w :
  set_trace t (set_handler h w) = set_handler h (set_trace t w).
Proof. done. Qed.

Lemma getConn_set_handler r h w : getConn r (set_handler h w) = getConn r w.
Proof. by destruct r. Qed.

Lemma succeeded_queuedCalls s queue :
  concat (succeeded (BackendConn s) <$> queuedCalls queue) = backendPlan s queue.
Proof.
  unfold backendPlan, queuedCalls. induction queue as [|pm queue IH]; [done|].
  cbn. by f_equal.
Qed.

Lemma transports_queuedCalls queue :
  sum_list (transports <$> queuedCalls queue) = length queue.
Proof.
  unfold queuedCalls. induction queue as [|pm queue IH]; [done|]. cbn. by f_equal.
Qed.

Lemma sendQueued_ok s queue : forall c w,
  getConn (BackendConn s) w = Some c -> closed c = false -> sockClosed c = false ->
  forallb id (take (length queue) (script c)) = true ->
  loginPluginMessages (handler w) = queue ->
  sendQueued (BackendConn s) queue w
  = (tt, set_handler (mkHandler (spawned (handler w)) [])
           (set_trace (trace w ++ backendPlan s queue)
              (setConn (BackendConn s) (written (queuedCalls queue) c) w))).
Proof.
  induction queue as [|pm queue IH]; intros c w G C S F Q.
  - cbn. unfold ret. rewrite written_nil, app_nil_r, (setConn_id _ _ _ G), set_trace_id.
    rewrite <- Q. destruct w as [p [sp q] sv px tr]. done.
  - cbn [sendQueued]. unfold bind at 1, modify.
    set (w0 := set_handler _ w).
    assert (getConn (BackendConn s) w0 = Some c) as G0
      by (subst w0; by rewrite getConn_set_handler).
    change (length (pm :: queue)) with (1 + length queue)%nat in F.
    rewrite forallb_take_add in F. apply andb_prop in F as [F1 F2].
    unfold bind at 1.
    change (BufferPacket (BackendConn s) (PPluginMessage pm))
      with (doWrite (BackendConn s) (CallBufferPacket (PPluginMessage pm))).
    rewrite (doWrite_ok _ _ _ (CallBufferPacket (PPluginMessage pm)) G0 C S F1).
    erewrite (IH (written [CallBufferPacket (PPluginMessage pm)] c));
      [|conn_known|exact C|exact S|rewrite written_one; exact F2
       |rewrite set_trace_set_handler || idtac;
        change (handler (set_trace ?t ?w)) with (handler w);
        by rewrite handler_setConn].
    f_equal. subst w0. world_norm.
    rewrite !setConn_set_handler, !set_trace_set_handler, set_handler_set_handler.
    change (queuedCalls (pm :: queue))
      with (CallBufferPacket (PPluginMessage pm) :: queuedCalls queue).
    rewrite written_cons. cbn [backendPlan fmap list_fmap succeeded].
    by rewrite <- app_assoc.
Qed.

Lemma delivered_queuedCalls queue : forall buf, delivered buf (queuedCalls queue) = [].
Proof. induction queue as [|pm queue IH]; intros buf; [done|]. cbn. apply IH. Qed.

Lemma pending_queuedCalls queue : forall buf,
  pending buf (queuedCalls queue) = buf ++ (PPluginMessage <$> queue).
Proof.
  induction queue as [|pm queue IH]; intros buf; cbn; [by rewrite app_nil_r|].
  by rewrite IH, <- app_assoc.
Qed.

Lemma flushQueuedMessages_ok s c w :
  connectedServer_ (player w) = Some s ->
  getConn (BackendConn s) w = Some c ->
  closed c = false -> sockClosed c = false ->
  let queue := loginPluginMessages (handler w) in
  forallb id (take (length queue + 2) (script c)) = true ->
  flushQueuedMessages w
  = (tt, set_handler (mkHandler (spawned (handler w)) [])
           (set_trace (trace w ++ backendPlan s queue ++ [EvFlush (BackendConn s) true])
              (setConn (BackendConn s)
                 (written [CallFlush] (written (queuedCalls queue) c)) w))).
Proof.
  intros Hs G C S queue F.
  rewrite forallb_take_add in F. apply andb_prop in F as [F1 F2].
  unfold flushQueuedMessages.
  unfold bind at 1, connectedServer, gets. rewrite Hs.
  unfold bind at 1, ensureConnected, sc_conn, gets. rewrite G.
  unfold bind at 1, gets. fold queue.
  unfold bind at 1. rewrite (sendQueued_ok s queue c w G C S F1 eq_refl).
  set (c1 := written (queuedCalls queue) c).
  set (w1 := set_handler _ _).
  assert (getConn (BackendConn s) w1 = Some c1) as G1.
  { subst w1. rewrite getConn_set_handler. conn_known. }
  unfold bind at 1.
  change (flush (BackendConn s)) with (doWrite (BackendConn s) CallFlush).
  rewrite (doWrite_ok _ _ _ CallFlush G1 C S)
    by (subst c1; unfold written; cbn [script set_script set_wire set_writeBuf];
        by rewrite transports_queuedCalls).
  unfold ret. f_equal. subst w1.
  rewrite setConn_set_handler, set_trace_set_handler. f_equal.
  world_norm. cbn [succeeded].
  change (trace (set_handler ?h ?w0)) with (trace w0). world_norm.
  by rewrite <- ?app_assoc.
Qed.

(** X13.  Over a healthy open backend, [flushQueuedMessages] buffers the
    queued messages in queue order and flushes: the backend's wire gains
    what was buffered and then the queue, buffer and queue are empty, and
    the trace shows these calls only. *)
Theorem flushQueuedMessages_delivers_the_queue s c w :
  connectedServer_ (player w) = Some s ->
  getConn (BackendConn s) w = Some c ->
  closed c = false -> sockClosed c = false ->
  let queue := loginPluginMessages (handler w) in
  forallb id (take (length queue + 2) (script c)) = true ->
  let w' := snd (flushQueuedMessages w) in
  loginPluginMessages (handler w') = [] /\
  events_since w w' = backendPlan s queue ++ [EvFlush (BackendConn s) true] /\
  exists c',
    getConn (BackendConn s) w' = Some c' /\
    wire c' = wire c ++ writeBuf c ++ (PPluginMessage <$> queue) /\
    writeBuf c' = [] /\ closed c' = false.
Proof.
  intros Hs G C S queue F. cbv zeta.
  rewrite (flushQueuedMessages_ok s c w Hs G C S F). cbn [snd].
  split; [done|]. split; [by apply events_since_app|].
  eexists. split; [rewrite getConn_set_handler; conn_known|].
  rewrite written_one. unfold written.
  cbn. rewrite delivered_queuedCalls, pending_queuedCalls, !app_nil_r. done.
Qed.

Lemma offered_one r p ok evs :
  run_of [EvBufferPacket r p true] ok evs -> offered r evs = [p].
Proof.
  assert (forall b, offered r [EvBufferPacket r p b] = [p]) as H1.
  { intros b. destruct r as [|s]; cbn; [done|]. by rewrite Nat.eqb_refl. }
  intros R. inversion R as [|e plan ok' evs' R'|e plan post He Hpost]; subst.
  - inversion R'; subst. apply H1.
  - change (fail _ :: post) with ([EvBufferPacket r p false] ++ post).
    by rewrite offered_app, (offered_closing r post), H1.
Qed.

Lemma offered_flush r ok evs :
  run_of [EvFlush r true] ok evs -> offered r evs = [] /\ EvFlush r ok ∈ evs.
Proof.
  intros R. inversion R as [|e plan ok' evs' R'|e plan post He Hpost]; subst.
  - inversion R'; subst. split; [done|solve_in].
  - change (fail _ :: post) with ([EvFlush r false] ++ post).
    rewrite offered_app, (offered_closing r post) by done. split; [done|solve_in].
Qed.

Lemma sendQueued_run r queue : forall w u w',
  loginPluginMessages (handler w) = queue ->
  sendQueued r queue w = (u, w') ->
  loginPluginMessages (handler w') = [] /\
  exists evs, trace w' = trace w ++ evs /\ offered r evs = PPluginMessage <$> queue.
Proof.
  induction queue as [|pm queue IH]; intros w u w' Q E.
  - cbn in E. injection E as <- <-. split; [done|]. exists []. by rewrite app_nil_r.
  - cbn [sendQueued] in E. unfold bind at 1, modify in E. set (w0 := set_handler _ w) in E.
    unfold bind at 1 in E.
    destruct (BufferPacket r (PPluginMessage pm) w0) as [err w1] eqn:E1.
    destruct (BufferPacket_run _ _ _ _ _ E1) as (Er & evs1 & T1 & R1).
    assert (handler w1 = handler w0) as H1 by (by injection Er).
    destruct (IH w1 u w') as (Q2 & evs2 & T2 & O2); [by rewrite H1|done|].
    split; [done|].
    exists (evs1 ++ evs2). split; [by rewrite T2, T1, app_assoc|].
    rewrite offered_app, (offered_one _ _ _ _ R1), O2. done.
Qed.

(** X14.  [flushQueuedMessages] does nothing without a current server or
    without its backend connection; otherwise, whatever the transport
    does, it hands every queued message to BufferPacket of the backend in
    queue order, flushes once, and leaves the queue empty (a message that
    could not be buffered is lost). *)
Theorem flushQueuedMessages_empties_the_queue w :
  let w' := snd (flushQueuedMessages w) in
  let queue := loginPluginMessages (handler w) in
  match connectedServer_ (player w) with
  | None => w' = w
  | Some s =>
      match getConn (BackendConn s) w with
      | None => w' = w
      | Some _ =>
          loginPluginMessages (handler w') = [] /\
          offered (BackendConn s) (events_since w w') = PPluginMessage <$> queue /\
          exists ok, EvFlush (BackendConn s) ok ∈ events_since w w'
      end
  end.
Proof.
  cbv zeta. destruct (flushQueuedMessages w) as [[] w'] eqn:E. cbn [snd].
  unfold flushQueuedMessages in E.
  unfold bind at 1, connectedServer, gets in E.
  destruct (connectedServer_ (player w)) as [s|]; [|by injection E].
  unfold bind at 1, ensureConnected, sc_conn, gets in E.
  destruct (getConn (BackendConn s) w) as [c|]; [|by injection E].
  unfold bind at 1, gets in E. unfold bind at 1 in E.
  destruct (sendQueued _ _ w) as [[] w1] eqn:E1.
  destruct (sendQueued_run (BackendConn s) _ w _ _ eq_refl E1) as (Q1 & evs1 & T1 & O1).
  unfold bind in E. destruct (flush (BackendConn s) w1) as [err w2] eqn:E2.
  injection E as <-.
  destruct (flush_run _ _ _ _ E2) as (Er & evs2 & T2 & R2).
  assert (handler w2 = handler w1) as H2 by (by injection Er).
  apply offered_flush in R2 as [O2 Hin].
  rewrite (events_since_app w w2 (evs1 ++ evs2)) by (by rewrite T2, T1, app_assoc).
  split; [by rewrite H2|]. split; [by rewrite offered_app, O1, O2, app_nil_r|].
  exists (negb (failed err)). solve_in.
Qed.

(** ** Plugin messages *)

Lemma handlePluginMessage_entry pk s c w :
  connectedServer_ (player w) = Some s ->
  getConn (BackendConn s) w = Some c ->
  handlePluginMessage pk w
  = (match state c with
     | Play =>
         if plugin_Register pk then
           err <- WritePacket (BackendConn s) (PPluginMessage pk) ;;
           if failed err then
             lockedKnownChannels (fun known => sets.Insert known (plugin_Channels pk))
           else ret Returned
         else if plugin_Unregister pk then
           err <- WritePacket (BackendConn s) (PPluginMessage pk) ;;
           if failed err then
             lockedKnownChannels (fun known => sets.Delete known (plugin_Channels pk))
           else ret Returned
         else if plugin_McBrand pk then
           version <- load ClientConn protocol 0 ;;
           _ <- WritePacket (BackendConn s)
                  (PPluginMessage (plugin_RewriteMinecraftBrand pk version)) ;;
           ret Returned
         else
           serverConnPhase <- sc_phase_of s ;;
           if bp_inTransition serverConnPhase then
             inFlight <- connectionInFlight ;;
             match inFlight with
             | Some f =>
                 ph <- phase ;;
                 _ <- phaseHandle ph f pk ;;
                 ret Returned
             | None => ret Returned
             end
           else
             playerPhase <- phase ;;
             handled <- phaseHandle playerPhase s pk ;;
             if handled then ret Returned
             else if cp_consideredComplete playerPhase && bp_consideredComplete serverConnPhase then
               id <- gets (fun w => channelFromId (proxy w) (Channel pk)) ;;
               match id with
               | None =>
                   _ <- WritePacket (BackendConn s) (PPluginMessage pk) ;;
                   ret Returned
               | Some id =>
                   let clone := Data pk in
                   allowed <- fire (PluginMessageEvent s id clone) ;;
                   (if allowed then
                      _ <- WritePacket (BackendConn s)
                             (PPluginMessage (mkMessage (Channel pk) clone)) ;;
                      ret tt
                    else ret tt) ;;
                   ret Returned
               end
             else
               modify (fun w =>
                 set_handler (mkHandler (spawned (handler w))
                                (loginPluginMessages (handler w) ++ [pk])) w) ;;
               ret Returned
     | _ => ret Returned
     end) w.
Proof.
  intros Hs G. unfold handlePluginMessage.
  unfold bind at 1, connectedServer, gets. rewrite Hs.
  unfold bind at 1, sc_conn, gets. rewrite G.
  unfold bind at 1. erewrite load_eq by eassumption. done.
Qed.

(** X15.  A plugin message from the client is dropped, leaving the world
    as it was, while the backend connection is not in the Play state; and
    one that is neither Register, Unregister nor the brand, arriving while
    the server connection is in transition, only goes to the phase of the
    connection in flight (nothing at all without one): it is neither
    written nor queued. *)
Theorem plugin_message_is_held_back pk s c w :
  connectedServer_ (player w) = Some s ->
  getConn (BackendConn s) w = Some c ->
  (state c <> Play -> handlePluginMessage pk w = (Returned, w)) /\
  (state c = Play ->
   plugin_Register pk = false -> plugin_Unregister pk = false ->
   plugin_McBrand pk = false ->
   (exists sc, servers w !! s = Some sc /\ bp_inTransition (sc_phase sc) = true) ->
   handlePluginMessage pk w
   = (Returned,
      match connInFlight (player w) with
      | Some f => set_trace (trace w ++ [EvPhaseHandle f pk]) w
      | None => w
      end)).
Proof.
  intros Hs G. rewrite (handlePluginMessage_entry pk s c w Hs G). split.
  - intros Hst. by destruct (state c).
  - intros -> -> -> -> (sc & Hsc & Ht).
    unfold bind at 1, sc_phase_of, serverField, gets. rewrite Hsc, Ht.
    unfold bind at 1, connectionInFlight, gets.
    by destruct (connInFlight (player w)).
Qed.

Lemma handlePluginMessage_queues pk s c sc w :
  connectedServer_ (player w) = Some s ->
  getConn (BackendConn s) w = Some c -> state c = Play ->
  plugin_Register pk = false -> plugin_Unregister pk = false ->
  plugin_McBrand pk = false ->
  servers w !! s = Some sc -> bp_inTransition (sc_phase sc) = false ->
  cp_handle (connPhase (player w)) pk = false ->
  cp_consideredComplete (connPhase (player w)) && bp_consideredComplete (sc_phase sc) = false ->
  handlePluginMessage pk w
  = (Returned,
     set_handler (mkHandler (spawned (handler w)) (loginPluginMessages (handler w) ++ [pk]))
       (set_trace (trace w ++ [EvPhaseHandle s pk]) w)).
Proof.
  intros Hs G Hst Hr Hu Hb Hsc Ht Hh Hc.
  rewrite (handlePluginMessage_entry pk s c w Hs G), Hst, Hr, Hu, Hb.
  unfold bind at 1, sc_phase_of, serverField, gets. rewrite Hsc, Ht.
  unfold bind at 1, phase, gets.
  unfold bind at 1, phaseHandle, bind, log, modify, ret. cbn [snd fst]. by rewrite Hh, Hc.
Qed.

(** X16.  A plugin message that the client phase does not take and that
    arrives before both phases are complete is appended to the queue
    without touching the backend; the next [flushQueuedMessages] over a
    healthy backend then puts what the backend had buffered, the queue and
    this message last on the backend's wire, and leaves queue and buffer
    empty. *)
Theorem queued_plugin_message_is_flushed pk s c sc w :
  connectedServer_ (player w) = Some s ->
  getConn (BackendConn s) w = Some c -> state c = Play ->
  plugin_Register pk = false -> plugin_Unregister pk = false ->
  plugin_McBrand pk = false ->
  servers w !! s = Some sc -> bp_inTransition (sc_phase sc) = false ->
  cp_handle (connPhase (player w)) pk = false ->
  cp_consideredComplete (connPhase (player w)) && bp_consideredComplete (sc_phase sc) = false ->
  closed c = false -> sockClosed c = false ->
  let queue := loginPluginMessages (handler w) in
  forallb id (take (length queue + 3) (script c)) = true ->
  let w1 := snd (handlePluginMessage pk w) in
  let w2 := snd (flushQueuedMessages w1) in
  loginPluginMessages (handler w1) = queue ++ [pk] /\
  getConn (BackendConn s) w1 = Some c /\
  loginPluginMessages (handler w2) = [] /\
  exists c',
    getConn (BackendConn s) w2 = Some c' /\
    wire c' = wire c ++ writeBuf c ++ (PPluginMessage <$> queue) ++ [PPluginMessage pk] /\
    writeBuf c' = [].
Proof.
  intros Hs G Hst Hr Hu Hb Hsc Ht Hh Hc C S queue F. cbv zeta.
  rewrite (handlePluginMessage_queues pk s c sc w Hs G Hst Hr Hu Hb Hsc Ht Hh Hc).
  cbn [snd]. set (w1 := set_handler _ _).
  assert (getConn (BackendConn s) w1 = Some c) as G1 by done.
  split; [done|]. split; [done|].
  rewrite (flushQueuedMessages_ok s c w1 Hs G1 C S).
  2:{ subst w1. cbn [handler set_handler loginPluginMessages]. rewrite length_app. cbn [length].
      fold queue. by replace (length queue + 1 + 2)%nat with (length queue + 3)%nat by lia. }
  cbn [snd]. split; [done|].
  eexists. split; [rewrite getConn_set_handler; conn_known|].
  rewrite written_one. unfold written. subst w1.
  cbn. rewrite delivered_queuedCalls, pending_queuedCalls, !app_nil_r. fold queue.
  by rewrite fmap_app.
Qed.

(** ** activated *)


(** ** Chat that stays with the proxy *)

(** X18.  With a backend connection, a chat message or command whose event
    a subscriber denied, or whose player is no longer active, only fires
    its event; a command the proxy has registered is invoked after its
    event.  Neither is written to the backend: besides the trace the world
    is as it was. *)
Theorem chat_stays_with_the_proxy p s c w :
  connectedServer_ (player w) = Some s ->
  getConn (BackendConn s) w = Some c ->
  let message := chat_Message p in
  let isCommand := strings.HasPrefix message "/" in
  let commandline := trimSpaces (strings.TrimPrefix message "/") in
  let event :=
    if isCommand then CommandExecuteEvent commandline else PlayerChatEvent message in
  (eventAllowed (proxy w) event = false \/ closed (conn (player w)) = true ->
   handleChat p w = (tt, set_trace (trace w ++ [EvFire event]) w)) /\
  (isCommand = true -> eventAllowed (proxy w) event = true ->
   closed (conn (player w)) = false ->
   commandHas (proxy w) (fst (fst (extract commandline))) = true ->
   handleChat p w
   = (tt, set_trace (trace w ++ [EvFire event;
                                 EvInvoke (fst (fst (extract commandline)))
                                   (snd (fst (extract commandline)))]) w)).
Proof.
  intros Hs G. cbv zeta.
  split.
  - intros H. unfold handleChat. unfold bind at 1, connectedServer, gets. rewrite Hs.
    unfold bind at 1, sc_conn, gets. rewrite G. unfold bind at 1.
    destruct (strings.HasPrefix (chat_Message p) "/"); cbv zeta.
    + unfold bind at 1. unfold fire, bind at 1, log, modify, gets, set_trace. cbn [proxy].
      unfold bind at 1, Active, bind at 1, load, gets, getConn. cbn [player].
      destruct H as [-> | ->]; cbn [negb orb ret]; [done|].
      by rewrite orb_true_r.
    + unfold bind at 1. unfold fire, bind at 1, log, modify, gets, set_trace. cbn [proxy].
      unfold bind at 1, Active, bind at 1, load, gets, getConn. cbn [player].
      destruct H as [-> | ->]; cbn [negb orb ret]; [done|].
      by rewrite orb_true_r.
  - intros Hp Ha Hc Hcmd. rewrite Hp in Ha |- *.
    unfold handleChat. rewrite Hp. unfold bind at 1, connectedServer, gets. rewrite Hs.
    unfold bind at 1, sc_conn, gets. rewrite G. unfold bind at 1. cbv zeta.
    unfold bind at 1. unfold fire, bind at 1, log, modify, gets, set_trace. cbn [proxy].
    rewrite Ha.
    unfold bind at 1, Active, bind at 1, load, gets, getConn. cbn [player].
    rewrite Hc. cbn [negb orb ret].
    destruct (extract _) as [[cmd args] rest]. cbn [fst snd] in *.
    unfold bind at 1, gets. cbn [proxy]. rewrite Hcmd.
    unfold bind, log, modify, ret. cbn. by rewrite <- app_assoc.
Qed.

(** ** Forwarding *)

Lemma canForward_eq w :
  canForward w
  = (match connectedServer_ (player w) with
     | Some s =>
         match servers w !! s with
         | Some sc =>
             match connection sc with
             | Some _ => if bp_consideredComplete (sc_phase sc) then Some (BackendConn s) else None
             | None => None
             end
         | None => None
         end
     | None => None
     end, w).
Proof.
  unfold canForward, bind, connectedServer, sc_conn, sc_phase_of, serverField, gets, ret,
    getConn.
  destruct (connectedServer_ (player w)) as [s|]; [|done].
  destruct (servers w !! s) as [sc|]; [|done].
  destruct (connection sc); [|done]. by destruct (bp_consideredComplete _).
Qed.

(** X19.  [forwardToServer] and [handleUnknownPacket] leave the world as it
    was when [canForward] answers nil, which for a connected backend is
    exactly when its phase is not considered complete; with a complete
    phase and a healthy open backend the packet (or payload) is written
    and flushed: it is on the backend's wire, after what was buffered. *)
Theorem forwarding_needs_a_complete_backend w :
  (forall p payload,
     fst (canForward w) = None ->
     forwardToServer p w = (tt, w) /\ handleUnknownPacket payload w = (tt, w)) /\
  (forall s sc c,
     connectedServer_ (player w) = Some s -> servers w !! s = Some sc ->
     connection sc = Some c ->
     (fst (canForward w) = Some (BackendConn s) <->
        bp_consideredComplete (sc_phase sc) = true) /\
     (bp_consideredComplete (sc_phase sc) = true ->
      closed c = false -> sockClosed c = false ->
      forallb id (take 3 (script c)) = true ->
      (forall p,
         forwardToServer p w
         = (tt, set_trace (trace w ++ succeeded (BackendConn s) (CallWritePacket p))
                  (setConn (BackendConn s) (written [CallWritePacket p] c) w))) /\
      (forall payload,
         handleUnknownPacket payload w
         = (tt, set_trace (trace w ++ succeeded (BackendConn s) (CallWrite payload))
                  (setConn (BackendConn s) (written [CallWrite payload] c) w))))).
Proof.
  split.
  - intros p payload H. unfold forwardToServer, handleUnknownPacket, bind.
    rewrite canForward_eq in H |- *. cbn [fst] in H. by rewrite H.
  - intros s sc c Hs Hsc Hc. rewrite canForward_eq, Hs, Hsc, Hc. cbn [fst]. split.
    + by destruct (bp_consideredComplete _).
    + intros Hp C S F.
      assert (getConn (BackendConn s) w = Some c) as G
        by (unfold getConn; by rewrite Hsc).
      split.
      * intros p. unfold forwardToServer, bind. rewrite canForward_eq, Hs, Hsc, Hc, Hp.
        change (WritePacket (BackendConn s) p) with (doWrite (BackendConn s) (CallWritePacket p)).
        by rewrite (doWrite_ok _ _ _ (CallWritePacket p) G C S F).
      * intros payload. unfold handleUnknownPacket, bind.
        rewrite canForward_eq, Hs, Hsc, Hc, Hp.
        change (Write (BackendConn s) payload)
          with (doWrite (BackendConn s) (CallWrite payload)).
        by rewrite (doWrite_ok _ _ _ (CallWrite payload) G C S F).
Qed.

(** X20.  A ClientSettings packet is stored as the player's settings and
    its PlayerSettingsChangedEvent fired first, whether or not the packet
    can then be forwarded; when it cannot, nothing else happens. *)
Theorem client_settings_are_stored s now now' w :
  let w' := snd (handlePacket (PClientSettings s) now now' w) in
  settings (player w') = Some s /\
  (exists evs, events_since w w' = EvFire (PlayerSettingsChangedEvent s) :: evs) /\
  (fst (canForward w) = None ->
   w' = set_trace (trace w ++ [EvFire (PlayerSettingsChangedEvent s)])
          (set_player (set_settings (Some s) (player w)) w)).
Proof.
  cbv zeta. destruct (handlePacket _ now now' w) as [out w'] eqn:E. cbn [snd].
  unfold handlePacket in E. unfold bind at 1 in E.
  set (w1 := set_trace (trace w ++ [EvFire (PlayerSettingsChangedEvent s)])
               (set_player (set_settings (Some s) (player w)) w)).
  assert (setSettings s w = (tt, w1)) as E1 by done.
  rewrite E1 in E. unfold bind at 1 in E. unfold forwardToServer in E.
  unfold bind at 1 in E. rewrite canForward_eq in E.
  change (connectedServer_ (player w1)) with (connectedServer_ (player w)) in E.
  change (servers w1) with (servers w) in E.
  pose proof (canForward_eq w) as Hcf.
  destruct (match connectedServer_ (player w) with Some _ => _ | None => _ end) as [mc|].
  - unfold bind in E. destruct (WritePacket mc _ w1) as [err w2] eqn:E2.
    injection E as _ <-.
    apply WritePacket_run in E2 as (Er & evs & T & _).
    split; [|split].
    + assert (settings (player w2) = settings (player w1)) as -> by (by injection Er).
      done.
    + exists evs. apply events_since_app. rewrite T. subst w1. unfold set_trace. cbn.
      by rewrite <- app_assoc.
    + rewrite Hcf. done.
  - injection E as _ <-. split; [done|]. split; [|done].
    exists []. by apply events_since_app.
Qed.

(** ** Keep-alive *)

(** X21.  A keep-alive from the client is ignored, leaving the world as it
    was, unless it carries the id of the last ping of a connected backend;
    then the ping is measured and stored before the write and kept
    whatever the write answers, the keep-alive is handed to WritePacket of
    the backend, and the time of the last ping is overwritten only after a
    successful write, with a value below 1000. *)
Theorem keepalive_is_echoed_for_the_last_ping p now now' w :
  (match connectedServer_ (player w) with
   | None => True
   | Some s =>
       match servers w !! s with
       | Some sc => RandomId p <> lastPingId sc \/ connection sc = None
       | None => True
       end
   end ->
   handleKeepAlive p now now' w = (tt, w)) /\
  (forall s sc c,
     connectedServer_ (player w) = Some s ->
     servers w !! s = Some sc -> connection sc = Some c ->
     RandomId p = lastPingId sc ->
     let w' := snd (handleKeepAlive p now now' w) in
     ping (player w')
     = time.Since now (time.Unix 0 (wrap64 (lastPingSent sc * time.Millisecond))) /\
     exists ok stored,
       EvWritePacket (BackendConn s) (PKeepAlive p) ok ∈ events_since w w' /\
       lastPingSent <$> servers w' !! s = Some stored /\
       (ok = false -> stored = lastPingSent sc) /\
       (ok = true -> 0 <= stored < 1000)).
Proof.
  split; [apply handleKeepAlive_dropped|].
  intros s sc c Hs Hsc Hc Hid.
  destruct (handleKeepAlive_answered p now now' s sc c w Hs Hsc Hc Hid) as (Hp & ok & Hin & Hl).
  cbv zeta. split; [done|]. exists ok. eexists. split; [done|]. split; [exact Hl|].
  split; intros ->; [done|]. apply millisecond_of_second.
Qed.

(** ** What the ceremony hands to the destination *)

Lemma servers_ret {A} (a : A) : keepsServers (ret a).
Proof. done. Qed.

Lemma servers_bind {A B} (m : M A) (k : A -> M B) :
  keepsServers m -> (forall a, keepsServers (k a)) -> keepsServers (bind m k).
Proof.
  intros Hm Hk w. unfold bind. specialize (Hm w). destruct (m w) as [a w1].
  rewrite <- Hm. apply Hk.
Qed.

Lemma servers_log e : keepsServers (log e).
Proof. done. Qed.

Lemma servers_load {A} r (f : minecraftConn -> A) nil : keepsServers (load r f nil).
Proof. done. Qed.

Lemma servers_update f : keepsServers (update ClientConn f).
Proof. done. Qed.

Lemma servers_transport : keepsServers (transport ClientConn).
Proof. intros w. unfold transport, getConn. by destruct (script _). Qed.

Lemma servers_closeKnown mk : keepsServers (closeKnown ClientConn mk).
Proof.
  intros w.
  assert (getConn ClientConn w = Some (conn (player w))) as G by done.
  destruct (closeOnce (conn (player w))) eqn:O.
  - by rewrite (closeKnown_closed _ _ _ _ G O).
  - rewrite (closeKnown_eq _ _ _ _ G O). cbn [snd]. unfold afterClose. cbv zeta.
    destruct (handler_ _) as [[|name]|]; [|done..].
    cbn [disconnected hasPlayer andb]. rewrite teardown_eq. cbn [snd].
    by destruct (negb _).
Qed.

Lemma servers_closeOnErr err : keepsServers (closeOnErr ClientConn err).
Proof.
  destruct err; [|done]. unfold closeOnErr, close.
  apply servers_bind; [apply servers_closeKnown|]. intros; apply servers_ret.
Qed.

Ltac keeps_servers :=
  repeat first
    [ apply servers_ret
    | apply servers_log
    | apply servers_load
    | apply servers_update
    | apply servers_transport
    | apply servers_closeKnown
    | apply servers_closeOnErr
    | apply servers_bind; [|intros ?]
    | match goal with
      | |- keepsServers (if ?b then _ else _) => destruct b
      | |- keepsServers (match ?x with _ => _ end) => destruct x
      end ].

Lemma servers_BufferPacket p : keepsServers (BufferPacket ClientConn p).
Proof. unfold BufferPacket. keeps_servers. Qed.

Lemma servers_firstJoin j : keepsServers (firstJoin j).
Proof.
  unfold firstJoin, onFirstJoin.
  apply servers_bind; [apply servers_BufferPacket|]. intros. keeps_servers.
Qed.

Lemma servers_switchJoin j v : keepsServers (switchJoin j v).
Proof.
  unfold switchJoin.
  apply servers_bind; [apply servers_BufferPacket|]. intros err.
  destruct (failed err); [apply servers_ret|].
  apply servers_bind.
  - destruct (proto.Lower v _); [|apply servers_ret].
    apply servers_bind; [apply servers_BufferPacket|]. intros; apply servers_ret.
  - intros [ok respawn]. destruct (negb ok); [apply servers_ret|].
    apply servers_bind; [apply servers_BufferPacket|]. intros; apply servers_ret.
Qed.

Lemma buffered_backend_backendPlan d msgs :
  buffered (BackendConn d) (backendPlan d msgs) = PPluginMessage <$> msgs.
Proof.
  unfold backendPlan. induction msgs as [|m msgs IH]; [done|].
  cbn. by rewrite Nat.eqb_refl, IH.
Qed.

Lemma buffered_backend_joinPlan d first j v :
  buffered (BackendConn d) (joinPlan first j v) = [].
Proof. unfold joinPlan. by destruct first, (proto.Lower v proto.Minecraft_1_16). Qed.

Lemma buffered_backend_titlePlan d v : buffered (BackendConn d) (titlePlan v) = [].
Proof. unfold titlePlan. by destruct (proto.GreaterEqual v proto.Minecraft_1_8). Qed.

Lemma sendKnownChannels_true d c w w' :
  getConn (BackendConn d) w = Some c ->
  sendKnownChannels (BackendConn d) w = (true, w') ->
  let known := sets.UnsortedList (pluginChannels (player w)) in
  erase w' = erase w /\
  trace w' = trace w
    ++ backendPlan d (if Nat.eqb (length known) 0 then []
                      else [plugin_ConstructChannelsPacket (protocol c) known]).
Proof.
  intros G E. cbv zeta. unfold sendKnownChannels in E.
  unfold bind at 1 in E. erewrite load_eq in E by eassumption.
  unfold bind at 1 in E. unfold knownChannels, gets in E.
  destruct (Nat.eqb _ 0); cbn [negb] in E.
  - injection E as <-. split; [done|]. by rewrite app_nil_r.
  - apply buffer_last in E as (Er & evs & T & R). apply run_of_true in R as ->. done.
Qed.

Lemma drain_true d queue : forall w w',
  loginPluginMessages (handler w) = queue ->
  drainLoginPluginMessages (BackendConn d) queue w = (true, w') ->
  loginPluginMessages (handler w') = [].
Proof.
  induction queue as [|pm rest IH]; intros w w' Q E; cbn in E.
  - by injection E as <-.
  - unfold bind at 1, modify in E. set (w0 := set_handler _ w) in E.
    unfold bind in E. destruct (BufferPacket _ _ w0) as [err w1] eqn:E1.
    destruct (BufferPacket_run _ _ _ _ _ E1) as (Er & _).
    destruct (failed err); [done|]. apply (IH w1); [|done].
    by replace (handler w1) with (handler w0) by (by injection Er).
Qed.

(** X22.  A [handleBackendJoinGame] that succeeds has buffered to the
    destination, in this order and nothing else: the channels packet of
    the player's known channels in the destination's protocol (when there
    are any), then every queued login plugin message; it has flushed the
    destination and left the queue empty. *)
Theorem ceremony_hands_the_queue_over j d c w w' :
  getConn (BackendConn d) w = Some c ->
  handleBackendJoinGame j d w = (true, w') ->
  let known := sets.UnsortedList (pluginChannels (player w)) in
  let register :=
    if Nat.eqb (length known) 0 then []
    else [plugin_ConstructChannelsPacket (protocol c) known] in
  buffered (BackendConn d) (events_since w w')
  = PPluginMessage <$> (register ++ loginPluginMessages (handler w)) /\
  loginPluginMessages (handler w') = [] /\
  EvFlush (BackendConn d) true ∈ events_since w w'.
Proof.
  intros G E. cbv zeta. unfold handleBackendJoinGame in E.
  unfold bind at 1 in E. unfold ensureConnected, sc_conn, gets in E. rewrite G in E.
  unfold bind at 1 in E. erewrite load_eq in E by reflexivity.
  set (v := protocol (conn (player w))) in *.
  unfold bind at 1 in E.
  assert (exists w0 w1 evs1,
    handler w0 = mkHandler true (loginPluginMessages (handler w)) /\
    erase w1 = erase (set_handler (handler w0) w) /\ servers w1 = servers w /\
    trace w1 = trace w ++ evs1 /\ buffered (BackendConn d) evs1 = [] /\
    ceremonyTail d v w1 = (true, w')) as (w0 & w1 & evs1 & H0 & Er1 & S1 & T1 & B1 & E2).
  { unfold spawned_CAS in E. fold (ceremonyTail d v) in E.
    destruct (spawned (handler w)) eqn:Sp.
    - unfold bind at 1 in E. pose proof (servers_switchJoin j v w) as Sv.
      destruct (switchJoin j v w) as [b1 w1] eqn:E1. cbn [snd] in Sv.
      destruct b1; [|done]. cbn [negb] in E.
      destruct (switchJoin_run _ _ _ _ _ E1) as (Er1 & evs1 & T1 & R1).
      apply run_of_true in R1 as ->.
      exists w, w1, (joinPlan false j v).
      split; [destruct (handler w); cbn in *; by subst|].
      rewrite set_handler_id. repeat split; try done. apply buffered_backend_joinPlan.
    - unfold bind at 1 in E. set (w0 := set_handler _ w) in E.
      pose proof (servers_firstJoin j w0) as Sv.
      destruct (firstJoin j w0) as [b1 w1] eqn:E1. cbn [snd] in Sv.
      destruct b1; [|done]. cbn [negb] in E.
      destruct (firstJoin_run _ _ _ _ E1) as (Er1 & evs1 & T1 & R1).
      apply run_of_true in R1 as ->.
      exists w0, w1, (joinPlan true j 0).
      repeat split; try done. }
  clear E. unfold ceremonyTail in E2.
  assert (getConn (BackendConn d) w1 = Some c) as G1 by (unfold getConn in *; by rewrite S1).
  assert (handler w1 = handler w0) as Hh1 by (by injection Er1).
  assert (pluginChannels (player w1) = pluginChannels (player w)) as Hp1 by (by injection Er1).
  unfold bind at 1 in E2.
  destruct (sendKnownChannels _ w1) as [b2 w2] eqn:E3. destruct b2; [|done]. cbn [negb] in E2.
  destruct (sendKnownChannels_true _ _ _ _ G1 E3) as (Er2 & T2). rewrite Hp1 in T2.
  assert (handler w2 = handler w1) as Hh2 by (by injection Er2).
  unfold bind at 1, gets in E2. unfold bind at 1 in E2.
  destruct (drainLoginPluginMessages _ _ w2) as [b3 w3] eqn:E4. destruct b3; [|done].
  cbn [negb] in E2.
  destruct (drain_run _ _ _ _ _ E4) as (_ & evs3 & T3 & R3). apply run_of_true in R3 as ->.
  pose proof (drain_true _ _ _ _ eq_refl E4) as Q3.
  unfold bind at 1 in E2.
  destruct (resetTitle v w3) as [b4 w4] eqn:E5. destruct b4; [|done]. cbn [negb] in E2.
  destruct (resetTitle_run _ _ _ _ E5) as (Er4 & evs4 & T4 & R4). apply run_of_true in R4 as ->.
  assert (handler w4 = handler w3) as Hh4 by (by injection Er4).
  unfold bind at 1 in E2.
  destruct (flushBoth _ w4) as [b5 w5] eqn:E6. destruct b5; [|done]. cbn [negb] in E2.
  destruct (flushBoth_run _ _ _ _ E6) as (Er5 & evs5 & T5 & R5). apply run_of_true in R5 as ->.
  assert (handler w5 = handler w4) as Hh5 by (by injection Er5).
  unfold bind, completeJoin, bind, log, modify, ret in E2. injection E2 as <-.
  cbn [handler set_player set_trace].
  erewrite events_since_app.
  2:{ cbn [trace set_trace set_player]. rewrite T5, T4, T3, T2, T1, <- !app_assoc.
      reflexivity. }
  rewrite !buffered_app, B1, !buffered_backend_backendPlan, buffered_backend_titlePlan.
  rewrite Hh2, Hh1, H0. cbn [loginPluginMessages app buffered flushPlan].
  rewrite !app_nil_r, <- fmap_app.
  split; [done|]. split.
  - change (handler (set_trace ?t ?x)) with (handler x). congruence.
  - rewrite !elem_of_app. do 4 right. solve_in.
Qed.

(** ** The ceremony and the transports *)

Lemma callsOf_app r p1 p2 : callsOf r (p1 ++ p2) = callsOf r p1 ++ callsOf r p2.
Proof.
  induction p1 as [|e p1 IH]; [done|].
  destruct e; cbn [app callsOf]; try exact IH; destruct (refEqb r _); cbn [app];
    by rewrite IH.
Qed.

Lemma written_app l1 l2 c : written (l1 ++ l2) c = written l2 (written l1 c).
Proof.
  revert c. induction l1 as [|a l1 IH]; intros c; cbn [app].
  - by rewrite written_nil.
  - by rewrite <- (written_cons a (l1 ++ l2)), IH, (written_cons a l1).
Qed.

Lemma serves_app c l1 l2 :
  serves c (l1 ++ l2) = serves c l1 && serves (written l1 c) l2.
Proof.
  unfold serves. rewrite fmap_app, sum_list_with_app, forallb_take_add. done.
Qed.

Lemma serves_nil c : serves c [] = true.
Proof. done. Qed.

Lemma serves_one c call :
  serves c [call] = forallb id (take (transports call) (script c)).
Proof. unfold serves. cbn. by rewrite Nat.add_0_r. Qed.

Lemma written_open calls c :
  coherent c -> closed c = false ->
  coherent (written calls c) /\ closed (written calls c) = false.
Proof. by intros [? ?] ?. Qed.

Lemma performs_at d plan (f g : M bool) w w0 :
  conn (player w0) = conn (player w) ->
  getConn (BackendConn d) w0 = getConn (BackendConn d) w ->
  f w = g w0 ->
  performs d plan g w0 -> performs d plan f w.
Proof.
  intros Hc Hg E H cC cB (R1 & R2 & R). rewrite E. apply H.
  split; [congruence|]. split; [congruence|]. exact R.
Qed.

Lemma performs_ext d plan (f g : M bool) w :
  f w = g w -> performs d plan g w -> performs d plan f w.
Proof. by apply performs_at. Qed.

Lemma performs_ret d w : performs d [] (ret true) w.
Proof.
  intros cC cB R. cbn [callsOf]. rewrite !serves_nil, !written_nil. done.
Qed.

Lemma performs_seq d p1 p2 (f g : M bool) w :
  performs d p1 f w ->
  (fst (f w) = true -> performs d p2 g (snd (f w))) ->
  performs d (p1 ++ p2) (b <- f ;; if negb b then ret false else g) w.
Proof.
  intros Hf Hg cC cB R. destruct (Hf cC cB R) as [E1 P1]. cbv zeta in *.
  rewrite !callsOf_app, !serves_app, !written_app. unfold bind.
  destruct (f w) as [b w1]. cbn [fst snd] in *. subst b.
  destruct (serves cC (callsOf ClientConn p1)); cbn [andb negb] in *.
  - destruct (serves cB (callsOf (BackendConn d) p1)); cbn [andb negb] in *.
    + exact (Hg eq_refl _ _ (P1 eq_refl)).
    + rewrite andb_false_r. done.
  - done.
Qed.

Lemma performs_client d call w :
  (exists p, call = CallBufferPacket p) \/ call = CallFlush ->
  performs d (succeeded ClientConn call)
    (err <- doWrite ClientConn call ;; ret (negb (failed err))) w.
Proof.
  intros Hc cC cB (HC & HB & [C1 C2] & ClC & CoB & ClB).
  assert (callsOf ClientConn (succeeded ClientConn call) = [call]) as ->
    by (by destruct Hc as [[p ->]| ->]).
  assert (callsOf (BackendConn d) (succeeded ClientConn call) = []) as ->
    by (by destruct Hc as [[p ->]| ->]).
  assert (getConn ClientConn w = Some cC) as G by (unfold getConn; by rewrite HC).
  cbv zeta. rewrite serves_nil, andb_true_r, serves_one, written_nil. unfold bind.
  destruct (forallb id (take (transports call) (script cC))) eqn:F.
  - rewrite (doWrite_ok _ _ _ _ G ClC ltac:(congruence) F). cbn [fst snd failed negb ret].
    split; [done|]. intros _. split; [|split].
    + apply conn_of_player. conn_known.
    + by rewrite getConn_set_trace, getConn_setConn_other.
    + split; [by apply written_open|]. split; [by rewrite written_one|done].
  - destruct (doWrite_fails _ _ _ _ G ClC ltac:(congruence) ltac:(congruence) F)
      as (cf & pre & post & -> & _). done.
Qed.

Lemma performs_backend d call w :
  (exists p, call = CallBufferPacket p) \/ call = CallFlush ->
  performs d (succeeded (BackendConn d) call)
    (err <- doWrite (BackendConn d) call ;; ret (negb (failed err))) w.
Proof.
  intros Hc cC cB (HC & G & CoC & ClC & [C1 C2] & ClB).
  assert (callsOf (BackendConn d) (succeeded (BackendConn d) call) = [call]) as ->
    by (destruct Hc as [[p ->]| ->]; cbn; by rewrite Nat.eqb_refl).
  assert (callsOf ClientConn (succeeded (BackendConn d) call) = []) as ->
    by (by destruct Hc as [[p ->]| ->]).
  cbv zeta. rewrite serves_nil, andb_true_l, serves_one, written_nil. unfold bind.
  destruct (forallb id (take (transports call) (script cB))) eqn:F.
  - rewrite (doWrite_ok _ _ _ _ G ClB ltac:(congruence) F). cbn [fst snd failed negb ret].
    split; [done|]. intros _. split; [|split].
    + apply conn_of_player. rewrite getConn_set_trace, getConn_setConn_other by done.
      unfold getConn. by rewrite HC.
    + conn_known.
    + split; [done|]. split; [done|]. split; [by apply written_open|by rewrite written_one].
  - destruct (doWrite_fails _ _ _ _ G ClB ltac:(congruence) ltac:(congruence) F)
      as (cf & pre & post & -> & _). done.
Qed.

Lemma performs_then d r call p2 (k : M bool) w :
  performs d (succeeded r call)
    (err <- doWrite r call ;; ret (negb (failed err))) w ->
  (performs d p2 k (snd (doWrite r call w))) ->
  performs d (succeeded r call ++ p2)
    (err <- doWrite r call ;; if failed err then ret false else k) w.
Proof.
  intros H1 H2.
  apply (performs_ext _ _ _
           (b <- (err <- doWrite r call ;; ret (negb (failed err))) ;;
            if negb b then ret false else k)).
  - unfold bind. by destruct (doWrite r call w) as [[e|] w1].
  - apply performs_seq; [done|]. intros _.
    unfold bind. by destruct (doWrite r call w) as [[e|] w1].
Qed.

Lemma performs_log d e w :
  is_io e = false -> performs d [e] (log e ;; ret true) w.
Proof.
  intros He cC cB R.
  assert (forall r, callsOf r [e] = []) as H by (intros r; by destruct e).
  rewrite !H, !serves_nil, !written_nil. split; [done|]. intros _.
  destruct R as (R1 & R2 & R). split; [done|]. split; [|done].
  unfold bind, log, modify, ret. cbn [snd]. by rewrite getConn_set_trace.
Qed.

Lemma performs_firstJoin d j w : performs d (joinPlan true j 0) (firstJoin j) w.
Proof.
  apply (performs_then d ClientConn (CallBufferPacket (PJoinGame j)) [EvOnFirstJoin]).
  - apply performs_client. eauto.
  - by apply performs_log.
Qed.

Lemma performs_switchJoin d j v w : performs d (joinPlan false j v) (switchJoin j v) w.
Proof.
  unfold switchJoin, joinPlan. cbv zeta.
  destruct (proto.Lower v proto.Minecraft_1_16).
  - apply (performs_then d ClientConn (CallBufferPacket (PJoinGame j)) ([_] ++ [_]));
      [apply performs_client; eauto|].
    set (w1 := snd _).
    set (r1 := if jg_Dimension j =? 0 then set_rs_Dimension (-1) (respawnOf j)
               else respawnOf j).
    apply (performs_ext _ _ _
             (err <- doWrite ClientConn (CallBufferPacket (PRespawn r1)) ;;
              if failed err then ret false
              else (err <- doWrite ClientConn
                             (CallBufferPacket
                                (PRespawn (set_rs_Dimension (jg_Dimension j) (respawnOf j)))) ;;
                    ret (negb (failed err))))).
    + unfold bind. cbn [doWrite].
      destruct (BufferPacket ClientConn (PRespawn r1) w1) as [[e|] w2]; cbn; [done|].
      subst r1. by destruct (jg_Dimension j =? 0).
    + apply (performs_then d ClientConn (CallBufferPacket (PRespawn r1)) [_]);
        [apply performs_client; eauto|].
      apply (performs_client d (CallBufferPacket _)). eauto.
  - apply (performs_then d ClientConn (CallBufferPacket (PJoinGame j)) ([] ++ [_]));
      [apply performs_client; eauto|].
    apply (performs_client d (CallBufferPacket _)). eauto.
Qed.

Lemma performs_sendKnownChannels d c w :
  getConn (BackendConn d) w = Some c ->
  performs d (backendPlan d (channelsPackets w (protocol c)))
    (sendKnownChannels (BackendConn d)) w.
Proof.
  intros G. unfold channelsPackets. cbv zeta.
  set (known := sets.UnsortedList (pluginChannels (player w))).
  apply (performs_ext _ _ _
           (if negb (Nat.eqb (length known) 0)
            then (err <- doWrite (BackendConn d)
                           (CallBufferPacket
                              (PPluginMessage
                                 (plugin_ConstructChannelsPacket (protocol c) known))) ;;
                  ret (negb (failed err)))
            else ret true)).
  - unfold sendKnownChannels. unfold bind at 1. erewrite load_eq by eassumption.
    unfold bind at 1. unfold knownChannels, gets. done.
  - destruct (Nat.eqb (length known) 0); cbn [negb].
    + apply performs_ret.
    + apply (performs_backend d (CallBufferPacket _)). eauto.
Qed.

Lemma performs_drain d queue w :
  performs d (backendPlan d queue) (drainLoginPluginMessages (BackendConn d) queue) w.
Proof.
  revert w. induction queue as [|pm rest IH]; intros w.
  - apply performs_ret.
  - apply (performs_at _ _ _
             (err <- doWrite (BackendConn d) (CallBufferPacket (PPluginMessage pm)) ;;
              if failed err then ret false
              else drainLoginPluginMessages (BackendConn d) rest)
             _ (set_handler (mkHandler (spawned (handler w)) rest) w)).
    + done.
    + by rewrite getConn_set_handler.
    + done.
    + apply (performs_then d (BackendConn d) (CallBufferPacket (PPluginMessage pm))
               (backendPlan d rest)); [apply performs_backend; eauto|apply IH].
Qed.

Lemma performs_resetTitle d v w : performs d (titlePlan v) (resetTitle v) w.
Proof.
  unfold resetTitle, titlePlan. destruct (proto.GreaterEqual v proto.Minecraft_1_8).
  - apply (performs_client d (CallBufferPacket _)). eauto.
  - apply performs_ret.
Qed.

Lemma performs_flushBoth d w : performs d (flushPlan d) (flushBoth (BackendConn d)) w.
Proof.
  apply (performs_then d ClientConn CallFlush [EvFlush (BackendConn d) true]).
  - apply performs_client. by right.
  - apply (performs_backend d CallFlush). by right.
Qed.

Lemma performs_completeJoin d w :
  performs d [EvCompleteJoin d] (completeJoin d ;; ret true) w.
Proof.
  intros cC cB (R1 & R2 & R). cbn [callsOf]. rewrite !serves_nil, !written_nil.
  split; [done|]. intros _. split; [done|]. split; [|done].
  unfold getConn in *. done.
Qed.

Lemma performs_ceremonyTail d v c w :
  getConn (BackendConn d) w = Some c ->
  performs d
    (backendPlan d (channelsPackets w (protocol c) ++ loginPluginMessages (handler w))
     ++ titlePlan v ++ flushPlan d ++ [EvCompleteJoin d])
    (ceremonyTail d v) w.
Proof.
  intros G. unfold ceremonyTail, backendPlan. rewrite fmap_app, <- app_assoc.
  fold (backendPlan d (channelsPackets w (protocol c))).
  fold (backendPlan d (loginPluginMessages (handler w))).
  apply performs_seq; [by apply performs_sendKnownChannels|]. intros _.
  destruct (sendKnownChannels _ w) as [b1 w1] eqn:E1. cbn [snd].
  destruct (sendKnownChannels_run _ _ _ _ E1) as (Er1 & _).
  assert (handler w1 = handler w) as <- by (by injection Er1).
  apply (performs_ext _ _ _
           (drained <- drainLoginPluginMessages (BackendConn d)
                         (loginPluginMessages (handler w1)) ;;
            if negb drained then ret false else
            cleared <- resetTitle v ;;
            if negb cleared then ret false else
            flushed <- flushBoth (BackendConn d) ;;
            if negb flushed then ret false else
            completeJoin d ;; ret true)); [done|].
  apply performs_seq; [apply performs_drain|]. intros _.
  apply performs_seq; [apply performs_resetTitle|]. intros _.
  apply performs_seq; [apply performs_flushBoth|]. intros _.
  apply performs_completeJoin.
Qed.

Lemma channelsPackets_erase w w' v :
  erase w' = erase w -> channelsPackets w' v = channelsPackets w v.
Proof.
  intros E. unfold channelsPackets.
  by replace (pluginChannels (player w')) with (pluginChannels (player w))
    by (by injection E).
Qed.

Lemma performs_handleBackendJoinGame j d c w :
  getConn (BackendConn d) w = Some c ->
  performs d
    (ceremonyPlan (negb (spawned (handler w))) j (protocol (conn (player w))) d
       (channelsPackets w (protocol c) ++ loginPluginMessages (handler w)))
    (handleBackendJoinGame j d) w.
Proof.
  intros G. set (v := protocol (conn (player w))). unfold ceremonyPlan.
  destruct (spawned (handler w)) eqn:Sp; cbn [negb].
  - apply (performs_ext _ _ _
             (joined <- switchJoin j v ;;
              if negb joined then ret false else ceremonyTail d v)).
    { unfold handleBackendJoinGame. unfold bind at 1.
      unfold ensureConnected, sc_conn, gets. rewrite G.
      unfold bind at 1. erewrite load_eq by reflexivity.
      unfold bind at 1. unfold spawned_CAS. rewrite Sp. done. }
    apply performs_seq; [apply performs_switchJoin|]. intros _.
    pose proof (servers_switchJoin j v w) as Sv.
    destruct (switchJoin j v w) as [b1 w1] eqn:E1. cbn [snd] in *.
    destruct (switchJoin_run _ _ _ _ _ E1) as (Er1 & _).
    assert (getConn (BackendConn d) w1 = Some c) as G1
      by (unfold getConn in *; by rewrite Sv).
    rewrite <- (channelsPackets_erase _ _ _ Er1).
    replace (handler w) with (handler w1) by (by injection Er1).
    by apply performs_ceremonyTail.
  - set (w0 := set_handler (mkHandler true (loginPluginMessages (handler w))) w).
    apply (performs_at _ _ _
             (joined <- firstJoin j ;;
              if negb joined then ret false else ceremonyTail d v) _ w0).
    { done. }
    { unfold w0. by rewrite getConn_set_handler. }
    { unfold handleBackendJoinGame. unfold bind at 1.
      unfold ensureConnected, sc_conn, gets. rewrite G.
      unfold bind at 1. erewrite load_eq by reflexivity.
      unfold bind at 1. unfold spawned_CAS. rewrite Sp. done. }
    apply (performs_seq _ (joinPlan true j 0)); [apply performs_firstJoin|]. intros _.
    pose proof (servers_firstJoin j w0) as Sv.
    destruct (firstJoin j w0) as [b1 w1] eqn:E1. cbn [snd] in *.
    destruct (firstJoin_run _ _ _ _ E1) as (Er1 & _).
    assert (getConn (BackendConn d) w1 = Some c) as G1
      by (unfold getConn in *; by rewrite Sv).
    change (channelsPackets w (protocol c)) with (channelsPackets w0 (protocol c)).
    rewrite <- (channelsPackets_erase _ _ _ Er1).
    change (loginPluginMessages (handler w)) with (loginPluginMessages (handler w0)).
    replace (handler w0) with (handler w1) by (by injection Er1).
    by apply performs_ceremonyTail.
Qed.

(** The calls of the ceremony, with the channels packet named. *)
Lemma sendKnownChannels_plan d c w ok w' :
  getConn (BackendConn d) w = Some c ->
  sendKnownChannels (BackendConn d) w = (ok, w') ->
  erase w' = erase w /\
  exists evs, trace w' = trace w ++ evs /\
    run_of (backendPlan d (channelsPackets w (protocol c))) ok evs.
Proof.
  intros G E. unfold sendKnownChannels in E.
  unfold bind at 1 in E. erewrite load_eq in E by eassumption.
  unfold bind at 1 in E. unfold knownChannels, gets in E.
  unfold channelsPackets. cbv zeta.
  destruct (Nat.eqb _ 0); cbn [negb] in E.
  - by apply ret_true_run in E.
  - by apply buffer_last in E.
Qed.

Lemma ceremonyTail_plan d v c w ok w' :
  getConn (BackendConn d) w = Some c ->
  ceremonyTail d v w = (ok, w') ->
  exists evs,
    trace w' = trace w ++ evs /\
    run_of (backendPlan d (channelsPackets w (protocol c)
                           ++ loginPluginMessages (handler w))
            ++ titlePlan v ++ flushPlan d ++ [EvCompleteJoin d]) ok evs.
Proof.
  intros G E. unfold ceremonyTail in E. unfold bind at 1 in E.
  destruct (sendKnownChannels _ w) as [b1 w1] eqn:E1.
  destruct (sendKnownChannels_plan _ _ _ _ _ G E1) as (Er1 & evs1 & T1 & R1).
  assert (handler w1 = handler w) as H1 by (by injection Er1).
  unfold backendPlan. rewrite fmap_app.
  fold (backendPlan d (channelsPackets w (protocol c))).
  fold (backendPlan d (loginPluginMessages (handler w))). rewrite <- !app_assoc.
  destruct b1; cbn [negb] in E.
  2:{ unfold ret in E. injection E as <- <-. exists evs1. split; [done|].
      by apply run_of_app_false. }
  unfold bind at 1 in E. unfold gets in E. unfold bind at 1 in E. rewrite H1 in E.
  destruct (drainLoginPluginMessages _ _ w1) as [b2 w2] eqn:E2.
  destruct (drain_run _ _ _ _ _ E2) as (_ & evs2 & T2 & R2).
  destruct b2; cbn [negb] in E.
  2:{ unfold ret in E. injection E as <- <-. exists (evs1 ++ evs2).
      split; [by rewrite T2, T1, app_assoc|].
      by apply run_of_app_true, run_of_app_false. }
  unfold bind at 1 in E.
  destruct (resetTitle v w2) as [b3 w3] eqn:E3.
  destruct (resetTitle_run _ _ _ _ E3) as (_ & evs3 & T3 & R3).
  destruct b3; cbn [negb] in E.
  2:{ unfold ret in E. injection E as <- <-. exists (evs1 ++ evs2 ++ evs3).
      split; [by rewrite T3, T2, T1, !app_assoc|].
      by apply run_of_app_true, run_of_app_true, run_of_app_false. }
  unfold bind at 1 in E.
  destruct (flushBoth _ w3) as [b4 w4] eqn:E4.
  destruct (flushBoth_run _ _ _ _ E4) as (_ & evs4 & T4 & R4).
  destruct b4; cbn [negb] in E.
  2:{ unfold ret in E. injection E as <- <-. exists (evs1 ++ evs2 ++ evs3 ++ evs4).
      split; [by rewrite T4, T3, T2, T1, !app_assoc|].
      by apply run_of_app_true, run_of_app_true, run_of_app_true, run_of_app_false. }
  cbv [completeJoin bind ret log modify] in E. injection E as <- <-.
  exists (evs1 ++ evs2 ++ evs3 ++ evs4 ++ [EvCompleteJoin d]).
  split; [simpl; by rewrite T4, T3, T2, T1, <- !app_assoc|].
  apply run_of_app_true, run_of_app_true, run_of_app_true, run_of_app_true; try done.
  apply run_of_one_ok.
Qed.

Lemma handleBackendJoinGame_plan j d c w handled w' :
  getConn (BackendConn d) w = Some c ->
  handleBackendJoinGame j d w = (handled, w') ->
  exists evs,
    trace w' = trace w ++ evs /\
    run_of (ceremonyPlan (negb (spawned (handler w))) j (protocol (conn (player w))) d
              (channelsPackets w (protocol c) ++ loginPluginMessages (handler w)))
      handled evs.
Proof.
  intros G E. unfold handleBackendJoinGame in E.
  unfold bind at 1 in E. unfold ensureConnected, sc_conn, gets in E. rewrite G in E.
  unfold bind at 1 in E. erewrite load_eq in E by reflexivity.
  set (v := protocol (conn (player w))) in *.
  unfold bind at 1 in E. unfold spawned_CAS in E.
  fold (ceremonyTail d v) in E. unfold ceremonyPlan.
  destruct (spawned (handler w)) eqn:Sp; cbn [negb].
  - unfold bind at 1 in E. pose proof (servers_switchJoin j v w) as Sv.
    destruct (switchJoin j v w) as [b1 w1] eqn:E1. cbn [snd] in Sv.
    destruct (switchJoin_run _ _ _ _ _ E1) as (Er1 & evs1 & T1 & R1).
    assert (getConn (BackendConn d) w1 = Some c) as G1
      by (unfold getConn in *; by rewrite Sv).
    destruct b1; cbn [negb] in E.
    + destruct (ceremonyTail_plan _ _ _ _ _ _ G1 E) as (evs2 & T2 & R2).
      rewrite (channelsPackets_erase _ _ _ Er1) in R2.
      replace (handler w1) with (handler w) in R2 by (by injection Er1).
      exists (evs1 ++ evs2). split; [by rewrite T2, T1, app_assoc|].
      by apply run_of_app_true.
    + unfold ret in E. injection E as <- <-. exists evs1.
      split; [done|]. by apply run_of_app_false.
  - set (w0 := set_handler _ w) in *. unfold bind at 1 in E.
    pose proof (servers_firstJoin j w0) as Sv.
    destruct (firstJoin j w0) as [b1 w1] eqn:E1. cbn [snd] in Sv.
    destruct (firstJoin_run _ _ _ _ E1) as (Er1 & evs1 & T1 & R1).
    assert (getConn (BackendConn d) w1 = Some c) as G1
      by (unfold getConn in *; by rewrite Sv).
    destruct b1; cbn [negb] in E.
    + destruct (ceremonyTail_plan _ _ _ _ _ _ G1 E) as (evs2 & T2 & R2).
      rewrite (channelsPackets_erase _ _ _ Er1) in R2.
      replace (handler w1) with (handler w0) in R2 by (by injection Er1).
      exists (evs1 ++ evs2). split; [by rewrite T2, T1, app_assoc|].
      by apply run_of_app_true.
    + unfold ret in E. injection E as <- <-. exists evs1.
      split; [done|]. by apply run_of_app_false.
Qed.

(** C5.  [handleBackendJoinGame] returns success exactly when every
    BufferPacket call it made and both final flushes went well, and
    exactly then it calls completeJoin on the destination; the player's
    current server is the destination after a success and is what it was
    after a failure.  For a destination without a backend connection it
    fails and does nothing.  For a connected destination its calls are
    those of the ceremony in their order: the JoinGame (and Respawns) to
    the client, the channels packet and the queued plugin messages to the
    destination, the title reset, the flush of the client, the flush of
    the destination, completeJoin; it stops at the first call that fails.
    With both connections open, it returns success exactly when the
    client's transport serves every call made on the client and the
    destination's transport every call made on the destination. *)
Theorem handleBackendJoinGame_succeeds_iff j d w handled w' :
  handleBackendJoinGame j d w = (handled, w') ->
  let evs := events_since w w' in
  (handled = true <->
     forallb io_ok evs = true /\
     EvFlush ClientConn true ∈ evs /\ EvFlush (BackendConn d) true ∈ evs) /\
  (handled = true <-> EvCompleteJoin d ∈ evs) /\
  connectedServer_ (player w') =
    (if handled then Some d else connectedServer_ (player w)) /\
  (getConn (BackendConn d) w = None -> handled = false /\ w' = w) /\
  (forall c, getConn (BackendConn d) w = Some c ->
     let plan :=
       ceremonyPlan (negb (spawned (handler w))) j (protocol (conn (player w))) d
         (channelsPackets w (protocol c) ++ loginPluginMessages (handler w)) in
     run_of plan handled evs /\
     (coherent (conn (player w)) -> closed (conn (player w)) = false ->
      coherent c -> closed c = false ->
      handled = serves (conn (player w)) (callsOf ClientConn plan)
                && serves c (callsOf (BackendConn d) plan))).
Proof.
  intros E. cbv zeta.
  destruct (getConn (BackendConn d) w) as [c|] eqn:G.
  - destruct (handleBackendJoinGame_run _ _ _ _ _ _ G E) as (chans & evs & T & R & _ & C).
    rewrite (events_since_app _ _ _ T).
    pose proof (run_of_io_ok _ _ _ (io_ok_ceremonyPlan _ _ _ _ _) R) as Hio.
    split; [|split; [|split; [done|split; [done|]]]].
    + split; [|by intros [<- _]].
      intros ->. split; [done|]. apply run_of_true in R. subst evs.
      unfold ceremonyPlan, flushPlan. split; solve_in.
    + split.
      * intros ->. apply run_of_true in R. subst evs. unfold ceremonyPlan. solve_in.
      * intros Hin. destruct handled; [done|]. exfalso.
        assert (existsb isCompleteJoin evs = true) as Hex
          by (apply existsb_exists; exists (EvCompleteJoin d);
              split; [by apply list_elem_of_In|done]).
        eapply (run_of_false_existsb isCompleteJoin) in Hex;
          [|by intros []|by intros [| | | | | | |[]| | | |]|exact R].
        by rewrite ceremonyPlan_no_completeJoin in Hex.
    + intros c0 [= <-].
      destruct (handleBackendJoinGame_plan _ _ _ _ _ _ G E) as (evs' & T' & R').
      assert (evs' = evs) as -> by (rewrite T in T'; by apply app_inv_head in T').
      split; [done|]. intros CoC ClC CoB ClB.
      destruct (performs_handleBackendJoinGame j d c w G (conn (player w)) c) as [H _];
        [done|].
      rewrite E in H. exact H.
  - rewrite handleBackendJoinGame_unconnected in E by done. injection E as <- <-.
    unfold events_since. rewrite drop_all.
    split; [|split; [|split; [done|split; [done|done]]]]; (split; [done|]).
    + intros (_ & H & _). by apply elem_of_nil in H.
    + intros H. by apply elem_of_nil in H.
Qed.

End Further.

(** ** The further properties at concrete worlds *)

(** Five calls on the healthy backend of [onBackend]. *)
Lemma successful_writes_reach_the_wire_in_order_witness :
  doWrites (BackendConn 0) someWrites (onBackend [] 0)
  = (repeat None (length someWrites),
     set_trace (trace (onBackend [] 0) ++ concat (succeeded (BackendConn 0) <$> someWrites))
       (setConn (BackendConn 0) (written someWrites (backendPlay [])) (onBackend [] 0))).
Proof.
  apply successful_writes_reach_the_wire_in_order; reflexivity.
Defined.

(** The same calls over a backend transport that fails at the flush. *)
Lemma first_write_error_is_final_witness :
  let w := onBackend [true; true; false] 0 in
  let c := backendPlay [true; true; false] in
  exists n bad c',
    fst (doWrites (BackendConn 0) someWrites w) = repeat None n ++ bad /\
    forallb failed bad = true /\
    length (fst (doWrites (BackendConn 0) someWrites w)) = length someWrites /\
    getConn (BackendConn 0) (snd (doWrites (BackendConn 0) someWrites w)) = Some c' /\
    coherent c' /\
    closed c' = closed c || Nat.ltb n (length someWrites) /\
    wire c' = wire c ++ delivered (writeBuf c) (take n someWrites) /\
    (closed c = true -> n = 0%nat /\ c' = c) /\
    (closed c = false -> closed c' = true ->
       knownDisconnect c' = true /\ (0 < cancelCalls c')%nat).
Proof.
  apply (first_write_error_is_final (BackendConn 0) (backendPlay [true; true; false])
           (onBackend [true; true; false] 0) someWrites).
  - reflexivity.
  - split; reflexivity.
  - apply surjective_pairing.
Defined.

(** The same calls on the player's connection once it is closed. *)
Lemma closed_connection_refuses_every_write_witness :
  doWrites ClientConn someWrites hungUp
  = ((fun call => Some (refusal call)) <$> someWrites,
     set_trace (trace hungUp ++ (refused ClientConn <$> someWrites)) hungUp).
Proof.
  apply (closed_connection_refuses_every_write ClientConn (closedConn true clientPlay));
    vm_compute; reflexivity.
Defined.

(** The read loop's closeKnown(false) on the registered player of
    [onBackend]: a successful login, and the line is logged. *)
Lemma closing_the_player_reports_once_witness :
  events_since (onBackend [] 0) (snd (closeKnown ClientConn false (onBackend [] 0)))
  = [EvDisconnected ClientConn; EvServerDisconnect 0;
     EvFire (DisconnectEvent SuccessfulLoginStatus); EvLogDisconnected] /\
  conn (player (snd (closeKnown ClientConn false (onBackend [] 0))))
  = closedConn false clientPlay.
Proof.
  destruct (closing_the_player_reports_once false (onBackend [] 0) eq_refl eq_refl)
    as (H1 & H2 & _).
  split; [exact H1|exact H2].
Defined.

(** [Disconnect] of the player of [onBackend], twice. *)
Lemma Disconnect_is_a_known_disconnect_witness :
  closed (conn (player (snd (Disconnect "bye" (onBackend [] 0))))) = true /\
  disconnectStatuses
    (events_since (onBackend [] 0) (snd (Disconnect "bye" (onBackend [] 0))))
  = [SuccessfulLoginStatus] /\
  Disconnect "bye" (snd (Disconnect "bye" (onBackend [] 0)))
  = (false, snd (Disconnect "bye" (onBackend [] 0))).
Proof.
  destruct (Disconnect_is_a_known_disconnect "bye" (onBackend [] 0)
              eq_refl eq_refl eq_refl eq_refl) as (H1 & _ & _ & _ & H2 & _ & _ & H3).
  split; [exact H1|]. split; [exact H2|exact H3].
Defined.

(** The three rounds of [failingReads] leave the loop running. *)
Lemma read_errors_do_not_end_readLoop_witness :
  readLoop failingReads (onBackend [] 0) = (ReadLoopRunning, onBackend [] 0).
Proof.
  apply read_errors_do_not_end_readLoop; [|reflexivity].
  repeat constructor; eexists _, _, _; reflexivity.
Defined.

(** A parent context cancelled after the failing reads. *)
Lemma readLoop_returns_only_closed_witness :
  closed (conn (player (snd (readLoop (failingReads ++ [ParentDone]) (onBackend [] 0)))))
  = true.
Proof.
  apply (readLoop_returns_only_closed (failingReads ++ [ParentDone]) (onBackend [] 0)).
  - split; reflexivity.
  - vm_compute. reflexivity.
Defined.

(** A [Disconnect] elsewhere ends the loop before the reads. *)
Lemma close_ends_readLoop_witness :
  readLoop (Meanwhile (CallCloseWith goodbye) :: failingReads) (onBackend [] 0)
  = (ReadLoopReturned, snd (doClose ClientConn (CallCloseWith goodbye) (onBackend [] 0))).
Proof.
  apply close_ends_readLoop; [split|..]; reflexivity.
Defined.


(** The two queued messages of [queueing] reach the backend's wire. *)
Lemma flushQueuedMessages_delivers_the_queue_witness :
  loginPluginMessages (handler (snd (flushQueuedMessages queueing))) = [] /\
  events_since queueing (snd (flushQueuedMessages queueing))
  = backendPlan 0 (loginPluginMessages (handler queueing))
    ++ [EvFlush (BackendConn 0) true] /\
  exists c',
    getConn (BackendConn 0) (snd (flushQueuedMessages queueing)) = Some c' /\
    wire c'
    = wire (backendPlay []) ++ writeBuf (backendPlay [])
      ++ (PPluginMessage <$> loginPluginMessages (handler queueing)) /\
    writeBuf c' = [] /\ closed c' = false.
Proof.
  apply (flushQueuedMessages_delivers_the_queue 0 (backendPlay []) queueing); reflexivity.
Defined.

(** A message to a backend that is logging in, and one during a
    transition. *)
Lemma plugin_message_is_held_back_witness :
  handlePluginMessage telemetryMessage loggingIn = (Returned, loggingIn) /\
  handlePluginMessage telemetryMessage inTransition
  = (Returned,
     match connInFlight (player inTransition) with
     | Some f => set_trace (trace inTransition ++ [EvPhaseHandle f telemetryMessage]) inTransition
     | None => inTransition
     end).
Proof.
  destruct (plugin_message_is_held_back telemetryMessage 0
              (mkConn proto.Minecraft_1_16 Login (Some (OtherHandler "backendPlay"))
                 false false false 0 false [] [] [])
              loggingIn eq_refl eq_refl) as [H1 _].
  destruct (plugin_message_is_held_back telemetryMessage 0
              (mkConn proto.Minecraft_1_16 Play (Some (OtherHandler "backendPlay"))
                 false false false 0 false [] [] [])
              inTransition eq_refl eq_refl) as [_ H2].
  split.
  - apply H1. discriminate.
  - apply H2; try reflexivity.
    exists (backendIn Play (mkBackendPhase true false)). split; reflexivity.
Defined.

(** A message for a backend whose join is not complete, behind the one
    that waits already. *)
Lemma queued_plugin_message_is_flushed_witness :
  loginPluginMessages (handler (snd (handlePluginMessage telemetryMessage completing)))
  = loginPluginMessages (handler completing) ++ [telemetryMessage] /\
  exists c',
    getConn (BackendConn 0)
      (snd (flushQueuedMessages (snd (handlePluginMessage telemetryMessage completing))))
    = Some c' /\
    wire c' = [PPluginMessage brandMessage; PPluginMessage telemetryMessage].
Proof.
  destruct (queued_plugin_message_is_flushed (pluginPkg := specPlugin) telemetryMessage 0
              (mkConn proto.Minecraft_1_16 Play (Some (OtherHandler "backendPlay"))
                 false false false 0 false [] [] [])
              (backendIn Play (mkBackendPhase false false)) completing
              eq_refl eq_refl eq_refl eq_refl eq_refl eq_refl eq_refl eq_refl eq_refl
              eq_refl eq_refl eq_refl eq_refl)
    as (H1 & _ & _ & c' & G & W & _).
  split; [exact H1|]. exists c'. split; [exact G|exact W].
Defined.


(** A chat message the subscribers deny, and the proxy's command glist. *)
Lemma chat_stays_with_the_proxy_witness :
  handleChat (mkChat "hello" ChatMessage uuid.Nil) onBusyProxy
  = (tt, set_trace (trace onBusyProxy ++ [EvFire (PlayerChatEvent "hello")]) onBusyProxy) /\
  handleChat (mkChat "/glist" ChatMessage uuid.Nil) onBusyProxy
  = (tt, set_trace (trace onBusyProxy
                    ++ [EvFire (CommandExecuteEvent "glist"); EvInvoke "glist" []])
           onBusyProxy).
Proof.
  destruct (chat_stays_with_the_proxy (mkChat "hello" ChatMessage uuid.Nil) 0
              (backendPlay []) onBusyProxy eq_refl eq_refl) as [H1 _].
  destruct (chat_stays_with_the_proxy (commandPkg := specCommands)
              (mkChat "/glist" ChatMessage uuid.Nil) 0
              (backendPlay []) onBusyProxy eq_refl eq_refl) as [_ H2].
  split.
  - apply H1. left. reflexivity.
  - apply H2; reflexivity.
Defined.

(** A packet forwarded to the backend of [onBackend], and none to the
    backend of [completing]. *)
Lemma forwarding_needs_a_complete_backend_witness :
  forwardToServer (POther 9) (onBackend [] 0)
  = (tt, set_trace (trace (onBackend [] 0)
                    ++ succeeded (BackendConn 0) (CallWritePacket (POther 9)))
           (setConn (BackendConn 0) (written [CallWritePacket (POther 9)] (backendPlay []))
              (onBackend [] 0))) /\
  forwardToServer (POther 9) completing = (tt, completing).
Proof.
  destruct (forwarding_needs_a_complete_backend (onBackend [] 0)) as [_ H1].
  destruct (H1 0%nat (backend proto.Minecraft_1_16 7 0 []) (backendPlay [])
              eq_refl eq_refl eq_refl) as [_ H2].
  destruct (H2 eq_refl eq_refl eq_refl eq_refl) as [H3 _].
  destruct (forwarding_needs_a_complete_backend completing) as [H4 _].
  split; [apply H3|]. apply (H4 (POther 9) ""). reflexivity.
Defined.

(** Client settings for a backend whose join is not complete. *)
Lemma client_settings_are_stored_witness :
  settings (player (snd (handlePacket (PClientSettings 5%N) someInstant someInstant completing)))
  = Some 5%N /\
  snd (handlePacket (PClientSettings 5%N) someInstant someInstant completing)
  = set_trace (trace completing ++ [EvFire (PlayerSettingsChangedEvent 5%N)])
      (set_player (set_settings (Some 5%N) (player completing)) completing).
Proof.
  destruct (client_settings_are_stored 5%N someInstant someInstant completing)
    as (H1 & _ & H2).
  split; [exact H1|]. apply H2. reflexivity.
Defined.

(** A keep-alive with another id than the last ping's, and the one with
    its id. *)
Lemma keepalive_is_echoed_for_the_last_ping_witness :
  handleKeepAlive (mkKeepAlive 8) someInstant someInstant (onBackend [] 0)
  = (tt, onBackend [] 0) /\
  ping (player (snd (handleKeepAlive (mkKeepAlive 7) someInstant someInstant
                       (onBackend [] 0))))
  = time.Since someInstant
      (time.Unix 0
         (wrap64 (lastPingSent (backend proto.Minecraft_1_16 7 0 []) * time.Millisecond))).
Proof.
  destruct (keepalive_is_echoed_for_the_last_ping (mkKeepAlive 8) someInstant someInstant
              (onBackend [] 0)) as [H1 _].
  destruct (keepalive_is_echoed_for_the_last_ping (mkKeepAlive 7) someInstant someInstant
              (onBackend [] 0)) as [_ H2].
  split.
  - apply H1. simpl. left. discriminate.
  - destruct (H2 0%nat (backend proto.Minecraft_1_16 7 0 []) (backendPlay [])
                eq_refl eq_refl eq_refl eq_refl) as [H3 _].
    exact H3.
Defined.

(** The switch of a player that knows acme:chat and has one message
    queued. *)
Lemma ceremony_hands_the_queue_over_witness :
  buffered (BackendConn 1)
    (events_since switchingWithQueue (snd (handleBackendJoinGame nether 1 switchingWithQueue)))
  = PPluginMessage
      <$> ((if Nat.eqb (length (sets.UnsortedList (pluginChannels (player switchingWithQueue)))) 0
            then []
            else [plugin_ConstructChannelsPacket (protocol (backendPlay []))
                    (sets.UnsortedList (pluginChannels (player switchingWithQueue)))])
           ++ loginPluginMessages (handler switchingWithQueue)) /\
  loginPluginMessages (handler (snd (handleBackendJoinGame nether 1 switchingWithQueue))) = [].
Proof.
  assert (handleBackendJoinGame nether 1 switchingWithQueue
          = (true, snd (handleBackendJoinGame nether 1 switchingWithQueue))) as E
    by (vm_compute; reflexivity).
  destruct (ceremony_hands_the_queue_over nether 1 (backendPlay []) switchingWithQueue
              (snd (handleBackendJoinGame nether 1 switchingWithQueue)) eq_refl E)
    as (H1 & H2 & _).
  split; [exact H1|exact H2].
Defined.

(** A switch over healthy transports, by a player that knows a channel and
    has a message queued, and a switch whose client transport fails at
    the second call. *)
Lemma handleBackendJoinGame_succeeds_iff_witness :
  (let w := switchingWithQueue in
   let w' := snd (handleBackendJoinGame nether 1 w) in
   let handled := true in
   let evs := events_since w w' in
   (handled = true <->
      forallb io_ok evs = true /\
      EvFlush ClientConn true ∈ evs /\ EvFlush (BackendConn 1) true ∈ evs) /\
   (handled = true <-> EvCompleteJoin 1 ∈ evs) /\
   connectedServer_ (player w') =
     (if handled then Some 1%nat else connectedServer_ (player w)) /\
   (getConn (BackendConn 1) w = None -> handled = false /\ w' = w) /\
   (forall c, getConn (BackendConn 1) w = Some c ->
      let plan :=
        ceremonyPlan (negb (spawned (handler w))) nether (protocol (conn (player w))) 1
          (channelsPackets w (protocol c) ++ loginPluginMessages (handler w)) in
      run_of plan handled evs /\
      (coherent (conn (player w)) -> closed (conn (player w)) = false ->
       coherent c -> closed c = false ->
       handled = serves (conn (player w)) (callsOf ClientConn plan)
                 && serves c (callsOf (BackendConn 1) plan)))) /\
  (let w := failingSwitch in
   let w' := snd (handleBackendJoinGame overworld 1 w) in
   let handled := false in
   let evs := events_since w w' in
   (handled = true <->
      forallb io_ok evs = true /\
      EvFlush ClientConn true ∈ evs /\ EvFlush (BackendConn 1) true ∈ evs) /\
   (handled = true <-> EvCompleteJoin 1 ∈ evs) /\
   connectedServer_ (player w') =
     (if handled then Some 1%nat else connectedServer_ (player w)) /\
   (getConn (BackendConn 1) w = None -> handled = false /\ w' = w) /\
   (forall c, getConn (BackendConn 1) w = Some c ->
      let plan :=
        ceremonyPlan (negb (spawned (handler w))) overworld (protocol (conn (player w))) 1
          (channelsPackets w (protocol c) ++ loginPluginMessages (handler w)) in
      run_of plan handled evs /\
      (coherent (conn (player w)) -> closed (conn (player w)) = false ->
       coherent c -> closed c = false ->
       handled = serves (conn (player w)) (callsOf ClientConn plan)
                 && serves c (callsOf (BackendConn 1) plan)))).
Proof.
  split.
  - assert (handleBackendJoinGame nether 1 switchingWithQueue
            = (true, snd (handleBackendJoinGame nether 1 switchingWithQueue))) as E
      by (vm_compute; reflexivity).
    exact (handleBackendJoinGame_succeeds_iff nether 1 switchingWithQueue true _ E).
  - assert (handleBackendJoinGame overworld 1 failingSwitch
            = (false, snd (handleBackendJoinGame overworld 1 failingSwitch))) as E
      by (vm_compute; reflexivity).
    exact (handleBackendJoinGame_succeeds_iff overworld 1 failingSwitch false _ E).
Defined.
